(** * Universal video proxy: signer, cache, playlist rewriter, handlers

    A shallow embedding of the Go packages [util], [signer], [cache],
    [rewrite], [config], [headers] and [main] (the HTTP handlers, the CORS
    middleware and [handleRangeRequest]) of the universal-video-proxy
    plugin, together with the pieces of the Go standard library they call
    ([strings], [strconv], [bufio], [crypto/sha256], [crypto/hmac],
    [encoding/hex], [net/url], [net/http]).

    Go strings are byte sequences: they are modelled by [string] (a list of
    8-bit [ascii] characters).  [int] and [int64] are 64-bit; they are
    modelled by [Z] with the wrap-around written out where the code
    computes. *)

From Stdlib Require Import ZArith List Bool Lia Ascii String.
From Stdlib Require Import Strings.Byte.
From Stdlib Require Import Sorting.Sorted.
Import ListNotations.
Open Scope string_scope.

(** [In_str c s]: the byte [c] occurs in [s]. *)
Fixpoint In_str (c : ascii) (s : string) : Prop :=
  match s with
  | EmptyString => False
  | String d s' => d = c \/ In_str c s'
  end.

(** Reversal of a string, used for suffix tests and right trimming. *)
Fixpoint rev_append (s acc : string) : string :=
  match s with
  | EmptyString => acc
  | String c s' => rev_append s' (String c acc)
  end.

Definition rev (s : string) : string := rev_append s "".

(** [drop n s] is Go's [s[n:]] (for [n <= len(s)]). *)
Fixpoint drop (n : nat) (s : string) : string :=
  match n, s with
  | O, _ => s
  | S _, EmptyString => EmptyString
  | S n', String _ s' => drop n' s'
  end.

(** Every byte of [s] satisfies [p]. *)
Fixpoint all_chars (p : ascii -> bool) (s : string) : bool :=
  match s with
  | EmptyString => true
  | String c s' => p c && all_chars p s'
  end.

(* ================================================================= *)
(** ** Package [strings] of the Go standard library *)

Module strings.

(** [strings.HasPrefix(s, prefix)]. *)
Definition HasPrefix (s prefix : string) : bool := String.prefix prefix s.

(** [strings.HasSuffix(s, suffix)]. *)
Definition HasSuffix (s suffix : string) : bool :=
  String.prefix (rev suffix) (rev s).

(** [strings.Split(s, sep)] for a one-byte separator [sep] (every call in
    the modelled code passes one: newline, comma or dash). *)
Fixpoint Split (s : string) (sep : ascii) : list string :=
  match s with
  | EmptyString => [EmptyString]
  | String c s' =>
      if Ascii.eqb c sep then EmptyString :: Split s' sep
      else match Split s' sep with
           | [] => [String c EmptyString]
           | p :: ps => String c p :: ps
           end
  end.

(** [strings.Join(elems, sep)]. *)
Definition Join (elems : list string) (sep : string) : string :=
  String.concat sep elems.

Definition string_of_codes (l : list nat) : string :=
  string_of_list_ascii (map ascii_of_nat l).

(** UTF-8 encodings of the runes for which [unicode.IsSpace] holds:
    TAB, LF, VT, FF, CR, SPACE, U+0085, U+00A0, U+1680, U+2000..U+200A,
    U+2028, U+2029, U+202F, U+205F, U+3000. *)
Definition space_encodings : list string :=
  map string_of_codes
    [ [9]; [10]; [11]; [12]; [13]; [32];
      [194; 133]; [194; 160]; [225; 154; 128];
      [226; 128; 128]; [226; 128; 129]; [226; 128; 130]; [226; 128; 131];
      [226; 128; 132]; [226; 128; 133]; [226; 128; 134]; [226; 128; 135];
      [226; 128; 136]; [226; 128; 137]; [226; 128; 138];
      [226; 128; 168]; [226; 128; 169]; [226; 128; 175];
      [226; 129; 159]; [227; 128; 128] ]%nat.

(** The rest of [s] after a leading member of [encs], if there is one. *)
Fixpoint strip_one (encs : list string) (s : string) : option string :=
  match encs with
  | [] => None
  | e :: encs' =>
      if String.prefix e s then Some (drop (String.length e) s)
      else strip_one encs' s
  end.

Fixpoint strip_all (fuel : nat) (encs : list string) (s : string) : string :=
  match fuel with
  | O => s
  | S fuel' =>
      match strip_one encs s with
      | Some s' => strip_all fuel' encs s'
      | None => s
      end
  end.

(** [strings.TrimSpace(s)]: leading and trailing white space removed. *)
Definition TrimLeftSpace (s : string) : string :=
  strip_all (String.length s) space_encodings s.

Definition TrimRightSpace (s : string) : string :=
  rev (strip_all (String.length s) (map rev space_encodings) (rev s)).

Definition TrimSpace (s : string) : string := TrimRightSpace (TrimLeftSpace s).


(** [strings.Contains(s, substr)]. *)
Fixpoint Contains (s substr : string) : bool :=
  String.prefix substr s
  || match s with
     | EmptyString => false
     | String _ s' => Contains s' substr
     end.

Definition isASCII (s : string) : bool :=
  all_chars (fun c => (nat_of_ascii c <? 128)%nat) s.

Definition lowerByte (c : ascii) : ascii :=
  let n := nat_of_ascii c in
  if ((65 <=? n) && (n <=? 90))%nat then ascii_of_nat (n + 32) else c.

Fixpoint lowerASCII (s : string) : string :=
  match s with
  | EmptyString => EmptyString
  | String c s' => String (lowerByte c) (lowerASCII s')
  end.

(** [strings.ToLower(s)]: byte by byte on an ASCII string; a string with a
    byte above 127 goes through [strings.Map(unicode.ToLower, s)], which is
    taken as given ([mapLower]). *)
Definition ToLower (mapLower : string -> string) (s : string) : string :=
  if isASCII s then lowerASCII s else mapLower s.

End strings.

(* ================================================================= *)
(** ** Package [strconv]: base-10 conversions of 64-bit integers *)

Module strconv.
Local Open Scope Z_scope.

Definition isDigit (c : ascii) : bool :=
  let n := Z.of_nat (nat_of_ascii c) in (48 <=? n) && (n <=? 57).

Definition digitVal (c : ascii) : Z := Z.of_nat (nat_of_ascii c) - 48.

Definition digitChar (d : Z) : ascii := ascii_of_nat (Z.to_nat (48 + d)).

(** The digit loop of [ParseUint]: every byte must be a decimal digit. *)
Fixpoint parseDigits (acc : Z) (s : string) : option Z :=
  match s with
  | EmptyString => Some acc
  | String c s' =>
      if isDigit c then parseDigits (10 * acc + digitVal c) s' else None
  end.

(** [strconv.ParseInt(s, 10, 64)]: an optional sign, then at least one
    digit; [None] stands for a syntax or a range error ([ParseUint]'s
    cut-off during the loop rejects the same strings as the comparison of
    the unbounded value with [2^63] below). *)
Definition ParseInt (s : string) : option Z :=
  match s with
  | EmptyString => None
  | String c rest =>
      let neg := Ascii.eqb c "-" in
      let ds := if Ascii.eqb c "+" || neg then rest else s in
      match ds with
      | EmptyString => None
      | _ =>
          match parseDigits 0 ds with
          | None => None
          | Some un =>
              if neg then (if un <=? 2 ^ 63 then Some (- un) else None)
              else (if un <? 2 ^ 63 then Some un else None)
          end
      end
  end.

(** [strconv.Atoi(s)] is [ParseInt(s, 10, 0)] with [int] of 64 bits. *)
Definition Atoi (s : string) : option Z := ParseInt s.

(** The decimal digits of [n >= 0] in front of [acc]. *)
Fixpoint digits (fuel : nat) (n : Z) (acc : string) : string :=
  let acc' := String (digitChar (n mod 10)) acc in
  match fuel with
  | O => acc'
  | S fuel' => if n <? 10 then acc' else digits fuel' (n / 10) acc'
  end.

Definition formatBits (n : Z) : string := digits (Z.to_nat (Z.log2 n)) n "".

(** [strconv.FormatInt(i, 10)], also [strconv.Itoa] and the verb [%d]. *)
Definition FormatInt (i : Z) : string :=
  if i <? 0 then String "-" (formatBits (- i)) else formatBits i.

Definition Itoa (i : Z) : string := FormatInt i.

End strconv.

(* ================================================================= *)
(** ** [main]: serving a byte range of an in-memory payload *)

Module server.
Local Open Scope Z_scope.

(** What [handleRangeRequest] puts on the [http.ResponseWriter]: the status
    code, the headers it sets itself, and the body it writes. *)
Record Response := mkResponse {
  StatusCode : Z;
  Header : list (string * string);
  Body : list byte
}.

Definition StatusPartialContent : Z := 206.
Definition StatusRequestedRangeNotSatisfiable : Z := 416.

(** [w.WriteHeader(http.StatusRequestedRangeNotSatisfiable); return] *)
Definition notSatisfiable : Response :=
  mkResponse StatusRequestedRangeNotSatisfiable [] [].

(** Go's [content[lo:hi]]. *)
Definition slice {A : Type} (content : list A) (lo hi : Z) : list A :=
  firstn (Z.to_nat (hi - lo)) (skipn (Z.to_nat lo) content).

(** The response on success. *)
Definition partialContent (content : list byte) (start end_ : Z) : Response :=
  let contentLength := Z.of_nat (List.length content) in
  mkResponse StatusPartialContent
    [ ("Content-Range",
       "bytes " ++ strconv.Itoa start ++ "-" ++ strconv.Itoa end_
         ++ "/" ++ strconv.Itoa contentLength);
      ("Content-Length", strconv.Itoa (end_ - start + 1)) ]
    (slice content start (end_ + 1)).

Definition handleRangeRequest (content : list byte) (rangeHeader : string)
  : Response :=
  let contentLength := Z.of_nat (List.length content) in
  if negb (strings.HasPrefix rangeHeader "bytes=") then notSatisfiable
  else
    let rangeSpec := drop 6 rangeHeader in
    match strings.Split rangeSpec "-" with
    | [part0; part1] =>
        let start :=
          if String.eqb part0 "" then Some 0
          else match strconv.Atoi part0 with
               | Some v => if v <? 0 then None else Some v
               | None => None
               end in
        match start with
        | None => notSatisfiable
        | Some start =>
            let end_ :=
              if String.eqb part1 "" then Some (contentLength - 1)
              else match strconv.Atoi part1 with
                   | Some v => if v >=? contentLength then None else Some v
                   | None => None
                   end in
            match end_ with
            | None => notSatisfiable
            | Some end_ =>
                if start >? end_ then notSatisfiable
                else partialContent content start end_
            end
        end
    | _ => notSatisfiable
    end.

End server.

Definition bytes_of (s : string) : list byte := list_byte_of_string s.

(* ================================================================= *)
(** ** Packages [crypto/sha256], [crypto/hmac] and [encoding/hex] *)

Definition Z_of_ascii (c : ascii) : Z := Z.of_N (N_of_ascii c).
Definition ascii_of_Z (z : Z) : ascii := ascii_of_N (Z.to_N z).

Fixpoint bytes_of_string (s : string) : list Z :=
  match s with
  | EmptyString => []
  | String c s' => Z_of_ascii c :: bytes_of_string s'
  end.

Fixpoint string_of_bytes (l : list Z) : string :=
  match l with
  | [] => EmptyString
  | b :: l' => String (ascii_of_Z b) (string_of_bytes l')
  end.

Module sha256.
Local Open Scope Z_scope.

Definition BlockSize : nat := 64.

Definition w32 (x : Z) : Z := x mod 2 ^ 32.
Definition add32 (x y : Z) : Z := w32 (x + y).
Definition rotr (n x : Z) : Z :=
  Z.lor (Z.shiftr x n) (w32 (Z.shiftl x (32 - n))).
Definition not32 (x : Z) : Z := Z.lxor x (2 ^ 32 - 1).

Definition Ch (x y z : Z) : Z := Z.lxor (Z.land x y) (Z.land (not32 x) z).
Definition Maj (x y z : Z) : Z :=
  Z.lxor (Z.lxor (Z.land x y) (Z.land x z)) (Z.land y z).
Definition Sigma0 (x : Z) : Z := Z.lxor (Z.lxor (rotr 2 x) (rotr 13 x)) (rotr 22 x).
Definition Sigma1 (x : Z) : Z := Z.lxor (Z.lxor (rotr 6 x) (rotr 11 x)) (rotr 25 x).
Definition sigma0 (x : Z) : Z := Z.lxor (Z.lxor (rotr 7 x) (rotr 18 x)) (Z.shiftr x 3).
Definition sigma1 (x : Z) : Z := Z.lxor (Z.lxor (rotr 17 x) (rotr 19 x)) (Z.shiftr x 10).

(** The primes below [n], by trial division. *)
Definition isPrime (p : Z) : bool :=
  forallb (fun d => negb (p mod d =? 0)) (map Z.of_nat (seq 2 (Z.to_nat p - 2))).

Definition primesBelow (n : nat) : list Z :=
  filter isPrime (map Z.of_nat (seq 2 (n - 2))).

(** The integer cube root: the largest [r < 2^bits] with [r^3 <= n]. *)
Fixpoint cbrtBits (bits : nat) (n r : Z) : Z :=
  match bits with
  | O => r
  | S b =>
      let r' := r + 2 ^ Z.of_nat b in
      cbrtBits b n (if r' * r' * r' <=? n then r' else r)
  end.

(** The round constants: the first 32 bits of the fractional parts of the
    cube roots of the first 64 primes. *)
Definition K : list Z :=
  Eval vm_compute in
    map (fun p => w32 (cbrtBits 36 (p * 2 ^ 96) 0)) (primesBelow 312).

(** The initial hash value: the first 32 bits of the fractional parts of
    the square roots of the first 8 primes. *)
Definition init : list Z :=
  Eval vm_compute in map (fun p => w32 (Z.sqrt (p * 2 ^ 64))) (primesBelow 20).

(** Big-endian encoding of [x] on [n] bytes. *)
Fixpoint be_bytes (n : nat) (x : Z) : list Z :=
  match n with
  | O => []
  | S n' => (Z.shiftr x (8 * Z.of_nat n')) mod 256 :: be_bytes n' x
  end.

(** The message followed by [0x80], zero bytes up to 56 modulo 64, and the
    bit length on 8 bytes. *)
Definition pad (msg : list Z) : list Z :=
  let len := Z.of_nat (List.length msg) in
  (msg ++ 128 :: repeat 0 (Z.to_nat ((55 - len) mod 64))
       ++ be_bytes 8 (8 * len))%list.

(** The big-endian 32-bit words of a byte sequence. *)
Fixpoint words (fuel : nat) (l : list Z) : list Z :=
  match fuel, l with
  | S fuel', b0 :: b1 :: b2 :: b3 :: l' =>
      (b0 * 2 ^ 24 + b1 * 2 ^ 16 + b2 * 2 ^ 8 + b3) :: words fuel' l'
  | _, _ => []
  end.

(** The message schedule, latest word first: [w] holds [W(t-1) .. W(0)]. *)
Fixpoint schedule (n : nat) (w : list Z) : list Z :=
  match n with
  | O => w
  | S n' =>
      let wt := add32 (add32 (add32 (sigma1 (nth 1 w 0)) (nth 6 w 0))
                         (sigma0 (nth 14 w 0))) (nth 15 w 0) in
      schedule n' (wt :: w)
  end.

Definition round (st : list Z) (kw : Z * Z) : list Z :=
  match st with
  | [a; b; c; d; e; f; g; h] =>
      let t1 := add32 (add32 (add32 (add32 h (Sigma1 e)) (Ch e f g)) (fst kw))
                  (snd kw) in
      let t2 := add32 (Sigma0 a) (Maj a b c) in
      [add32 t1 t2; a; b; c; add32 d t1; e; f; g]
  | _ => st
  end.

(** One 64-byte block (16 words) folded into the hash state. *)
Definition block (st : list Z) (w16 : list Z) : list Z :=
  let w := List.rev (schedule 48 (List.rev w16)) in
  let st' := fold_left round (combine K w) st in
  map (fun p => add32 (fst p) (snd p)) (combine st st').

Fixpoint blocks (fuel : nat) (st : list Z) (ws : list Z) : list Z :=
  match fuel, ws with
  | S fuel', _ :: _ => blocks fuel' (block st (firstn 16 ws)) (skipn 16 ws)
  | _, _ => st
  end.

(** [sha256.Sum256(data)] as a 32-byte string. *)
Definition Sum256 (data : string) : string :=
  let p := pad (bytes_of_string data) in
  let ws := words (List.length p) p in
  string_of_bytes (flat_map (be_bytes 4) (blocks (List.length ws) init ws)).

End sha256.

Module hmac.
Local Open Scope Z_scope.

(** The key as [hmac.New] lays it out: hashed when longer than a block,
    then filled with zero bytes up to the block size. *)
Definition blockKey (key : string) : list Z :=
  let k := if (sha256.BlockSize <? String.length key)%nat
           then bytes_of_string (sha256.Sum256 key)
           else bytes_of_string key in
  (k ++ repeat 0 (sha256.BlockSize - List.length k))%list.

(** [h := hmac.New(sha256.New, key); h.Write(msg); h.Sum(nil)]. *)
Definition Sum (key msg : string) : string :=
  let k := blockKey key in
  let ipad := string_of_bytes (map (Z.lxor 54) k) in
  let opad := string_of_bytes (map (Z.lxor 92) k) in
  sha256.Sum256 (opad ++ sha256.Sum256 (ipad ++ msg)).

End hmac.

Module hex.

Definition hextable : string := "0123456789abcdef".

Definition digit (n : nat) : ascii :=
  match String.get n hextable with Some c => c | None => "0"%char end.

(** [hex.EncodeToString(src)]: two lower-case digits per byte. *)
Fixpoint EncodeToString (src : string) : string :=
  match src with
  | EmptyString => EmptyString
  | String c src' =>
      let n := nat_of_ascii c in
      String (digit (n / 16)) (String (digit (n mod 16)) (EncodeToString src'))
  end.

End hex.

(* ================================================================= *)
(** ** Package [signer] *)

(** The value of a 64-bit signed computation: [x] reduced to
    [-2^63 .. 2^63-1] (Go integer arithmetic wraps around silently). *)
Definition int64_wrap (x : Z) : Z := ((x + 2 ^ 63) mod 2 ^ 64 - 2 ^ 63)%Z.

Module signer.
Local Open Scope Z_scope.

Record Signer := mkSigner {
  secret : string;
  ttlSeconds : Z;
  enabled : bool
}.

Definition New (secret : string) (ttlSeconds : Z) (enabled : bool) : Signer :=
  mkSigner secret ttlSeconds enabled.

Definition IsEnabled (s : Signer) : bool := enabled s.

(** A Go [error] built by [fmt.Errorf] with a constant message. *)
Definition error : Type := string.

(** [Generate]: [now] is the value of [time.Now().Unix()].  The result is
    [inl (sign, ts)] or [inr err]. *)
Definition Generate (s : Signer) (now : Z) (url : string)
  : (string * string) + error :=
  if negb (enabled s) then inr "signing is disabled"
  else
    let ts := strconv.FormatInt now in
    let payload := url ++ "|" ++ ts in
    let sign := hex.EncodeToString (hmac.Sum (secret s) payload) in
    inl (sign, ts).

(** [Verify]: [None] is the [nil] error; [now] is the value of
    [time.Now().Unix()] at the time of the check. *)
Definition Verify (s : Signer) (now : Z) (url sign ts : string)
  : option error :=
  if negb (enabled s) then None
  else if String.eqb sign "" || String.eqb ts "" then
    Some "missing signature parameters"
  else
    match strconv.ParseInt ts with
    | None => Some "invalid timestamp"
    | Some timestamp =>
        if int64_wrap (now - timestamp) >? ttlSeconds s then
          Some "signature expired"
        else
          let payload := url ++ "|" ++ ts in
          let expectedSign :=
            hex.EncodeToString (hmac.Sum (secret s) payload) in
          if negb (String.eqb sign expectedSign) then
            Some "signature mismatch"
          else None
    end.

End signer.

(* ================================================================= *)
(** ** Package [net/url] *)

Module url.

(** The parser and the reference resolution of [net/url] are taken as
    given: [Parse] is [url.Parse], [Host] the field [u.Host],
    [URL_Parse base ref] the method [base.Parse(ref)] (parse [ref], then
    resolve it against [base]) and [URL_String] the method [u.String()].
    [None] stands for a non-nil error. *)
Record Lib := mkLib {
  URL : Type;
  Parse : string -> option URL;
  Host : URL -> string;
  URL_Parse : URL -> string -> option URL;
  URL_String : URL -> string
}.

(** [strings.IndexByte(s, c)]. *)
Fixpoint IndexByte (s : string) (c : ascii) : option nat :=
  match s with
  | EmptyString => None
  | String d s' =>
      if Ascii.eqb d c then Some O
      else match IndexByte s' c with Some i => Some (S i) | None => None end
  end.

(** [strings.LastIndexByte(s, c)]. *)
Fixpoint LastIndexByte (s : string) (c : ascii) : option nat :=
  match s with
  | EmptyString => None
  | String d s' =>
      match LastIndexByte s' c with
      | Some i => Some (S i)
      | None => if Ascii.eqb d c then Some O else None
      end
  end.

(** [validOptionalPort(port)]: [port] is empty, or a colon followed by
    decimal digits only. *)
Definition validOptionalPort (port : string) : bool :=
  match port with
  | EmptyString => true
  | String c rest => Ascii.eqb c ":" && all_chars strconv.isDigit rest
  end.

(** [splitHostPort(hostPort)]: the host and the port.  The port is what
    follows the last colon, when that is a valid port; the brackets of an
    IPv6 literal are removed from the host. *)
Definition splitHostPort (hostPort : string) : string * string :=
  let hp :=
    match LastIndexByte hostPort ":" with
    | Some colon =>
        if validOptionalPort (drop colon hostPort)
        then (String.substring 0 colon hostPort, drop (S colon) hostPort)
        else (hostPort, "")
    | None => (hostPort, "")
    end in
  let host := fst hp in
  let host :=
    if strings.HasPrefix host "[" && strings.HasSuffix host "]"
    then String.substring 1 (String.length host - 2) host
    else host in
  (host, snd hp).

(** [u.Hostname()]. *)
Definition Hostname (L : Lib) (u : URL L) : string :=
  fst (splitHostPort (Host L u)).

Definition upperhex : string := "0123456789ABCDEF".

Definition upperDigit (n : nat) : ascii :=
  match String.get n upperhex with Some c => c | None => "0"%char end.

(** [shouldEscape(c, encodeQueryComponent)]: letters, digits and [-_.~]
    are the only bytes left as they are. *)
Definition shouldEscape (c : ascii) : bool :=
  let n := nat_of_ascii c in
  negb (((97 <=? n) && (n <=? 122)) || ((65 <=? n) && (n <=? 90))
        || ((48 <=? n) && (n <=? 57))
        || Ascii.eqb c "-" || Ascii.eqb c "_" || Ascii.eqb c "."
        || Ascii.eqb c "~")%nat.

(** [url.QueryEscape(s)]: a space becomes [+], every other escaped byte
    becomes [%XX] with upper-case digits. *)
Fixpoint QueryEscape (s : string) : string :=
  match s with
  | EmptyString => EmptyString
  | String c s' =>
      if Ascii.eqb c " " then String "+" (QueryEscape s')
      else if shouldEscape c then
        let n := nat_of_ascii c in
        String "%" (String (upperDigit (n / 16))
                      (String (upperDigit (n mod 16)) (QueryEscape s')))
      else String c (QueryEscape s')
  end.


Definition ishex (c : ascii) : bool :=
  let n := nat_of_ascii c in
  (((48 <=? n) && (n <=? 57)) || ((97 <=? n) && (n <=? 102))
   || ((65 <=? n) && (n <=? 70)))%nat.

Definition unhex (c : ascii) : nat :=
  let n := nat_of_ascii c in
  if ((48 <=? n) && (n <=? 57))%nat then n - 48
  else if ((97 <=? n) && (n <=? 102))%nat then n - 97 + 10
  else if ((65 <=? n) && (n <=? 70))%nat then n - 65 + 10
  else 0.

(** [url.QueryUnescape(s)]: [%XX] becomes the byte [XX], [+] becomes a
    space; a [%] that is not followed by two hex digits is an error
    ([None]). *)
Fixpoint QueryUnescape (s : string) : option string :=
  match s with
  | EmptyString => Some EmptyString
  | String c rest =>
      if Ascii.eqb c "%" then
        match rest with
        | String a (String b rest') =>
            if ishex a && ishex b then
              option_map (String (ascii_of_nat (unhex a * 16 + unhex b)))
                         (QueryUnescape rest')
            else None
        | _ => None
        end
      else if Ascii.eqb c "+" then option_map (String " ") (QueryUnescape rest)
      else option_map (String c) (QueryUnescape rest)
  end.

End url.

(* ================================================================= *)
(** ** Package [util] *)

Module util.

Definition IsAllowedHost (L : url.Lib) (targetURL : string)
    (allowHosts : list string) : bool :=
  if (List.length allowHosts =? 0)%nat then false
  else
    match url.Parse L targetURL with
    | None => false
    | Some parsed =>
        let hostname := url.Hostname L parsed in
        existsb (fun allowed =>
                   String.eqb hostname allowed
                   || strings.HasSuffix hostname ("." ++ allowed))
                allowHosts
    end.

Definition SanitizeURL (input : string) : string :=
  let input := strings.TrimSpace input in
  if String.eqb input "" then ""
  else if negb (strings.HasPrefix input "http://")
          && negb (strings.HasPrefix input "https://") then ""
  else input.

Definition BuildSignParams (sign ts : string) : string :=
  if String.eqb sign "" || String.eqb ts "" then ""
  else "sign=" ++ url.QueryEscape sign ++ "&ts=" ++ url.QueryEscape ts.


(** [util.GetContentType(url)]. *)
Definition GetContentType (mapLower : string -> string) (url : string)
  : string :=
  let url := strings.ToLower mapLower url in
  if strings.Contains url ".m3u8" then "application/vnd.apple.mpegurl"
  else if strings.Contains url ".ts" then "video/mp2t"
  else if strings.Contains url ".mp4" then "video/mp4"
  else if strings.Contains url ".key" then "application/octet-stream"
  else "application/octet-stream".

End util.

(* ================================================================= *)
(** ** Package [rewrite] *)

Definition dquote : ascii := ascii_of_nat 34.
Definition newline : ascii := ascii_of_nat 10.

(** [bufio.Scanner] with the split function [ScanLines]. *)
Module bufio.
Local Open Scope Z_scope.

(** [bufio.MaxScanTokenSize]: the size of the largest buffer of a
    [Scanner]. *)
Definition MaxScanTokenSize : Z := 64 * 1024.

(** [dropCR(data)]: a final carriage return is removed. *)
Definition dropCR (data : string) : string :=
  if strings.HasSuffix data (String (ascii_of_nat 13) "")
  then String.substring 0 (String.length data - 1) data
  else data.

(** The tokens that [scanner.Scan()] delivers with the split function
    [ScanLines] over a reader of [data], until it returns false: the lines
    without their end-of-line marker.  A line is delivered when it fits in
    the buffer together with its newline, the last line when it leaves the
    buffer short of full; otherwise the scan stops with [ErrTooLong]. *)
Fixpoint scanLines (fuel : nat) (data : string) : list string :=
  match fuel with
  | O => []
  | S fuel' =>
      match url.IndexByte data newline with
      | Some i =>
          if Z.of_nat i + 1 <=? MaxScanTokenSize then
            dropCR (String.substring 0 i data)
              :: scanLines fuel' (drop (S i) data)
          else []
      | None =>
          if String.eqb data "" then []
          else if Z.of_nat (String.length data) <? MaxScanTokenSize
               then [dropCR data]
               else []
      end
  end.

Definition Lines (data : string) : list string :=
  scanLines (S (String.length data)) data.

End bufio.

Module rewrite.

Record M3U8Rewriter := mkM3U8Rewriter {
  baseURL : string;
  segPrefix : string;
  keyPrefix : string;
  signParams : string
}.

Definition NewM3U8Rewriter (baseURL segPrefix keyPrefix signParams : string)
  : M3U8Rewriter :=
  mkM3U8Rewriter baseURL segPrefix keyPrefix signParams.

Definition resolveURL (L : url.Lib) (urlStr baseURL : string) : string :=
  if strings.HasPrefix urlStr "http://" || strings.HasPrefix urlStr "https://"
  then urlStr
  else
    match url.Parse L baseURL with
    | None => urlStr
    | Some base =>
        match url.URL_Parse L base urlStr with
        | None => urlStr
        | Some resolved => url.URL_String L resolved
        end
    end.

Definition buildSegmentURL (r : M3U8Rewriter) (segmentURL : string) : string :=
  let encoded := url.QueryEscape segmentURL in
  let result := baseURL r ++ segPrefix r ++ "?u=" ++ encoded in
  if negb (String.eqb (signParams r) "") then result ++ "&" ++ signParams r
  else result.

Definition buildKeyURL (r : M3U8Rewriter) (keyURL : string) : string :=
  let encoded := url.QueryEscape keyURL in
  let result := baseURL r ++ keyPrefix r ++ "?u=" ++ encoded in
  if negb (String.eqb (signParams r) "") then result ++ "&" ++ signParams r
  else result.

(** [uriPart[0] == '"' && uriPart[len(uriPart)-1] == '"'] for a [uriPart] of
    length at least 2. *)
Definition quoted (uriPart : string) : bool :=
  (2 <=? String.length uriPart)%nat
  && match String.get 0 uriPart with
     | Some c => Ascii.eqb c dquote
     | None => false
     end
  && match String.get (String.length uriPart - 1) uriPart with
     | Some c => Ascii.eqb c dquote
     | None => false
     end.

(** The body of the loop of [rewriteKeyLine]: the new value of [parts[i]]
    for the element [part]. *)
Definition rewriteKeyPart (L : url.Lib) (r : M3U8Rewriter) (baseURL : string)
    (part0 : string) : string :=
  let part := strings.TrimSpace part0 in
  if strings.HasPrefix part "URI=" then
    let uriPart := drop 4 part in
    if quoted uriPart then
      let uri := String.substring 1 (String.length uriPart - 2) uriPart in
      let resolvedURI := resolveURL L uri baseURL in
      let proxyURI := buildKeyURL r resolvedURI in
      "URI=" ++ String dquote (proxyURI ++ String dquote "")
    else part0
  else part0.

Definition rewriteKeyLine (L : url.Lib) (r : M3U8Rewriter)
    (line baseURL : string) : string :=
  let parts := strings.Split line "," in
  strings.Join (map (rewriteKeyPart L r baseURL) parts) ",".

(** The body of the loop of [Rewrite]: what is appended to [result] for
    one element of [lines]. *)
Definition rewriteLine (L : url.Lib) (r : M3U8Rewriter) (originalURL : string)
    (line0 : string) : string :=
  let line := strings.TrimSpace line0 in
  if String.eqb line "" || strings.HasPrefix line "#" then
    if strings.HasPrefix line "#EXT-X-KEY:" then
      rewriteKeyLine L r line originalURL
    else line
  else
    let segmentURL := resolveURL L line originalURL in
    buildSegmentURL r segmentURL.

(** [Rewrite]: the returned error is always [nil]; the content and the
    result are byte slices converted from and to strings. *)
Definition Rewrite (L : url.Lib) (r : M3U8Rewriter)
    (content originalURL : string) : string :=
  let lines := strings.Split content newline in
  strings.Join (map (rewriteLine L r originalURL) lines) (String newline "").


(** The loop of [IsM3U8Content] over the lines still to come. *)
Fixpoint scanForHeader (tokens : list string) : bool :=
  match tokens with
  | [] => false
  | text :: rest =>
      let line := strings.TrimSpace text in
      if strings.HasPrefix line "#EXTM3U" then true
      else if negb (String.eqb line "") && negb (strings.HasPrefix line "#")
           then false
           else scanForHeader rest
  end.

(** [rewrite.IsM3U8Content(content)]. *)
Definition IsM3U8Content (content : string) : bool :=
  scanForHeader (bufio.Lines content).

End rewrite.

(* ================================================================= *)
(** ** A small instance of [url.Lib], used in examples *)

Module simpleurl.

(** URLs of the shape [scheme://host/path]; a reference without scheme is
    resolved by replacing what follows the last [/] of the base path (or the
    whole path when the reference starts with [/]).  Dot segments, queries
    and fragments get no special treatment; a control byte is a parse
    error. *)
Record URL := mkURL { scheme : string; host : string; path : string }.

Fixpoint hasControl (s : string) : bool :=
  match s with
  | EmptyString => false
  | String c s' =>
      let n := nat_of_ascii c in
      (n <? 32)%nat || (n =? 127)%nat || hasControl s'
  end.

Definition Parse (s : string) : option URL :=
  if hasControl s then None
  else
    match String.index 0 "://" s with
    | Some i =>
        let rest := drop (i + 3) s in
        match url.IndexByte rest "/" with
        | Some j =>
            Some (mkURL (String.substring 0 i s) (String.substring 0 j rest)
                    (drop j rest))
        | None => Some (mkURL (String.substring 0 i s) rest "")
        end
    | None => Some (mkURL "" "" s)
    end.

Definition dir (p : string) : string :=
  match url.IndexByte (rev p) "/" with
  | Some i => rev (drop i (rev p))
  | None => "/"
  end.

Definition URL_Parse (base : URL) (ref : string) : option URL :=
  match Parse ref with
  | None => None
  | Some r =>
      if negb (String.eqb (scheme r) "") then Some r
      else if String.prefix "/" (path r) then
        Some (mkURL (scheme base) (host base) (path r))
      else Some (mkURL (scheme base) (host base) (dir (path base) ++ path r))
  end.

Definition URL_String (u : URL) : string :=
  if String.eqb (scheme u) "" then path u
  else scheme u ++ "://" ++ host u ++ path u.

Definition lib : url.Lib := url.mkLib URL Parse host URL_Parse URL_String.

End simpleurl.

(** The number of occurrences of the byte [c] in [s]. *)
Fixpoint count (c : ascii) (s : string) : nat :=
  match s with
  | EmptyString => O
  | String d s' => (if Ascii.eqb d c then 1 else 0) + count c s'
  end.

(* ================================================================= *)
(** ** Package [cache] *)

Module lru.

(** Modelled from the spec: the LRU store of package
    [github.com/hashicorp/golang-lru/v2] ([lru.New], [Get], [Add], [Remove]),
    which [cache.go] imports and which is not under src/.  The spec asks for
    a store bounded by its capacity in which an insertion at capacity
    "evicts the least-recently-used entry first".  The entries are kept in
    order of use, the most recently used one first: [Add] and a successful
    [Get] move the entry to the front, and [Add] of a new key drops the last
    entry when the size would exceed the capacity. *)
Record Cache (V : Type) := mkCache {
  size : nat;
  items : list (string * V)
}.
Arguments mkCache {V}.
Arguments size {V}.
Arguments items {V}.

Definition New {V : Type} (size : nat) : Cache V := mkCache size [].

Fixpoint lookup {V : Type} (key : string) (l : list (string * V)) : option V :=
  match l with
  | [] => None
  | (k, v) :: l' => if String.eqb k key then Some v else lookup key l'
  end.

Fixpoint remove {V : Type} (key : string) (l : list (string * V))
  : list (string * V) :=
  match l with
  | [] => []
  | (k, v) :: l' =>
      if String.eqb k key then remove key l' else (k, v) :: remove key l'
  end.

Definition Get {V : Type} (c : Cache V) (key : string) : option V * Cache V :=
  match lookup key (items c) with
  | Some v => (Some v, mkCache (size c) ((key, v) :: remove key (items c)))
  | None => (None, c)
  end.

Definition Add {V : Type} (c : Cache V) (key : string) (value : V) : Cache V :=
  match lookup key (items c) with
  | Some _ => mkCache (size c) ((key, value) :: remove key (items c))
  | None =>
      let l := (key, value) :: items c in
      if (size c <? List.length l)%nat then mkCache (size c) (removelast l)
      else mkCache (size c) l
  end.

Definition Remove {V : Type} (c : Cache V) (key : string) : Cache V :=
  mkCache (size c) (remove key (items c)).

Definition Len {V : Type} (c : Cache V) : nat := List.length (items c).

End lru.

Module cache.
Local Open Scope Z_scope.

(** [ExpiresAt] is an instant, counted in nanoseconds like [time.Duration]. *)
Record CacheEntry := mkCacheEntry {
  Data : list byte;
  ExpiresAt : Z
}.

(** [lru] is [None] for the nil pointer of a cache built disabled. *)
Record Cache := mkCache {
  lru : option (lru.Cache CacheEntry);
  ttl : Z;
  enabled : bool
}.

(** [time.Second] as a [time.Duration]. *)
Definition Second : Z := 1000000000.

(** [New]: the product [time.Duration(ttlSeconds) * time.Second] is an
    [int64]. *)
Definition New (maxEntries ttlSeconds : Z) (enabled : bool) : Cache :=
  if negb enabled || (maxEntries <=? 0) then mkCache None 0 false
  else
    mkCache (Some (lru.New (Z.to_nat maxEntries)))
            (int64_wrap (ttlSeconds * Second)) enabled.

(** [Get]: [now] is the instant [time.Now()]; the result [None] is
    [(nil, false)].  The second component is the cache after the call.  A
    cache with [enabled] set and no store is not built by [New]. *)
Definition Get (c : Cache) (now : Z) (key : string)
  : option (list byte) * Cache :=
  if negb (enabled c) then (None, c)
  else
    match lru c with
    | None => (None, c)
    | Some l =>
        match lru.Get l key with
        | (None, l') => (None, mkCache (Some l') (ttl c) (enabled c))
        | (Some entry, l') =>
            if now >? ExpiresAt entry then
              (None, mkCache (Some (lru.Remove l' key)) (ttl c) (enabled c))
            else (Some (Data entry), mkCache (Some l') (ttl c) (enabled c))
        end
    end.

(** [Set]: [now] is the instant [time.Now()]. *)
Definition Set_ (c : Cache) (now : Z) (key : string) (data : list byte)
  : Cache :=
  if negb (enabled c) then c
  else
    match lru c with
    | None => c
    | Some l =>
        let entry := mkCacheEntry data (now + ttl c) in
        mkCache (Some (lru.Add l key entry)) (ttl c) (enabled c)
    end.

Definition IsEnabled (c : Cache) : bool := enabled c.

(** The number of entries held. *)
Definition Len (c : Cache) : nat :=
  match lru c with
  | Some l => lru.Len l
  | None => O
  end.

(** A call of [Set] or of [Get], with the instant at which it runs. *)
Inductive op :=
| OpSet (now : Z) (key : string) (data : list byte)
| OpGet (now : Z) (key : string).

Definition step (c : Cache) (o : op) : Cache :=
  match o with
  | OpSet now key data => Set_ c now key data
  | OpGet now key => snd (Get c now key)
  end.

Definition run (ops : list op) (c : Cache) : Cache := fold_left step ops c.

End cache.

(** An insertion [(now, key, data)]: a call [Set(key, data)] at [now]. *)
Definition insertion : Type := Z * string * list byte.
Definition ins_now (e : insertion) : Z := fst (fst e).
Definition ins_key (e : insertion) : string := snd (fst e).
Definition ins_data (e : insertion) : list byte := snd e.
Definition ins_op (e : insertion) : cache.op :=
  cache.OpSet (ins_now e) (ins_key e) (ins_data e).

(** The entry that [Set] stores for an insertion, under its key. *)
Definition ins_entry (ttl : Z) (e : insertion) : string * cache.CacheEntry :=
  (ins_key e, cache.mkCacheEntry (ins_data e) (ins_now e + ttl)%Z).

(** An enabled cache of capacity [n]: the store is allocated, has that
    capacity and holds at most [n] entries. *)
Definition cache_inv (n : nat) (ttl : Z) (c : cache.Cache) : Prop :=
  exists l, cache.lru c = Some l /\ lru.size l = n
            /\ (List.length (lru.items l) <= n)%nat
            /\ cache.ttl c = ttl /\ cache.enabled c = true.

(** Notation for examples and statements: a playlist given by its lines,
    and a string between double quotes. *)
Definition lines (l : list string) : string :=
  strings.Join l (String newline "").

Definition q (s : string) : string := String dquote (s ++ String dquote "").

(* ================================================================= *)
(** ** Classes of bytes; the history of a cache *)

(** The bytes that [url.QueryEscape] leaves alone: letters, digits and
    [-_.~]. *)
Definition unreserved (c : ascii) : bool := negb (url.shouldEscape c).

(** The bytes that can occur in the output of [url.QueryEscape]. *)
Definition query_safe (c : ascii) : bool :=
  unreserved c || Ascii.eqb c "%" || Ascii.eqb c "+".

Definition lower_hex (c : ascii) : bool :=
  let n := nat_of_ascii c in
  (((48 <=? n) && (n <=? 57)) || ((97 <=? n) && (n <=? 102)))%nat.

(** What [url.QueryEscape] writes for one byte. *)
Definition escape_char (c : ascii) : string :=
  if Ascii.eqb c " " then "+"
  else if url.shouldEscape c then
    let n := nat_of_ascii c in
    String "%" (String (url.upperDigit (n / 16))
                  (String (url.upperDigit (n mod 16)) ""))
  else String c "".

(** Every entry of the store was put there by a [Set] of the history
    [ops], and expires [ttl] after that call. *)
Definition entries_from (ops : list cache.op) (ttl : Z) (c : cache.Cache)
  : Prop :=
  forall l key entry,
    cache.lru c = Some l -> In (key, entry) (lru.items l) ->
    exists t, In (cache.OpSet t key (cache.Data entry)) ops
              /\ cache.ExpiresAt entry = (t + ttl)%Z.

(* ================================================================= *)
(** ** The order of use of the keys of a cache *)






(* ================================================================= *)
(** ** Package [net/http]: headers, the response writer, requests *)

Module http.
Local Open Scope Z_scope.

(** A header map with one value per (canonical) key, as the code uses it:
    [h.Set(key, value)] and [h.Get(key)]. *)
Definition Header : Type := list (string * string).

Fixpoint Header_Set (h : Header) (key value : string) : Header :=
  match h with
  | [] => [(key, value)]
  | (k, v) :: h' =>
      if String.eqb k key then (key, value) :: h'
      else (k, v) :: Header_Set h' key value
  end.

Fixpoint Header_Get (h : Header) (key : string) : string :=
  match h with
  | [] => ""
  | (k, v) :: h' => if String.eqb k key then v else Header_Get h' key
  end.

(** The state of an [http.ResponseWriter]: the header map, the status code
    once it has been written, and the body written so far. *)
Record ResponseWriter := mkW {
  W_Header : Header;
  W_Status : option Z;
  W_Body : list byte
}.

Definition newW (h : Header) : ResponseWriter := mkW h None [].

(** [w.Header().Set(key, value)]; once the status line is out, the header
    that was sent no longer changes. *)
Definition SetHeader (w : ResponseWriter) (key value : string)
  : ResponseWriter :=
  match W_Status w with
  | None => mkW (Header_Set (W_Header w) key value) None (W_Body w)
  | Some _ => w
  end.

(** [w.WriteHeader(code)]; a second call is ignored. *)
Definition WriteHeader (w : ResponseWriter) (code : Z) : ResponseWriter :=
  match W_Status w with
  | None => mkW (W_Header w) (Some code) (W_Body w)
  | Some _ => w
  end.

(** [w.Write(b)]: the status is 200 when none was written before. *)
Definition Write (w : ResponseWriter) (b : list byte) : ResponseWriter :=
  let w' := WriteHeader w 200 in
  mkW (W_Header w') (W_Status w') (W_Body w' ++ b).

(** [http.Error(w, msg, code)]. *)
Definition Error (w : ResponseWriter) (msg : string) (code : Z)
  : ResponseWriter :=
  let w := SetHeader w "Content-Type" "text/plain; charset=utf-8" in
  let w := SetHeader w "X-Content-Type-Options" "nosniff" in
  let w := WriteHeader w code in
  Write w (list_byte_of_string (msg ++ String newline "")).

(** An incoming request: the method, the decoded query ([r.URL.Query()],
    of which [Get] returns the first value of a key) and the header. *)
Record Request := mkRequest {
  Method : string;
  Query : list (string * string);
  ReqHeader : Header
}.

(** What [httpClient.Do] returns on success: status, header and the body
    as [io.ReadAll] reads it ([None] for a read error). *)
Record Response := mkResponse {
  StatusCode : Z;
  RespHeader : Header;
  RespBody : option (list byte)
}.

End http.

(* ================================================================= *)
(** ** Packages [config] and [headers] *)

Module config.

Record CORSConfig := mkCORS { Origins : list string }.

Record SignConfig := mkSign {
  Sign_Enabled : bool;
  Sign_Secret : string;
  Sign_TTLSeconds : Z
}.

Record LimitsConfig := mkLimits {
  MaxPlaylistKB : Z;
  MaxURLLength : Z
}.

Record RewriteConfig := mkRewrite {
  EnableM3U8 : bool;
  KeepAllVariants : bool
}.

Record CacheEntry := mkCacheEntry {
  Cache_Enabled : bool;
  Cache_TTLSeconds : Z;
  Cache_MaxEntries : Z
}.

Record CacheConfig := mkCacheConfig {
  M3U8 : CacheEntry;
  Key : CacheEntry;
  TS : CacheEntry
}.

Record HeaderRule := mkHeaderRule {
  Match : string;
  UseRegex : bool;
  Set_ : list (string * string);
  HostRewrite : bool
}.

Record UpstreamConfig := mkUpstream {
  TimeoutMs : Z;
  FollowRedirects : bool;
  MaxRedirects : Z;
  HTTPProxy : string;
  Socks5 : string
}.

Record Config := mkConfig {
  Listen : string;
  AllowHosts : list string;
  CORS : CORSConfig;
  Sign : SignConfig;
  Limits : LimitsConfig;
  Rewrite : RewriteConfig;
  Cache : CacheConfig;
  Headers : list HeaderRule;
  Upstream : UpstreamConfig
}.

(** The defaults that [LoadConfig] sets after [json.Unmarshal]. *)
Definition setDefaults (cfg : Config) : Config :=
  let sign := Sign cfg in
  let limits := Limits cfg in
  let up := Upstream cfg in
  mkConfig (Listen cfg) (AllowHosts cfg) (CORS cfg)
    (mkSign (Sign_Enabled sign) (Sign_Secret sign)
       (if (Sign_TTLSeconds sign =? 0)%Z then 600%Z else Sign_TTLSeconds sign))
    (mkLimits
       (if (MaxPlaylistKB limits =? 0)%Z then 512%Z else MaxPlaylistKB limits)
       (if (MaxURLLength limits =? 0)%Z then 2048%Z else MaxURLLength limits))
    (Rewrite cfg) (Cache cfg) (Headers cfg)
    (mkUpstream
       (if (TimeoutMs up =? 0)%Z then 15000%Z else TimeoutMs up)
       (FollowRedirects up)
       (if (MaxRedirects up =? 0)%Z then 5%Z else MaxRedirects up)
       (HTTPProxy up) (Socks5 up)).

(** [LoadConfig(filename)]: [readFile] is [os.ReadFile] and [unmarshal] is
    [json.Unmarshal] into a zero [Config]; [None] is an error. *)
Definition LoadConfig (readFile : string -> option string)
    (unmarshal : string -> option Config) (filename : string)
  : option Config :=
  match readFile filename with
  | None => None
  | Some data =>
      match unmarshal data with
      | None => None
      | Some cfg => Some (setDefaults cfg)
      end
  end.

End config.

Module headers.

Record HeaderManager := mkHeaderManager { rules : list config.HeaderRule }.

Definition New (rules : list config.HeaderRule) : HeaderManager :=
  mkHeaderManager rules.

(** [matchesRule]: [regexpMatch pattern s] is [regexp.MatchString], [None]
    for a pattern that does not compile. *)
Definition matchesRule (regexpMatch : string -> string -> option bool)
    (hostname : string) (rule : config.HeaderRule) : bool :=
  if config.UseRegex rule then
    match regexpMatch (config.Match rule) hostname with
    | Some true => true
    | _ => false
    end
  else strings.Contains hostname (config.Match rule).

(** The body of the loop over the rules: [result] after one rule. *)
Definition applyRule (regexpMatch : string -> string -> option bool)
    (hostname : string) (result : http.Header) (rule : config.HeaderRule)
  : http.Header :=
  if matchesRule regexpMatch hostname rule then
    let result :=
      fold_left (fun res kv => http.Header_Set res (fst kv) (snd kv))
                (config.Set_ rule) result in
    if config.HostRewrite rule then http.Header_Set result "Host" hostname
    else result
  else result.

(** [ProcessHeaders]: maps of strings are header maps; the copy of
    [originalHeaders] is [originalHeaders]. *)
Definition ProcessHeaders (L : url.Lib)
    (regexpMatch : string -> string -> option bool) (hm : HeaderManager)
    (targetURL : string) (originalHeaders : http.Header) : http.Header :=
  match url.Parse L targetURL with
  | None => originalHeaders
  | Some parsed =>
      let hostname := url.Hostname L parsed in
      fold_left (applyRule regexpMatch hostname) (rules hm) originalHeaders
  end.

End headers.

(** The last value that a list of assignments gives to [key]. *)
Definition lastSet (l : list (string * string)) (key : string)
  : option string :=
  match find (fun kv => String.eqb (fst kv) key) (List.rev l) with
  | Some kv => Some (snd kv)
  | None => None
  end.

(** What a rule, when it applies, makes of the header [key]: the host name
    for [Host] under [hostRewrite], else the value in its [set] map. *)
Definition ruleValue (hostname : string) (rule : config.HeaderRule)
    (key : string) : option string :=
  if config.HostRewrite rule && String.eqb key "Host" then Some hostname
  else lastSet (config.Set_ rule) key.

(** The value for [key] that the last rule which matches the host and
    gives one produces, scanning the rules from the last to the first. *)
Fixpoint lastRuleValue (regexpMatch : string -> string -> option bool)
    (hostname : string) (rules_rev : list config.HeaderRule) (key : string)
  : option string :=
  match rules_rev with
  | [] => None
  | rule :: earlier =>
      if headers.matchesRule regexpMatch hostname rule then
        match ruleValue hostname rule key with
        | Some v => Some v
        | None => lastRuleValue regexpMatch hostname earlier key
        end
      else lastRuleValue regexpMatch hostname earlier key
  end.

(* ================================================================= *)
(** ** Package [main]: the server and its handlers *)

Module main.
Local Open Scope Z_scope.

(** A value handed to [json.Encoder.Encode]. *)
Inductive JSONValue :=
| JString (s : string)
| JInt (n : Z).

(** What the handlers take from their environment: [net/url], the Unicode
    lower-casing of [strings.ToLower], [regexp.MatchString], the upstream
    ([Do url headers] is [httpClient.Do] on the GET request for [url] that
    carries [headers]; [None] is an error) and the JSON encoder applied to
    a map from strings to values. *)
Record Env := mkEnv {
  L : url.Lib;
  mapLower : string -> string;
  regexpMatch : string -> string -> option bool;
  Do : string -> http.Header -> option http.Response;
  jsonEncode : list (string * JSONValue) -> list byte
}.

Record Server := mkServer {
  config : config.Config;
  signer : signer.Signer;
  headerManager : headers.HeaderManager;
  m3u8Cache : cache.Cache;
  keyCache : cache.Cache;
  tsCache : cache.Cache
}.

(** The server that [main] builds from the configuration. *)
Definition NewServer (cfg : config.Config) : Server :=
  let c := config.Cache cfg in
  mkServer cfg
    (signer.New (config.Sign_Secret (config.Sign cfg))
       (config.Sign_TTLSeconds (config.Sign cfg))
       (config.Sign_Enabled (config.Sign cfg)))
    (headers.New (config.Headers cfg))
    (cache.New (config.Cache_MaxEntries (config.M3U8 c))
       (config.Cache_TTLSeconds (config.M3U8 c)) (config.Cache_Enabled (config.M3U8 c)))
    (cache.New (config.Cache_MaxEntries (config.Key c))
       (config.Cache_TTLSeconds (config.Key c)) (config.Cache_Enabled (config.Key c)))
    (cache.New (config.Cache_MaxEntries (config.TS c))
       (config.Cache_TTLSeconds (config.TS c)) (config.Cache_Enabled (config.TS c))).

(** The readings of the clock during one request: [time.Now().Unix()] in
    the signer, [time.Now()] in [Cache.Get] and in [Cache.Set]. *)
Record Clock := mkClock {
  unix : Z;
  getAt : Z;
  setAt : Z
}.

(** The outcome of a handler: the response writer, the server with its
    caches, and the URLs for which [httpClient.Do] was called. *)
Record Result := mkResult {
  W : http.ResponseWriter;
  S : Server;
  Fetched : list string
}.

Definition Query_Get (q : list (string * string)) (key : string) : string :=
  http.Header_Get q key.

Definition userAgent : string :=
  "Mozilla/5.0 (compatible; UniversalVideoProxy/1.0)".

(** [fetchContent]: [None] is a non-nil error. *)
Definition fetchContent (E : Env) (s : Server) (targetURL : string)
  : option (list byte * string) * list string :=
  match url.Parse (L E) targetURL with
  | None => (None, [])
  | Some _ =>
      let originalHeaders := [("User-Agent", userAgent)] in
      let processedHeaders :=
        headers.ProcessHeaders (L E) (regexpMatch E) (headerManager s)
          targetURL originalHeaders in
      match Do E targetURL processedHeaders with
      | None => (None, [targetURL])
      | Some resp =>
          if negb (http.StatusCode resp =? 200) then (None, [targetURL])
          else
            let contentLength :=
              http.Header_Get (http.RespHeader resp) "Content-Length" in
            let tooLarge :=
              if negb (String.eqb contentLength "") then
                match strconv.ParseInt contentLength with
                | Some length =>
                    length >?
                    int64_wrap
                      (config.MaxPlaylistKB (config.Limits (config s)) * 1024)
                | None => false
                end
              else false in
            if tooLarge then (None, [targetURL])
            else
              match http.RespBody resp with
              | None => (None, [targetURL])
              | Some content =>
                  let contentType :=
                    http.Header_Get (http.RespHeader resp) "Content-Type" in
                  let contentType :=
                    if String.eqb contentType "" then
                      util.GetContentType (mapLower E) targetURL
                    else contentType in
                  (Some (content, contentType), [targetURL])
              end
      end
  end.

(** The calls that [handleRangeRequest] makes on the writer. *)
Definition writeRange (w : http.ResponseWriter) (content : list byte)
    (rangeHeader : string) : http.ResponseWriter :=
  let r := server.handleRangeRequest content rangeHeader in
  let w := fold_left (fun w kv => http.SetHeader w (fst kv) (snd kv))
             (server.Header r) w in
  let w := http.WriteHeader w (server.StatusCode r) in
  if (server.StatusCode r =? server.StatusPartialContent)
  then http.Write w (server.Body r) else w.

Definition streamContent (w : http.ResponseWriter) (r : http.Request)
    (content : list byte) (contentType : string) : http.ResponseWriter :=
  let w := http.SetHeader w "Content-Type" contentType in
  let w := http.SetHeader w "Accept-Ranges" "bytes" in
  let w := http.SetHeader w "Content-Length"
             (strconv.Itoa (Z.of_nat (List.length content))) in
  let rangeHeader := http.Header_Get (http.ReqHeader r) "Range" in
  if negb (String.eqb rangeHeader "") then writeRange w content rangeHeader
  else http.Write w content.

Definition StatusBadRequest : Z := 400.
Definition StatusUnauthorized : Z := 401.
Definition StatusForbidden : Z := 403.
Definition StatusInternalServerError : Z := 500.
Definition StatusBadGateway : Z := 502.
Definition StatusOK : Z := 200.

Definition handleHealth (E : Env) (s : Server) (clock : Clock)
    (r : http.Request) (w : http.ResponseWriter) : Result :=
  let w := http.SetHeader w "Content-Type" "application/json" in
  mkResult
    (http.Write w (jsonEncode E [("status", JString "ok");
                                 ("time", JInt (unix clock))]))
    s [].

Definition handleSign (E : Env) (s : Server) (clock : Clock)
    (r : http.Request) (w : http.ResponseWriter) : Result :=
  if negb (signer.IsEnabled (signer s)) then
    mkResult (http.Error w "Signing is disabled" StatusForbidden) s []
  else
    let rawURL := Query_Get (http.Query r) "raw" in
    if String.eqb rawURL "" then
      mkResult (http.Error w "Missing 'raw' parameter" StatusBadRequest) s []
    else
      let rawURL := util.SanitizeURL rawURL in
      if String.eqb rawURL "" then
        mkResult (http.Error w "Invalid URL" StatusBadRequest) s []
      else if negb (util.IsAllowedHost (L E) rawURL
                      (config.AllowHosts (config s))) then
        mkResult (http.Error w "Host not allowed" StatusForbidden) s []
      else
        match signer.Generate (signer s) (unix clock) rawURL with
        | inr _ =>
            mkResult (http.Error w "Failed to generate signature"
                        StatusInternalServerError) s []
        | inl (sign, ts) =>
            let proxyURL :=
              "/play?url=" ++ url.QueryEscape rawURL ++ "&sign=" ++ sign
                ++ "&ts=" ++ ts in
            let w := http.SetHeader w "Content-Type" "application/json" in
            mkResult
              (http.Write w (jsonEncode E [("proxy", JString proxyURL);
                                           ("sign", JString sign);
                                           ("ts", JString ts)]))
              s []
        end.

Definition withM3U8Cache (s : Server) (c : cache.Cache) : Server :=
  mkServer (config s) (signer s) (headerManager s) c (keyCache s) (tsCache s).
Definition withKeyCache (s : Server) (c : cache.Cache) : Server :=
  mkServer (config s) (signer s) (headerManager s) (m3u8Cache s) c (tsCache s).
Definition withTsCache (s : Server) (c : cache.Cache) : Server :=
  mkServer (config s) (signer s) (headerManager s) (m3u8Cache s) (keyCache s) c.

Definition mpegurl : string := "application/vnd.apple.mpegurl".

Definition handlePlay (E : Env) (s : Server) (clock : Clock)
    (r : http.Request) (w : http.ResponseWriter) : Result :=
  let targetURL := Query_Get (http.Query r) "url" in
  if String.eqb targetURL "" then
    mkResult (http.Error w "Missing 'url' parameter" StatusBadRequest) s []
  else
    let targetURL := util.SanitizeURL targetURL in
    if String.eqb targetURL "" then
      mkResult (http.Error w "Invalid URL" StatusBadRequest) s []
    else if Z.of_nat (String.length targetURL)
            >? config.MaxURLLength (config.Limits (config s)) then
      mkResult (http.Error w "URL too long" StatusBadRequest) s []
    else if negb (util.IsAllowedHost (L E) targetURL
                    (config.AllowHosts (config s))) then
      mkResult (http.Error w "Host not allowed" StatusForbidden) s []
    else
      let sign := Query_Get (http.Query r) "sign" in
      let ts := Query_Get (http.Query r) "ts" in
      match signer.Verify (signer s) (unix clock) targetURL sign ts with
      | Some err =>
          mkResult (http.Error w ("Signature verification failed: " ++ err)
                      StatusUnauthorized) s []
      | None =>
          let cacheKey := targetURL in
          match cache.Get (m3u8Cache s) (getAt clock) cacheKey with
          | (Some cached, c') =>
              let w := http.SetHeader w "Content-Type" mpegurl in
              let w := http.SetHeader w "Cache-Control" "no-cache" in
              mkResult (http.Write w cached) (withM3U8Cache s c') []
          | (None, c') =>
              let s := withM3U8Cache s c' in
              match fetchContent E s targetURL with
              | (None, fetched) =>
                  mkResult (http.Error w "Failed to fetch content"
                              StatusBadGateway) s fetched
              | (Some (content, contentType), fetched) =>
                  if config.EnableM3U8 (config.Rewrite (config s))
                     && rewrite.IsM3U8Content (string_of_list_byte content)
                  then
                    let signParams := util.BuildSignParams sign ts in
                    let rewriter :=
                      rewrite.NewM3U8Rewriter "" "/seg" "/key" signParams in
                    let rewritten :=
                      list_byte_of_string
                        (rewrite.Rewrite (L E) rewriter
                           (string_of_list_byte content) targetURL) in
                    let s := withM3U8Cache s
                               (cache.Set_ (m3u8Cache s) (setAt clock)
                                  cacheKey rewritten) in
                    let w := http.SetHeader w "Content-Type" mpegurl in
                    let w := http.SetHeader w "Cache-Control" "no-cache" in
                    mkResult (http.Write w rewritten) s fetched
                  else
                    mkResult (streamContent w r content contentType) s fetched
              end
          end
      end.

Definition handleSegment (E : Env) (s : Server) (clock : Clock)
    (r : http.Request) (w : http.ResponseWriter) : Result :=
  let targetURL := Query_Get (http.Query r) "u" in
  if String.eqb targetURL "" then
    mkResult (http.Error w "Missing 'u' parameter" StatusBadRequest) s []
  else
    let targetURL := util.SanitizeURL targetURL in
    if String.eqb targetURL "" then
      mkResult (http.Error w "Invalid URL" StatusBadRequest) s []
    else if negb (util.IsAllowedHost (L E) targetURL
                    (config.AllowHosts (config s))) then
      mkResult (http.Error w "Host not allowed" StatusForbidden) s []
    else
      let sign := Query_Get (http.Query r) "sign" in
      let ts := Query_Get (http.Query r) "ts" in
      match signer.Verify (signer s) (unix clock) targetURL sign ts with
      | Some err =>
          mkResult (http.Error w ("Signature verification failed: " ++ err)
                      StatusUnauthorized) s []
      | None =>
          let cacheKey := targetURL in
          match cache.Get (tsCache s) (getAt clock) cacheKey with
          | (Some cached, c') =>
              let w := http.SetHeader w "Content-Type"
                         (util.GetContentType (mapLower E) targetURL) in
              let w := http.SetHeader w "Accept-Ranges" "bytes" in
              mkResult (http.Write w cached) (withTsCache s c') []
          | (None, c') =>
              let s := withTsCache s c' in
              match fetchContent E s targetURL with
              | (None, fetched) =>
                  mkResult (http.Error w "Failed to fetch segment"
                              StatusBadGateway) s fetched
              | (Some (content, contentType), fetched) =>
                  let s :=
                    if cache.IsEnabled (tsCache s)
                       && (Z.of_nat (List.length content) <? 1024 * 1024)
                    then withTsCache s
                           (cache.Set_ (tsCache s) (setAt clock) cacheKey content)
                    else s in
                  mkResult (streamContent w r content contentType) s fetched
              end
          end
      end.

Definition handleKey (E : Env) (s : Server) (clock : Clock)
    (r : http.Request) (w : http.ResponseWriter) : Result :=
  let targetURL := Query_Get (http.Query r) "u" in
  if String.eqb targetURL "" then
    mkResult (http.Error w "Missing 'u' parameter" StatusBadRequest) s []
  else
    let targetURL := util.SanitizeURL targetURL in
    if String.eqb targetURL "" then
      mkResult (http.Error w "Invalid URL" StatusBadRequest) s []
    else if negb (util.IsAllowedHost (L E) targetURL
                    (config.AllowHosts (config s))) then
      mkResult (http.Error w "Host not allowed" StatusForbidden) s []
    else
      let sign := Query_Get (http.Query r) "sign" in
      let ts := Query_Get (http.Query r) "ts" in
      match signer.Verify (signer s) (unix clock) targetURL sign ts with
      | Some err =>
          mkResult (http.Error w ("Signature verification failed: " ++ err)
                      StatusUnauthorized) s []
      | None =>
          let cacheKey := targetURL in
          match cache.Get (keyCache s) (getAt clock) cacheKey with
          | (Some cached, c') =>
              let w := http.SetHeader w "Content-Type"
                         "application/octet-stream" in
              mkResult (http.Write w cached) (withKeyCache s c') []
          | (None, c') =>
              let s := withKeyCache s c' in
              match fetchContent E s targetURL with
              | (None, fetched) =>
                  mkResult (http.Error w "Failed to fetch key"
                              StatusBadGateway) s fetched
              | (Some (content, _), fetched) =>
                  let s := withKeyCache s
                             (cache.Set_ (keyCache s) (setAt clock)
                                cacheKey content) in
                  let w := http.SetHeader w "Content-Type"
                             "application/octet-stream" in
                  mkResult (http.Write w content) s fetched
              end
          end
      end.

Definition handleRaw (E : Env) (s : Server) (clock : Clock)
    (r : http.Request) (w : http.ResponseWriter) : Result :=
  let targetURL := Query_Get (http.Query r) "url" in
  if String.eqb targetURL "" then
    mkResult (http.Error w "Missing 'url' parameter" StatusBadRequest) s []
  else
    let targetURL := util.SanitizeURL targetURL in
    if String.eqb targetURL "" then
      mkResult (http.Error w "Invalid URL" StatusBadRequest) s []
    else if negb (util.IsAllowedHost (L E) targetURL
                    (config.AllowHosts (config s))) then
      mkResult (http.Error w "Host not allowed" StatusForbidden) s []
    else
      match fetchContent E s targetURL with
      | (None, fetched) =>
          mkResult (http.Error w "Failed to fetch content" StatusBadGateway)
            s fetched
      | (Some (content, contentType), fetched) =>
          mkResult (streamContent w r content contentType) s fetched
      end.

(** The first entry of the configured origins that is [*] or equals the
    request's origin. *)
Definition allowedOrigin (origins : list string) (origin : string)
  : option string :=
  find (fun allowed => String.eqb allowed "*" || String.eqb allowed origin)
       origins.

(** [corsMiddleware(next)] applied to a request. *)
Definition corsMiddleware
    (next : Env -> Server -> Clock -> http.Request -> http.ResponseWriter
            -> Result)
    (E : Env) (s : Server) (clock : Clock)
    (r : http.Request) (w : http.ResponseWriter) : Result :=
  let w :=
    if (0 <? List.length (config.Origins (config.CORS (config s))))%nat then
      let origin := http.Header_Get (http.ReqHeader r) "Origin" in
      match allowedOrigin (config.Origins (config.CORS (config s))) origin with
      | Some allowed => http.SetHeader w "Access-Control-Allow-Origin" allowed
      | None => w
      end
    else w in
  let w := http.SetHeader w "Access-Control-Allow-Methods"
             "GET, POST, OPTIONS" in
  let w := http.SetHeader w "Access-Control-Allow-Headers"
             "Content-Type, Range" in
  let w := http.SetHeader w "Access-Control-Expose-Headers"
             "Content-Range, Accept-Ranges" in
  if String.eqb (http.Method r) "OPTIONS" then
    mkResult (http.WriteHeader w StatusOK) s []
  else next E s clock r w.

(** The routes that [main] registers on the mux; [Other] is a request for
    which the mux calls none of the handlers and answers itself. *)
Inductive Endpoint := Health | Play | Seg | Key | Raw | Sign | Other.

(** [http.NotFound], the answer of the mux for a path without handler (a
    redirect to the cleaned path, which the mux can answer instead, is
    left out: it does not touch the server either). *)
Definition notFound (E : Env) (s : Server) (clock : Clock)
    (r : http.Request) (w : http.ResponseWriter) : Result :=
  mkResult (http.Error w "404 page not found" 404) s [].

Definition route (e : Endpoint)
  : Env -> Server -> Clock -> http.Request
    -> http.ResponseWriter -> Result :=
  match e with
  | Health => handleHealth
  | Play => handlePlay
  | Seg => handleSegment
  | Key => handleKey
  | Raw => handleRaw
  | Sign => handleSign
  | Other => notFound
  end.

(** A request as the server receives it: the route its path selects, the
    readings of the clock while it is handled, and the request. *)
Record Call := mkCall {
  endpoint : Endpoint;
  clock : Clock;
  request : http.Request
}.

(** [handler.ServeHTTP(w, r)] for [handler := server.corsMiddleware(mux)],
    on a new response writer. *)
Definition serve (E : Env) (s : Server) (q : Call) : Result :=
  corsMiddleware (route (endpoint q)) E s (clock q) (request q)
    (http.newW []).

(** The server after a sequence of requests, handled one after the
    other. *)
Fixpoint serveAll (E : Env) (s : Server) (qs : list Call)
  : Server :=
  match qs with
  | [] => s
  | q :: qs' => serveAll E (S (serve E s q)) qs'
  end.

End main.

(* ================================================================= *)
(** ** A small environment and server, used in examples *)

Module demo.
Local Open Scope Z_scope.

(** An upstream that answers every request with status 200, no header and
    the body [body]. *)
Definition env (body : string) : main.Env :=
  main.mkEnv simpleurl.lib (fun s => s) (fun _ _ => None)
    (fun _ _ => Some (http.mkResponse 200 [] (Some (list_byte_of_string body))))
    (fun _ => []).

Definition cfg (signing : bool) (origins : list string) : config.Config :=
  config.mkConfig ":18200" ["example.com"] (config.mkCORS origins)
    (config.mkSign signing "k" 600)
    (config.mkLimits 512 2048)
    (config.mkRewrite true true)
    (config.mkCacheConfig (config.mkCacheEntry true 60 8)
       (config.mkCacheEntry true 60 8) (config.mkCacheEntry true 60 8))
    []
    (config.mkUpstream 15000 true 5 "" "").

Definition server (signing : bool) : main.Server :=
  main.NewServer (cfg signing []).

Definition get (query : list (string * string)) (header : http.Header)
  : http.Request :=
  http.mkRequest "GET" query header.

Definition clock (unix : Z) : main.Clock :=
  main.mkClock unix (unix * 1000000000) (unix * 1000000000).

End demo.

(* ================================================================= *)
(** ** Generic facts about [string] *)

Lemma append_nil_r (s : string) : s ++ "" = s.
Proof. induction s; simpl; congruence. Qed.

Lemma append_assoc (a b c : string) : (a ++ b) ++ c = a ++ (b ++ c).
Proof. induction a; simpl; congruence. Qed.

Lemma append_length (a b : string) :
  String.length (a ++ b) = (String.length a + String.length b)%nat.
Proof. induction a; simpl; auto. Qed.

Lemma In_str_app (c : ascii) (a b : string) :
  In_str c (a ++ b) <-> In_str c a \/ In_str c b.
Proof. induction a; simpl; tauto. Qed.

Lemma rev_append_spec (s acc : string) : rev_append s acc = rev s ++ acc.
Proof.
  unfold rev. revert acc.
  induction s as [|c s IH]; intro acc; simpl; [reflexivity|].
  rewrite (IH (String c acc)), (IH (String c "")), append_assoc.
  reflexivity.
Qed.

Lemma rev_cons (c : ascii) (s : string) : rev (String c s) = rev s ++ String c "".
Proof. unfold rev at 1. simpl. apply rev_append_spec. Qed.

Lemma rev_app (a b : string) : rev (a ++ b) = rev b ++ rev a.
Proof.
  induction a as [|c a IH]; simpl.
  - now rewrite append_nil_r.
  - now rewrite !rev_cons, IH, append_assoc.
Qed.

Lemma rev_involutive (s : string) : rev (rev s) = s.
Proof.
  induction s as [|c s IH]; [reflexivity|].
  now rewrite rev_cons, rev_app, IH.
Qed.

Lemma drop_is_suffix (n : nat) (s : string) : exists a, s = a ++ drop n s.
Proof.
  revert s; induction n as [|n IH]; intro s.
  - now exists "".
  - destruct s as [|c s]; [now exists ""|].
    destruct (IH s) as [a Ha]. exists (String c a). simpl. now f_equal.
Qed.

Lemma prefix_app (p s : string) : String.prefix p s = true <-> exists r, s = p ++ r.
Proof.
  revert s; induction p as [|c p IH]; intro s.
  - destruct s; simpl; split; eauto.
  - destruct s as [|d s]; simpl;
      [split; [discriminate|intros [r Hr]; discriminate]|].
    destruct (ascii_dec c d) as [->|Hn].
    + rewrite IH. split; intros [r Hr]; exists r; [now f_equal|now inversion Hr].
    + split; [discriminate|]. intros [r Hr]. inversion Hr. congruence.
Qed.

Lemma prefix_drop (p s : string) :
  String.prefix p s = true -> s = p ++ drop (String.length p) s.
Proof.
  revert s; induction p as [|c p IH]; intros s H.
  - reflexivity.
  - destruct s as [|d s]; simpl in H; [discriminate|].
    destruct (ascii_dec c d) as [->|Hn]; [|discriminate].
    simpl. f_equal. now apply IH.
Qed.

(** *** Facts about [Split], [Join], [HasSuffix] and [TrimSpace] *)

Lemma Split_not_nil (s : string) (sep : ascii) : strings.Split s sep <> [].
Proof.
  destruct s as [|c s]; simpl; [discriminate|].
  destruct (Ascii.eqb c sep); [discriminate|].
  destruct (strings.Split s sep); discriminate.
Qed.

Lemma Join_cons (p q : string) (ps : list string) (sep : string) :
  strings.Join (p :: q :: ps) sep = p ++ sep ++ strings.Join (q :: ps) sep.
Proof. reflexivity. Qed.

Lemma Join_Split (s : string) (sep : ascii) :
  strings.Join (strings.Split s sep) (String sep "") = s.
Proof.
  induction s as [|c s IH]; [reflexivity|]. simpl.
  destruct (Ascii.eqb_spec c sep) as [->|Hne].
  - destruct (strings.Split s sep) as [|p ps] eqn:E;
      [now apply Split_not_nil in E|].
    rewrite Join_cons, IH. reflexivity.
  - destruct (strings.Split s sep) as [|p ps] eqn:E;
      [now apply Split_not_nil in E|].
    destruct ps as [|q ps]; simpl in *; [congruence|].
    rewrite <- IH. reflexivity.
Qed.

Lemma Split_app_sep (a b : string) (sep : ascii) :
  strings.Split (a ++ String sep b) sep
  = (strings.Split a sep ++ strings.Split b sep)%list.
Proof.
  induction a as [|c a IH]; simpl.
  - now rewrite Ascii.eqb_refl.
  - destruct (Ascii.eqb c sep); rewrite IH; [reflexivity|].
    destruct (strings.Split a sep) as [|p ps] eqn:E;
      [now apply Split_not_nil in E|reflexivity].
Qed.

Lemma Split_no_sep (s : string) (sep : ascii) :
  ~ In_str sep s -> strings.Split s sep = [s].
Proof.
  induction s as [|c s IH]; simpl; intro H; [reflexivity|].
  destruct (Ascii.eqb_spec c sep) as [->|Hne]; [tauto|].
  rewrite IH by tauto. reflexivity.
Qed.

Lemma Split_parts_no_sep (s : string) (sep : ascii) (p : string) :
  In p (strings.Split s sep) -> ~ In_str sep p.
Proof.
  revert p; induction s as [|c s IH]; simpl; intros p Hp.
  - destruct Hp as [<-|[]]. simpl. tauto.
  - destruct (Ascii.eqb_spec c sep) as [->|Hne].
    + destruct Hp as [<-|Hp]; [simpl; tauto|now apply IH].
    + destruct (strings.Split s sep) as [|q qs] eqn:E;
        [now apply Split_not_nil in E|].
      destruct Hp as [<-|Hp].
      * simpl. intros [H|H]; [congruence|]. apply (IH q); simpl; auto.
      * apply IH. simpl. auto.
Qed.

Lemma HasPrefix_spec (s p : string) :
  strings.HasPrefix s p = true <-> exists r, s = p ++ r.
Proof. apply prefix_app. Qed.

Lemma HasSuffix_spec (s suf : string) :
  strings.HasSuffix s suf = true <-> exists pre, s = pre ++ suf.
Proof.
  unfold strings.HasSuffix. rewrite prefix_app. split.
  - intros [r Hr]. exists (rev r).
    rewrite <- (rev_involutive s), Hr, rev_app, rev_involutive. reflexivity.
  - intros [pre ->]. exists (rev pre). apply rev_app.
Qed.

Lemma strip_one_suffix (encs : list string) (s s' : string) :
  strings.strip_one encs s = Some s' -> exists a, s = a ++ s'.
Proof.
  induction encs as [|e encs IH]; simpl; [discriminate|].
  destruct (String.prefix e s); [|exact IH].
  intros [= <-]. apply drop_is_suffix.
Qed.

Lemma strip_all_suffix (fuel : nat) (encs : list string) (s : string) :
  exists a, s = a ++ strings.strip_all fuel encs s.
Proof.
  revert s; induction fuel as [|fuel IH]; intro s; simpl.
  - now exists "".
  - destruct (strings.strip_one encs s) as [s'|] eqn:E; [|now exists ""].
    apply strip_one_suffix in E. destruct E as [a ->].
    destruct (IH s') as [b Hb]. exists (a ++ b).
    rewrite append_assoc. now f_equal.
Qed.

(** [TrimSpace] only removes bytes at both ends. *)
Lemma TrimSpace_substring (s : string) :
  exists a b, s = a ++ strings.TrimSpace s ++ b.
Proof.
  unfold strings.TrimSpace, strings.TrimLeftSpace.
  destruct (strip_all_suffix (String.length s) strings.space_encodings s)
    as [a Ha].
  set (l := strings.strip_all _ _ s) in *.
  unfold strings.TrimRightSpace.
  destruct (strip_all_suffix (String.length l)
              (map rev strings.space_encodings) (rev l)) as [b Hb].
  set (r := strings.strip_all _ _ (rev l)) in *.
  exists a, (rev b).
  rewrite <- rev_app, <- Hb, rev_involutive. exact Ha.
Qed.

Lemma TrimSpace_In_str (c : ascii) (s : string) :
  In_str c (strings.TrimSpace s) -> In_str c s.
Proof.
  intro H. destruct (TrimSpace_substring s) as (a & b & E).
  rewrite E, !In_str_app. tauto.
Qed.

Example TrimSpace_ex :
  strings.TrimSpace (String "009" "  seg1.ts " ++ String "013" "") = "seg1.ts".
Proof. reflexivity. Qed.

Example Split_ex :
  strings.Split "a,,b," ","%char = ["a"; ""; "b"; ""].
Proof. reflexivity. Qed.

Example FormatInt_ex :
  strconv.FormatInt 1700000000 = "1700000000"
  /\ strconv.FormatInt (-42) = "-42" /\ strconv.FormatInt 0 = "0".
Proof. repeat split; reflexivity. Qed.

Example ParseInt_ex :
  strconv.ParseInt "+007" = Some 7%Z
  /\ strconv.ParseInt "-9223372036854775808" = Some (- 2 ^ 63)%Z
  /\ strconv.ParseInt "9223372036854775808" = None
  /\ strconv.ParseInt "" = None /\ strconv.ParseInt "-" = None
  /\ strconv.ParseInt "1,3" = None /\ strconv.ParseInt " 1" = None.
Proof. repeat split; reflexivity. Qed.

Section StrconvFacts.
Local Open Scope Z_scope.

Lemma digitChar_ok (d : Z) :
  0 <= d < 10 ->
  strconv.isDigit (strconv.digitChar d) = true
  /\ strconv.digitVal (strconv.digitChar d) = d.
Proof.
  intro H.
  assert (d = 0 \/ d = 1 \/ d = 2 \/ d = 3 \/ d = 4 \/ d = 5 \/ d = 6
          \/ d = 7 \/ d = 8 \/ d = 9) as E by lia.
  repeat (destruct E as [-> | E]; [split; reflexivity|]).
  subst; split; reflexivity.
Qed.

Lemma parseDigits_digits (fuel : nat) (n : Z) (acc : string) :
  0 <= n < 2 ^ (Z.of_nat fuel + 1) ->
  strconv.parseDigits 0 (strconv.digits fuel n acc) = strconv.parseDigits n acc.
Proof.
  revert n acc; induction fuel as [|fuel IH]; intros n acc Hn.
  - change (2 ^ (Z.of_nat 0 + 1)) with 2 in Hn.
    cbn [strconv.digits strconv.parseDigits].
    rewrite Z.mod_small by lia.
    destruct (digitChar_ok n ltac:(lia)) as [-> ->]. f_equal; lia.
  - cbn [strconv.digits]. destruct (Z.ltb_spec n 10) as [Hlt|Hge].
    + cbn [strconv.parseDigits]. rewrite Z.mod_small by lia.
      destruct (digitChar_ok n ltac:(lia)) as [-> ->]. f_equal; lia.
    + rewrite IH.
      * cbn [strconv.parseDigits].
        destruct (digitChar_ok (n mod 10)
                    ltac:(apply Z.mod_pos_bound; lia)) as [-> ->].
        f_equal. pose proof (Z.div_mod n 10 ltac:(lia)). lia.
      * replace (Z.of_nat (S fuel) + 1) with (Z.succ (Z.of_nat fuel + 1)) in Hn
          by lia.
        rewrite Z.pow_succ_r in Hn by lia.
        split; [apply Z.div_pos; lia|].
        apply Z.div_lt_upper_bound; lia.
Qed.

Lemma formatBits_parse (n : Z) :
  0 <= n -> strconv.parseDigits 0 (strconv.formatBits n) = Some n.
Proof.
  intro Hn. unfold strconv.formatBits. rewrite parseDigits_digits; [reflexivity|].
  rewrite Z2Nat.id by apply Z.log2_nonneg.
  destruct (Z.eq_dec n 0) as [->|Hz]; [simpl; lia|].
  pose proof (Z.log2_spec n ltac:(lia)). split; [lia|].
  replace (Z.log2 n + 1) with (Z.succ (Z.log2 n)) by lia. lia.
Qed.

Lemma digits_head (fuel : nat) (n : Z) (acc : string) :
  0 <= n ->
  exists c s, strconv.digits fuel n acc = String c s /\ strconv.isDigit c = true.
Proof.
  revert n acc; induction fuel as [|fuel IH]; intros n acc Hn.
  - simpl. eexists _, _. split; [reflexivity|].
    apply digitChar_ok, Z.mod_pos_bound; lia.
  - cbn [strconv.digits]. destruct (n <? 10).
    + eexists _, _. split; [reflexivity|].
      apply digitChar_ok, Z.mod_pos_bound; lia.
    + apply IH, Z.div_pos; lia.
Qed.

Lemma digits_chars (fuel : nat) (n : Z) (acc : string) (c : ascii) :
  0 <= n -> In_str c (strconv.digits fuel n acc) ->
  strconv.isDigit c = true \/ In_str c acc.
Proof.
  revert n acc; induction fuel as [|fuel IH]; intros n acc Hn.
  - simpl. intros [<-|H]; [left|now right].
    apply digitChar_ok, Z.mod_pos_bound; lia.
  - cbn [strconv.digits]. destruct (n <? 10).
    + simpl. intros [<-|H]; [left|now right].
      apply digitChar_ok, Z.mod_pos_bound; lia.
    + intro H. apply IH in H; [|apply Z.div_pos; lia].
      destruct H as [H|[<-|H]]; auto.
      left. apply digitChar_ok, Z.mod_pos_bound; lia.
Qed.

Lemma isDigit_not_sign (c : ascii) :
  strconv.isDigit c = true ->
  Ascii.eqb c "+" = false /\ Ascii.eqb c "-" = false /\ c <> ","%char.
Proof.
  intro H. repeat split.
  - destruct (Ascii.eqb_spec c "+"); [subst; discriminate|reflexivity].
  - destruct (Ascii.eqb_spec c "-"); [subst; discriminate|reflexivity].
  - intros ->. discriminate.
Qed.

Lemma ParseInt_minus (ds : string) :
  ds <> "" ->
  strconv.ParseInt (String "-" ds)
  = match strconv.parseDigits 0 ds with
    | None => None
    | Some un => if un <=? 2 ^ 63 then Some (- un) else None
    end.
Proof. destruct ds; [congruence|reflexivity]. Qed.

Lemma ParseInt_unsigned (c : ascii) (s : string) :
  strconv.isDigit c = true ->
  strconv.ParseInt (String c s)
  = match strconv.parseDigits 0 (String c s) with
    | None => None
    | Some un => if un <? 2 ^ 63 then Some un else None
    end.
Proof.
  intro Hc. destruct (isDigit_not_sign c Hc) as (Hp & Hm & _).
  cbv beta iota zeta delta [strconv.ParseInt]. rewrite Hp, Hm. reflexivity.
Qed.

(** Parsing what [FormatInt] printed gives the number back, on the whole
    [int64] range. *)
Lemma ParseInt_FormatInt (n : Z) :
  - 2 ^ 63 <= n < 2 ^ 63 -> strconv.ParseInt (strconv.FormatInt n) = Some n.
Proof.
  intro Hn. unfold strconv.FormatInt.
  destruct (Z.ltb_spec n 0) as [Hneg|Hpos].
  - rewrite ParseInt_minus.
    + rewrite formatBits_parse by lia.
      destruct (Z.leb_spec (- n) (2 ^ 63)); [f_equal; lia|lia].
    + destruct (digits_head (Z.to_nat (Z.log2 (- n))) (- n) "" ltac:(lia))
        as (c & s & E & _).
      unfold strconv.formatBits. rewrite E. discriminate.
  - destruct (digits_head (Z.to_nat (Z.log2 n)) n "" Hpos) as (c & s & E & Hc).
    fold (strconv.formatBits n) in E. rewrite E, ParseInt_unsigned by exact Hc.
    rewrite <- E, formatBits_parse by lia.
    destruct (Z.ltb_spec n (2 ^ 63)); [reflexivity|lia].
Qed.

Lemma FormatInt_nonempty (n : Z) : strconv.FormatInt n <> "".
Proof.
  unfold strconv.FormatInt. destruct (Z.ltb_spec n 0); [discriminate|].
  destruct (digits_head (Z.to_nat (Z.log2 n)) n "" ltac:(lia)) as (c & s & E & _).
  unfold strconv.formatBits. rewrite E. discriminate.
Qed.

(** The printed form of a non-negative number consists of digits. *)
Lemma FormatInt_digits (n : Z) (c : ascii) :
  0 <= n -> In_str c (strconv.FormatInt n) -> strconv.isDigit c = true.
Proof.
  intros Hn H. unfold strconv.FormatInt in H.
  destruct (Z.ltb_spec n 0); [lia|].
  apply digits_chars in H; [|lia]. destruct H as [H|[]]. exact H.
Qed.

Lemma parseDigits_chars (acc v : Z) (s : string) (c : ascii) :
  strconv.parseDigits acc s = Some v -> In_str c s -> strconv.isDigit c = true.
Proof.
  revert acc; induction s as [|d s IH]; intros acc H Hc; [destruct Hc|].
  simpl in H. destruct (strconv.isDigit d) eqn:Hd; [|discriminate].
  destruct Hc as [<-|Hc]; [exact Hd|]. eapply IH; eauto.
Qed.

(** A string accepted by [ParseInt] holds digits and signs only. *)
Lemma ParseInt_chars (s : string) (v : Z) (c : ascii) :
  strconv.ParseInt s = Some v -> In_str c s ->
  strconv.isDigit c = true \/ c = "+"%char \/ c = "-"%char.
Proof.
  destruct s as [|d s]; [discriminate|]. unfold strconv.ParseInt.
  destruct (Ascii.eqb_spec d "+") as [->|Hp]; cbn [orb].
  - destruct s as [|e s]; [discriminate|].
    destruct (strconv.parseDigits 0 (String e s)) as [un|] eqn:E; [|discriminate].
    intros _ [<-|Hc]; [auto|]. left. eapply parseDigits_chars; eauto.
  - destruct (Ascii.eqb_spec d "-") as [->|Hm].
    + destruct s as [|e s]; [discriminate|].
      destruct (strconv.parseDigits 0 (String e s)) as [un|] eqn:E; [|discriminate].
      intros _ [<-|Hc]; [auto|]. left. eapply parseDigits_chars; eauto.
    + destruct (strconv.parseDigits 0 (String d s)) as [un|] eqn:E; [|discriminate].
      intros _ Hc. left. eapply parseDigits_chars; eauto.
Qed.

End StrconvFacts.

Example range_0_4 :
  server.handleRangeRequest (bytes_of "0123456789") "bytes=0-4"
  = server.mkResponse 206
      [("Content-Range", "bytes 0-4/10"); ("Content-Length", "5")]
      (bytes_of "01234").
Proof. reflexivity. Qed.

Example range_8_20 :
  server.handleRangeRequest (bytes_of "0123456789") "bytes=8-20"
  = server.notSatisfiable.
Proof. reflexivity. Qed.

Example range_5_open :
  server.handleRangeRequest (bytes_of "0123456789") "bytes=5-"
  = server.mkResponse 206
      [("Content-Range", "bytes 5-9/10"); ("Content-Length", "5")]
      (bytes_of "56789").
Proof. reflexivity. Qed.

Example range_multi :
  server.handleRangeRequest (bytes_of "0123456789") "bytes=0-1,3-4"
  = server.notSatisfiable
  /\ server.handleRangeRequest (bytes_of "0123456789") "bytes=0-1,3"
     = server.notSatisfiable.
Proof. split; reflexivity. Qed.

Example range_suffix_form :
  server.handleRangeRequest (bytes_of "0123456789") "bytes=-3"
  = server.mkResponse 206
      [("Content-Range", "bytes 0-3/10"); ("Content-Length", "4")]
      (bytes_of "0123").
Proof. reflexivity. Qed.


(* ================================================================= *)
(** ** Range serving *)

Section RangeFacts.
Local Open Scope Z_scope.

Lemma FormatInt_no_dash (n : Z) : 0 <= n -> ~ In_str "-" (strconv.FormatInt n).
Proof. intros Hn H. apply FormatInt_digits in H; [discriminate|exact Hn]. Qed.

Lemma FormatInt_neg_shape (n : Z) :
  n < 0 ->
  strconv.FormatInt n = String "-" (strconv.FormatInt (- n)).
Proof.
  intro Hn. unfold strconv.FormatInt.
  destruct (Z.ltb_spec n 0); [|lia]. destruct (Z.ltb_spec (- n) 0); [lia|].
  reflexivity.
Qed.

Lemma eqb_FormatInt_empty (n : Z) : String.eqb (strconv.FormatInt n) "" = false.
Proof. apply String.eqb_neq, FormatInt_nonempty. Qed.

Lemma handleRangeRequest_bytes (content : list byte) (spec : string) :
  server.handleRangeRequest content ("bytes=" ++ spec)
  = match strings.Split spec "-" with
    | [part0; part1] =>
        match (if String.eqb part0 "" then Some 0
               else match strconv.Atoi part0 with
                    | Some v => if v <? 0 then None else Some v
                    | None => None
                    end) with
        | None => server.notSatisfiable
        | Some start =>
            match (if String.eqb part1 ""
                   then Some (Z.of_nat (List.length content) - 1)
                   else match strconv.Atoi part1 with
                        | Some v =>
                            if v >=? Z.of_nat (List.length content) then None
                            else Some v
                        | None => None
                        end) with
            | None => server.notSatisfiable
            | Some end_ =>
                if start >? end_ then server.notSatisfiable
                else server.partialContent content start end_
            end
        end
    | _ => server.notSatisfiable
    end.
Proof.
  cbv beta iota zeta delta [server.handleRangeRequest].
  replace (strings.HasPrefix ("bytes=" ++ spec) "bytes=") with true
    by (symmetry; apply HasPrefix_spec; now exists spec).
  change (drop 6 ("bytes=" ++ spec)) with spec.
  reflexivity.
Qed.

(** A successful response determines the shape of the header. *)
Lemma handleRangeRequest_inv (content : list byte) (hdr : string) :
  server.handleRangeRequest content hdr = server.notSatisfiable
  \/ exists part0 part1 start end_,
       hdr = "bytes=" ++ part0 ++ "-" ++ part1
       /\ (part0 = "" /\ start = 0 \/ strconv.Atoi part0 = Some start)
       /\ (part1 = "" /\ end_ = Z.of_nat (List.length content) - 1
           \/ strconv.Atoi part1 = Some end_)
       /\ 0 <= start <= end_ /\ end_ < Z.of_nat (List.length content)
       /\ server.handleRangeRequest content hdr
          = server.partialContent content start end_.
Proof.
  destruct (strings.HasPrefix hdr "bytes=") eqn:Hp.
  2:{ left. unfold server.handleRangeRequest. now rewrite Hp. }
  apply HasPrefix_spec in Hp. destruct Hp as [spec ->].
  rewrite handleRangeRequest_bytes.
  pose proof (Join_Split spec "-") as HJ.
  destruct (strings.Split spec "-") as [|p0 [|p1 [|p2 ps]]]; auto.
  cbn in HJ.
  set (L := Z.of_nat (List.length content)).
  assert ((exists start,
            (if String.eqb p0 "" then Some 0
             else match strconv.Atoi p0 with
                  | Some v => if v <? 0 then None else Some v
                  | None => None
                  end) = Some start
            /\ (p0 = "" /\ start = 0 \/ strconv.Atoi p0 = Some start)
            /\ 0 <= start)
          \/ (if String.eqb p0 "" then Some 0
              else match strconv.Atoi p0 with
                   | Some v => if v <? 0 then None else Some v
                   | None => None
                   end) = None) as [(start & -> & Hs & Hs0)| ->]; auto.
  { destruct (String.eqb_spec p0 "") as [->|_].
    - left. exists 0. repeat split; auto; lia.
    - destruct (strconv.Atoi p0) as [v|]; auto.
      destruct (Z.ltb_spec v 0); auto. left. exists v. auto. }
  assert ((exists end_,
            (if String.eqb p1 "" then Some (L - 1)
             else match strconv.Atoi p1 with
                  | Some v => if v >=? L then None else Some v
                  | None => None
                  end) = Some end_
            /\ (p1 = "" /\ end_ = L - 1 \/ strconv.Atoi p1 = Some end_)
            /\ end_ < L)
          \/ (if String.eqb p1 "" then Some (L - 1)
              else match strconv.Atoi p1 with
                   | Some v => if v >=? L then None else Some v
                   | None => None
                   end) = None) as [(end_ & -> & He & HeL)| ->]; auto.
  { destruct (String.eqb_spec p1 "") as [->|_].
    - left. exists (L - 1). repeat split; auto; lia.
    - destruct (strconv.Atoi p1) as [v|]; auto.
      destruct (Z.geb_spec v L); auto. left. exists v. auto. }
  destruct (Z.gtb_spec start end_); auto.
  right. exists p0, p1, start, end_. rewrite <- HJ.
  repeat split; auto; lia.
Qed.

Lemma Atoi_no_comma (s : string) (v : Z) :
  strconv.Atoi s = Some v -> ~ In_str "," s.
Proof.
  intros H Hc. destruct (ParseInt_chars s v "," H Hc) as [D|[D|D]]; discriminate.
Qed.

Lemma Split_two (a b : string) (sep : ascii) :
  ~ In_str sep a -> ~ In_str sep b ->
  strings.Split (a ++ String sep b) sep = [a; b].
Proof.
  intros Ha Hb. now rewrite Split_app_sep, !Split_no_sep by assumption.
Qed.

Lemma Split_three_plus (a b c : string) (sep : ascii) :
  exists p q r rs,
    strings.Split (a ++ String sep (b ++ String sep c)) sep = p :: q :: r :: rs.
Proof.
  rewrite !Split_app_sep.
  destruct (strings.Split a sep) as [|p ps] eqn:Ea;
    [now apply Split_not_nil in Ea|].
  destruct (strings.Split b sep) as [|q qs] eqn:Eb;
    [now apply Split_not_nil in Eb|].
  destruct (strings.Split c sep) as [|r rs] eqn:Ec;
    [now apply Split_not_nil in Ec|].
  destruct ps as [|p' ps]; [destruct qs as [|q' qs]|destruct ps as [|p'' ps]];
    cbn; eauto.
Qed.

Lemma handleRangeRequest_three_parts (content : list byte) (a b c : string) :
  server.handleRangeRequest content ("bytes=" ++ a ++ "-" ++ b ++ "-" ++ c)
  = server.notSatisfiable.
Proof.
  rewrite handleRangeRequest_bytes.
  destruct (Split_three_plus a b c "-") as (p & q & r & rs & E).
  cbn [append] in *. now rewrite E.
Qed.

Lemma slice_length {A : Type} (l : list A) (lo hi : Z) :
  0 <= lo <= hi -> hi <= Z.of_nat (List.length l) ->
  Z.of_nat (List.length (server.slice l lo hi)) = hi - lo.
Proof.
  intros H1 H2. unfold server.slice.
  rewrite length_firstn, length_skipn. lia.
Qed.

Lemma slice_nth_error {A : Type} (l : list A) (lo hi : Z) (i : nat) :
  0 <= lo -> Z.of_nat i < hi - lo ->
  nth_error (server.slice l lo hi) i = nth_error l (Z.to_nat lo + i).
Proof.
  intros H1 H2. unfold server.slice.
  rewrite nth_error_firstn.
  destruct (Nat.ltb_spec i (Z.to_nat (hi - lo))); [|lia].
  apply nth_error_skipn.
Qed.

End RangeFacts.

Section RangeClaims.
Local Open Scope Z_scope.

Lemma handleRangeRequest_closed (content : list byte) (start end_ : Z) :
  - 2 ^ 63 <= start < 2 ^ 63 -> - 2 ^ 63 <= end_ < 2 ^ 63 ->
  server.handleRangeRequest content
    ("bytes=" ++ strconv.Itoa start ++ "-" ++ strconv.Itoa end_)
  = if (0 <=? start) && (end_ <? Z.of_nat (List.length content))
       && (start <=? end_)
    then server.partialContent content start end_
    else server.notSatisfiable.
Proof.
  intros Hs He. unfold strconv.Itoa.
  destruct (Z.leb_spec 0 start) as [Hs0|Hs0]; cbn [andb].
  2:{ rewrite (FormatInt_neg_shape start Hs0).
      apply (handleRangeRequest_three_parts content ""). }
  destruct (Z.leb_spec 0 end_) as [He0|He0].
  2:{ rewrite (FormatInt_neg_shape end_ He0).
      destruct (Z.leb_spec start end_); [lia|]. rewrite andb_false_r.
      apply (handleRangeRequest_three_parts content
               (strconv.FormatInt start) "" (strconv.FormatInt (- end_))). }
  rewrite handleRangeRequest_bytes. cbn [append].
  rewrite Split_two by (apply FormatInt_no_dash; assumption).
  rewrite !eqb_FormatInt_empty. unfold strconv.Atoi.
  rewrite !ParseInt_FormatInt by assumption.
  destruct (Z.ltb_spec start 0); [lia|].
  destruct (Z.geb_spec end_ (Z.of_nat (List.length content)));
    destruct (Z.ltb_spec end_ (Z.of_nat (List.length content))); try lia;
    cbn [andb]; [reflexivity|].
  destruct (Z.gtb_spec start end_); destruct (Z.leb_spec start end_);
    try lia; reflexivity.
Qed.

Lemma handleRangeRequest_open_end (content : list byte) (start : Z) :
  - 2 ^ 63 <= start < 2 ^ 63 ->
  server.handleRangeRequest content ("bytes=" ++ strconv.Itoa start ++ "-")
  = if (0 <=? start) && (start <=? Z.of_nat (List.length content) - 1)
    then server.partialContent content start
           (Z.of_nat (List.length content) - 1)
    else server.notSatisfiable.
Proof.
  intros Hs. unfold strconv.Itoa.
  destruct (Z.leb_spec 0 start) as [Hs0|Hs0]; cbn [andb].
  2:{ rewrite (FormatInt_neg_shape start Hs0).
      apply (handleRangeRequest_three_parts content "" _ ""). }
  rewrite handleRangeRequest_bytes. cbn [append].
  rewrite Split_two by (try apply FormatInt_no_dash; simpl; tauto).
  rewrite eqb_FormatInt_empty. unfold strconv.Atoi.
  rewrite ParseInt_FormatInt by assumption.
  destruct (Z.ltb_spec start 0); [lia|]. cbn [String.eqb].
  destruct (Z.gtb_spec start (Z.of_nat (List.length content) - 1));
    destruct (Z.leb_spec start (Z.of_nat (List.length content) - 1));
    try lia; reflexivity.
Qed.

Lemma handleRangeRequest_comma (content : list byte) (a b : string) :
  server.handleRangeRequest content (a ++ "," ++ b) = server.notSatisfiable.
Proof.
  destruct (handleRangeRequest_inv content (a ++ "," ++ b))
    as [H|(p0 & p1 & s & e & Hh & H0 & H1 & _)]; [exact H|].
  exfalso.
  assert (In_str "," ("bytes=" ++ p0 ++ "-" ++ p1)) as Hc.
  { rewrite <- Hh, In_str_app. right. simpl. auto. }
  rewrite !In_str_app in Hc.
  destruct Hc as [Hc|[Hc|Hc]].
  - simpl in Hc. repeat (destruct Hc as [Hc|Hc]; [discriminate|]). exact Hc.
  - destruct H0 as [[-> _]|H0]; [exact Hc|]. eapply Atoi_no_comma; eauto.
  - destruct Hc as [[Hc|[]]|Hc]; [discriminate|].
    destruct H1 as [[-> _]|H1]; [exact Hc|]. eapply Atoi_no_comma; eauto.
Qed.

(** C2: a single-range header [bytes=start-end] over a payload of length
    [L] is answered with 206, [Content-Range: bytes start-end/L] and
    exactly the bytes [start..end] of the payload if and only if
    [0 <= start], [end < L] and [start <= end], where an omitted end
    stands for [L-1]; every other outcome, and every header that holds a
    comma (several ranges), is 416 with no header set and no body. *)
Theorem handleRangeRequest_single_range
  (content : list byte) (start end_ : Z) (hdr a b : string) :
  Z.of_nat (List.length content) < 2 ^ 63 ->
  - 2 ^ 63 <= start < 2 ^ 63 ->
  - 2 ^ 63 <= end_ < 2 ^ 63 ->
  let L := Z.of_nat (List.length content) in
  let ok s e :=
    server.mkResponse 206
      [ ("Content-Range",
         "bytes " ++ strconv.Itoa s ++ "-" ++ strconv.Itoa e ++ "/"
           ++ strconv.Itoa L);
        ("Content-Length", strconv.Itoa (e - s + 1)) ]
      (firstn (Z.to_nat (e + 1 - s)) (skipn (Z.to_nat s) content)) in
  let bad := server.mkResponse 416 [] [] in
  server.handleRangeRequest content
    ("bytes=" ++ strconv.Itoa start ++ "-" ++ strconv.Itoa end_)
  = (if (0 <=? start) && (end_ <? L) && (start <=? end_)
     then ok start end_ else bad)
  /\ server.handleRangeRequest content ("bytes=" ++ strconv.Itoa start ++ "-")
     = (if (0 <=? start) && (start <=? L - 1) then ok start (L - 1) else bad)
  /\ (server.handleRangeRequest content hdr = bad
      \/ exists s e, 0 <= s <= e /\ e < L
                     /\ server.handleRangeRequest content hdr = ok s e)
  /\ server.handleRangeRequest content (a ++ "," ++ b) = bad.
Proof.
  intros HL Hs He L ok bad. repeat split.
  - apply handleRangeRequest_closed; assumption.
  - apply handleRangeRequest_open_end; assumption.
  - destruct (handleRangeRequest_inv content hdr)
      as [H|(p0 & p1 & s & e & _ & _ & _ & H1 & H2 & H3)]; [now left|].
    right. exists s, e. repeat split; try lia. exact H3.
  - apply handleRangeRequest_comma.
Qed.

Lemma handleRangeRequest_single_range_witness :
  server.handleRangeRequest (bytes_of "0123456789") "bytes=2-5"
  = server.mkResponse 206
      [("Content-Range", "bytes 2-5/10"); ("Content-Length", "4")]
      (bytes_of "2345")
  /\ server.handleRangeRequest (bytes_of "0123456789") "bytes=2-"
     = server.mkResponse 206
         [("Content-Range", "bytes 2-9/10"); ("Content-Length", "8")]
         (bytes_of "23456789")
  /\ server.handleRangeRequest (bytes_of "0123456789") "bytes=0-1,3-4"
     = server.mkResponse 416 [] [].
Proof.
  assert (Z.of_nat (List.length (bytes_of "0123456789")) < 2 ^ 63) as HL
    by (vm_compute; reflexivity).
  assert (- 2 ^ 63 <= 2 < 2 ^ 63) as H2 by lia.
  assert (- 2 ^ 63 <= 5 < 2 ^ 63) as H5 by lia.
  destruct (handleRangeRequest_single_range (bytes_of "0123456789") 2 5
              "bytes=2-5" "bytes=0-1" "3-4" HL H2 H5) as (E1 & E2 & _ & E4).
  split; [exact E1 | split; [exact E2 | exact E4]].
Defined.

(** C9: a header [bytes=-N] (start omitted) with [0 <= N < L] is served as
    the range [0..N]: status 206, [Content-Range: bytes 0-N/L] and the
    first [N+1] bytes of the payload, not its last [N] bytes. *)
Theorem handleRangeRequest_omitted_start (content : list byte) (N : Z) :
  Z.of_nat (List.length content) < 2 ^ 63 ->
  0 <= N < Z.of_nat (List.length content) ->
  server.handleRangeRequest content ("bytes=-" ++ strconv.Itoa N)
  = server.mkResponse 206
      [ ("Content-Range",
         "bytes 0-" ++ strconv.Itoa N ++ "/"
           ++ strconv.Itoa (Z.of_nat (List.length content)));
        ("Content-Length", strconv.Itoa (N + 1)) ]
      (firstn (Z.to_nat (N + 1)) content).
Proof.
  intros HL HN.
  change ("bytes=-" ++ strconv.Itoa N)
    with ("bytes=" ++ "" ++ "-" ++ strconv.Itoa N).
  rewrite handleRangeRequest_bytes. unfold strconv.Itoa.
  change (strings.Split _ "-")
    with (strings.Split ("" ++ String "-" (strconv.FormatInt N)) "-").
  rewrite (Split_two "" (strconv.FormatInt N) "-")
    by (try apply FormatInt_no_dash; simpl; tauto || lia).
  cbn [String.eqb]. rewrite eqb_FormatInt_empty. unfold strconv.Atoi.
  rewrite ParseInt_FormatInt by lia.
  destruct (Z.geb_spec N (Z.of_nat (List.length content))); [lia|].
  destruct (Z.gtb_spec 0 N); [lia|].
  unfold server.partialContent, server.slice, server.StatusPartialContent.
  rewrite Z.sub_0_r, Z.sub_0_r. reflexivity.
Qed.

Lemma handleRangeRequest_omitted_start_witness :
  server.handleRangeRequest (bytes_of "0123456789") "bytes=-3"
  = server.mkResponse 206
      [("Content-Range", "bytes 0-3/10"); ("Content-Length", "4")]
      (bytes_of "0123").
Proof.
  apply (handleRangeRequest_omitted_start (bytes_of "0123456789") 3);
    vm_compute; intuition discriminate.
Defined.

End RangeClaims.

(* ================================================================= *)
(** ** SHA-256 and HMAC: published test vectors *)

Example sha256_constants :
  List.length sha256.K = 64%nat /\ nth 0 sha256.K 0%Z = 0x428a2f98%Z
  /\ nth 63 sha256.K 0%Z = 0xc67178f2%Z
  /\ List.length sha256.init = 8%nat /\ nth 0 sha256.init 0%Z = 0x6a09e667%Z
  /\ nth 7 sha256.init 0%Z = 0x5be0cd19%Z.
Proof. repeat split; reflexivity. Qed.

Example Sum256_empty :
  hex.EncodeToString (sha256.Sum256 "")
  = "e3b0c44298fc1c149afbf4c8996fb92427ae41e4649b934ca495991b7852b855".
Proof. vm_compute. reflexivity. Qed.

Example Sum256_abc :
  hex.EncodeToString (sha256.Sum256 "abc")
  = "ba7816bf8f01cfea414140de5dae2223b00361a396177a9cb410ff61f20015ad".
Proof. vm_compute. reflexivity. Qed.

Example Sum256_two_blocks :
  hex.EncodeToString
    (sha256.Sum256 "abcdbcdecdefdefgefghfghighijhijkijkljklmklmnlmnomnopnopq")
  = "248d6a61d20638b8e5c026930c3e6039a33ce45964ff2167f6ecedd419db06c1".
Proof. vm_compute. reflexivity. Qed.

Example hmac_rfc4231_case2 :
  hex.EncodeToString (hmac.Sum "Jefe" "what do ya want for nothing?")
  = "5bdcc146bf60754e6a042426089575c75a003f089d2739839dec58b964ec3843".
Proof. vm_compute. reflexivity. Qed.

Example hmac_rfc4231_case6 :
  hex.EncodeToString
    (hmac.Sum (string_of_bytes (repeat 170%Z 131))
       "Test Using Larger Than Block-Size Key - Hash Key First")
  = "60e431591ee0b67f0d8a26aacbf5b77f8e0bc6213728c5140546040f0ee37f54".
Proof. vm_compute. reflexivity. Qed.

(* ================================================================= *)
(** ** The signer *)

Section DigestLength.

Lemma round_length (st : list Z) (kw : Z * Z) :
  List.length st = 8%nat -> List.length (sha256.round st kw) = 8%nat.
Proof.
  intro H. do 9 (destruct st as [|? st]; try discriminate H). reflexivity.
Qed.

Lemma fold_round_length (kws : list (Z * Z)) (st : list Z) :
  List.length st = 8%nat ->
  List.length (fold_left sha256.round kws st) = 8%nat.
Proof.
  revert st; induction kws as [|kw kws IH]; intros st H; simpl; [exact H|].
  apply IH, round_length, H.
Qed.

Lemma block_length (st w16 : list Z) :
  List.length st = 8%nat -> List.length (sha256.block st w16) = 8%nat.
Proof.
  intro H. unfold sha256.block.
  rewrite length_map, length_combine, fold_round_length, H by exact H.
  reflexivity.
Qed.

Lemma blocks_length (fuel : nat) (st ws : list Z) :
  List.length st = 8%nat -> List.length (sha256.blocks fuel st ws) = 8%nat.
Proof.
  revert st ws; induction fuel as [|fuel IH]; intros st ws H; simpl; [exact H|].
  destruct ws; [exact H|]. apply IH, block_length, H.
Qed.

Lemma string_of_bytes_length (l : list Z) :
  String.length (string_of_bytes l) = List.length l.
Proof. induction l; simpl; congruence. Qed.

(** A SHA-256 digest has 32 bytes. *)
Lemma Sum256_length (data : string) : String.length (sha256.Sum256 data) = 32%nat.
Proof.
  unfold sha256.Sum256. rewrite string_of_bytes_length.
  set (st := sha256.blocks _ _ _).
  assert (List.length st = 8%nat) as H by (apply blocks_length; reflexivity).
  do 9 (destruct st as [|? st]; try discriminate H). reflexivity.
Qed.

Lemma hmac_Sum_length (key msg : string) :
  String.length (hmac.Sum key msg) = 32%nat.
Proof. apply Sum256_length. Qed.

Lemma EncodeToString_length (src : string) :
  String.length (hex.EncodeToString src) = (2 * String.length src)%nat.
Proof. induction src; simpl in *; lia. Qed.

(** A signature is 64 characters long, hence never the empty string. *)
Lemma signature_length (key msg : string) :
  String.length (hex.EncodeToString (hmac.Sum key msg)) = 64%nat.
Proof. now rewrite EncodeToString_length, hmac_Sum_length. Qed.

Lemma signature_nonempty (key msg : string) :
  String.eqb (hex.EncodeToString (hmac.Sum key msg)) "" = false.
Proof.
  apply String.eqb_neq. intro E.
  pose proof (signature_length key msg) as H. rewrite E in H. discriminate.
Qed.

End DigestLength.

Section SignerFacts.
Local Open Scope Z_scope.

Lemma int64_wrap_small (x : Z) : - 2 ^ 63 <= x < 2 ^ 63 -> int64_wrap x = x.
Proof. intro H. unfold int64_wrap. rewrite Z.mod_small; lia. Qed.

Lemma parseDigits_nonneg (acc v : Z) (s : string) :
  0 <= acc -> strconv.parseDigits acc s = Some v -> 0 <= v.
Proof.
  revert acc; induction s as [|c s IH]; intros acc Ha;
    cbn [strconv.parseDigits].
  - intros [= <-]. exact Ha.
  - destruct (strconv.isDigit c) eqn:Hc; [|discriminate].
    apply IH. unfold strconv.isDigit in Hc.
    apply andb_true_iff in Hc. destruct Hc as [Hc _].
    apply Z.leb_le in Hc. unfold strconv.digitVal. lia.
Qed.

(** [ParseInt] only returns values of type [int64]. *)
Lemma ParseInt_range (s : string) (v : Z) :
  strconv.ParseInt s = Some v -> - 2 ^ 63 <= v < 2 ^ 63.
Proof.
  destruct s as [|c s]; [discriminate|].
  cbv beta iota zeta delta [strconv.ParseInt].
  destruct (if (c =? "+")%char || (c =? "-")%char then s else String c s)
    as [|d ds]; [discriminate|].
  destruct (strconv.parseDigits 0 (String d ds)) as [un|] eqn:E; [|discriminate].
  apply parseDigits_nonneg in E; [|lia].
  destruct (c =? "-")%char.
  - destruct (Z.leb_spec un (2 ^ 63)); [|discriminate]. intros [= <-]. lia.
  - destruct (Z.ltb_spec un (2 ^ 63)); [|discriminate]. intros [= <-]. lia.
Qed.

Lemma ParseInt_nonempty (s : string) (v : Z) :
  strconv.ParseInt s = Some v -> String.eqb s "" = false.
Proof. destruct s; [discriminate|reflexivity]. Qed.

End SignerFacts.

Section SignerClaims.
Local Open Scope Z_scope.

(** C4: with signing enabled, the pair [(sign, ts)] that [Generate] issues
    for a URL at time [t0] is accepted by [Verify] under the same secret at
    any later time [now] with [now - t0 <= ttlSeconds]; it is rejected under
    another secret whenever that secret gives a different HMAC signature of
    [url|ts], with another timestamp string whenever the signature of
    [url|ts'] differs from the issued one, and with any other signature
    string. *)
Theorem Verify_Generate (secret : string) (ttl t0 now : Z) (url : string) :
  - 2 ^ 63 <= t0 < 2 ^ 63 -> t0 <= now -> now - t0 <= ttl -> ttl < 2 ^ 63 ->
  let s := signer.New secret ttl true in
  let ts := strconv.FormatInt t0 in
  let sign := hex.EncodeToString (hmac.Sum secret (url ++ "|" ++ ts)) in
  signer.Generate s t0 url = inl (sign, ts)
  /\ signer.Verify s now url sign ts = None
  /\ (forall secret',
        hex.EncodeToString (hmac.Sum secret' (url ++ "|" ++ ts)) <> sign ->
        signer.Verify (signer.New secret' ttl true) now url sign ts
        = Some "signature mismatch")
  /\ (forall ts',
        hex.EncodeToString (hmac.Sum secret (url ++ "|" ++ ts')) <> sign ->
        signer.Verify s now url sign ts' <> None)
  /\ (forall sign', sign' <> sign -> signer.Verify s now url sign' ts <> None).
Proof.
  intros Ht0 Hle Httl Hmax s ts sign. subst s.
  assert (forall sec sg,
            signer.Verify (signer.New sec ttl true) now url sg ts
            = if String.eqb sg ""
              then Some "missing signature parameters"
              else if negb (String.eqb sg
                              (hex.EncodeToString
                                 (hmac.Sum sec (url ++ "|" ++ ts))))
                   then Some "signature mismatch" else None) as HV.
  { intros sec sg. unfold signer.Verify. cbn [signer.enabled signer.New negb
      signer.ttlSeconds signer.secret].
    destruct (String.eqb sg ""); [reflexivity|]. cbn [orb].
    unfold ts at 1 2. rewrite eqb_FormatInt_empty, ParseInt_FormatInt by lia.
    rewrite int64_wrap_small by lia.
    destruct (Z.gtb_spec (now - t0) ttl); [lia|reflexivity]. }
  split; [reflexivity|]. split; [|split; [|split]].
  - rewrite HV. unfold sign at 1. rewrite signature_nonempty.
    now rewrite String.eqb_refl.
  - intros secret' Hd. rewrite HV. unfold sign at 1.
    rewrite signature_nonempty.
    destruct (String.eqb_spec sign
                (hex.EncodeToString (hmac.Sum secret' (url ++ "|" ++ ts))));
      [congruence|reflexivity].
  - intros ts' Hd. unfold signer.Verify.
    cbn [signer.enabled signer.New negb signer.ttlSeconds signer.secret].
    destruct (String.eqb sign "" || String.eqb ts' ""); [discriminate|].
    destruct (strconv.ParseInt ts') as [t|]; [|discriminate].
    destruct (int64_wrap (now - t) >? ttl); [discriminate|].
    destruct (String.eqb_spec sign
                (hex.EncodeToString (hmac.Sum secret (url ++ "|" ++ ts'))));
      [congruence|discriminate].
  - intros sign' Hd. rewrite HV. destruct (String.eqb sign' ""); [discriminate|].
    destruct (String.eqb_spec sign'
                (hex.EncodeToString (hmac.Sum secret (url ++ "|" ++ ts))));
      [contradiction|discriminate].
Qed.

Lemma Verify_Generate_witness :
  let url := "https://cdn.example.com/a.m3u8" in
  let sign :=
    "f3b50f18a76612ac8b7e0735de975f9b7b74dae4bffb0333f9a45988725e9eaa" in
  let s := signer.New "k" 600 true in
  signer.Generate s 1700000000 url = inl (sign, "1700000000")
  /\ signer.Verify s 1700000100 url sign "1700000000" = None
  /\ signer.Verify (signer.New "other" 600 true) 1700000100 url sign
       "1700000000" = Some "signature mismatch"
  /\ signer.Verify s 1700000100 url sign "1700000001" <> None
  /\ signer.Verify s 1700000100 url
       "e3b50f18a76612ac8b7e0735de975f9b7b74dae4bffb0333f9a45988725e9eaa"
       "1700000000" <> None.
Proof.
  intros url sign s.
  assert (- 2 ^ 63 <= 1700000000 < 2 ^ 63) as H0 by lia.
  assert (1700000000 <= 1700000100) as H1 by lia.
  assert (1700000100 - 1700000000 <= 600) as H2 by lia.
  assert (600 < 2 ^ 63) as H3 by lia.
  destruct (Verify_Generate "k" 600 1700000000 1700000100 url H0 H1 H2 H3)
    as (G & V & Vsec & Vts & Vsig).
  assert (hex.EncodeToString
            (hmac.Sum "k" (url ++ "|" ++ strconv.FormatInt 1700000000)) = sign)
    as E by (vm_compute; reflexivity).
  rewrite E in G, V, Vsec, Vts, Vsig.
  change (strconv.FormatInt 1700000000) with "1700000000" in G, V, Vsec, Vts, Vsig.
  split; [exact G|]. split; [exact V|]. split; [|split].
  - apply Vsec. apply String.eqb_neq. vm_compute. reflexivity.
  - apply Vts. apply String.eqb_neq. vm_compute. reflexivity.
  - apply Vsig. apply String.eqb_neq. vm_compute. reflexivity.
Defined.

(** A secret followed by a zero byte is a different secret with the same
    HMAC key block: it verifies what the shorter secret signed. *)
Lemma Verify_accepts_other_secret :
  let url := "https://cdn.example.com/a.m3u8" in
  let k := "k" in
  let k' := String "k" (String Ascii.zero "") in
  k <> k'
  /\ exists sign ts,
       signer.Generate (signer.New k 600 true) 1700000000 url = inl (sign, ts)
       /\ signer.Verify (signer.New k' 600 true) 1700000100 url sign ts = None.
Proof.
  intros url k k'. split; [discriminate|].
  exists "f3b50f18a76612ac8b7e0735de975f9b7b74dae4bffb0333f9a45988725e9eaa",
         "1700000000".
  split; vm_compute; reflexivity.
Qed.

(** With signing enabled, [Verify] returns an error exactly in these
    cases; the elapsed time is the [int64] difference. *)
Lemma Verify_fails_iff (s : signer.Signer) (now : Z) (url sign ts : string) :
  signer.enabled s = true ->
  (signer.Verify s now url sign ts <> None <->
     sign = "" \/ ts = "" \/ strconv.ParseInt ts = None
     \/ (exists t, strconv.ParseInt ts = Some t
                   /\ int64_wrap (now - t) > signer.ttlSeconds s)
     \/ sign <> hex.EncodeToString
                  (hmac.Sum (signer.secret s) (url ++ "|" ++ ts))).
Proof.
  intro He. unfold signer.Verify. rewrite He. cbn [negb].
  set (expectedSign := hex.EncodeToString _).
  destruct (String.eqb_spec sign "") as [->|Hs]; cbn [orb].
  { split; [auto|discriminate]. }
  destruct (String.eqb_spec ts "") as [->|Hts].
  { split; [auto|discriminate]. }
  destruct (strconv.ParseInt ts) as [t|].
  2:{ split; [auto 6|discriminate]. }
  destruct (Z.gtb_spec (int64_wrap (now - t)) (signer.ttlSeconds s)) as [Hx|Hx].
  { split; [|discriminate]. intros _. right. right. right. left.
    exists t. split; [reflexivity|lia]. }
  destruct (String.eqb_spec sign expectedSign) as [E|E]; cbn [negb].
  - split; [congruence|].
    intros [H|[H|[H|[(t' & [= <-] & H)|H]]]];
      try contradiction; try discriminate; lia.
  - split; [auto 6|discriminate].
Qed.

(** C5: [Verify] returns [nil] whenever signing is disabled.  With signing
    enabled, and a timestamp whose distance from [now] fits in 64 bits, it
    returns an error exactly when [sign] or [ts] is empty, or [ts] is not a
    base-10 [int64], or [now - ts > ttlSeconds], or [sign] is not the
    recomputed signature.  For [ttlSeconds >= 0] and a clock [now >= 0],
    every timestamp strictly in the future passes the elapsed-time check,
    whatever its distance from [now]. *)
Theorem Verify_outcomes (s : signer.Signer) (now : Z) (url sign ts : string) :
  let expectedSign :=
    hex.EncodeToString (hmac.Sum (signer.secret s) (url ++ "|" ++ ts)) in
  (signer.enabled s = false -> signer.Verify s now url sign ts = None)
  /\ (signer.enabled s = true ->
      (forall t, strconv.ParseInt ts = Some t ->
                 - 2 ^ 63 <= now - t < 2 ^ 63) ->
      (signer.Verify s now url sign ts <> None <->
         sign = "" \/ ts = "" \/ strconv.ParseInt ts = None
         \/ (exists t, strconv.ParseInt ts = Some t
                       /\ now - t > signer.ttlSeconds s)
         \/ sign <> expectedSign))
  /\ (signer.enabled s = true -> 0 <= signer.ttlSeconds s -> 0 <= now ->
      forall t, strconv.ParseInt ts = Some t -> now < t ->
        signer.Verify s now url sign ts <> Some "signature expired"
        /\ (sign = expectedSign -> signer.Verify s now url sign ts = None)).
Proof.
  intro expectedSign. split; [|split].
  - intro He. unfold signer.Verify. now rewrite He.
  - intros He Hfit. rewrite (Verify_fails_iff s now url sign ts He).
    fold expectedSign.
    split; (intros [H|[H|[H|[(t & Ht & H)|H]]]]; auto 6);
      right; right; right; left; exists t; (split; [exact Ht|]);
      rewrite int64_wrap_small in * by (now apply Hfit); exact H.
  - intros He Httl Hnow t Ht Hfut. unfold signer.Verify.
    rewrite He, Ht. cbn [negb].
    pose proof (ParseInt_range ts t Ht) as Hr.
    rewrite (ParseInt_nonempty ts t Ht), orb_false_r.
    rewrite int64_wrap_small by lia.
    destruct (Z.gtb_spec (now - t) (signer.ttlSeconds s)); [lia|].
    fold expectedSign. split.
    + destruct (String.eqb sign ""); [discriminate|].
      destruct (negb (String.eqb sign expectedSign)); discriminate.
    + intros ->. unfold expectedSign at 1. rewrite signature_nonempty.
      now rewrite String.eqb_refl.
Qed.

Lemma Verify_outcomes_witness :
  let url := "https://cdn.example.com/a.m3u8" in
  let s := signer.New "k" 600 true in
  signer.Verify (signer.New "k" 600 false) 1700000000 url "" "" = None
  /\ signer.Verify s 1700000601 url
       "f3b50f18a76612ac8b7e0735de975f9b7b74dae4bffb0333f9a45988725e9eaa"
       "1700000000" <> None
  /\ signer.Verify s 1700000000 url
       "ec60951150d0d29619c6c1621735571d8c1631a0ae73a302258b81427d936447"
       "1700000001" = None.
Proof.
  intros url s. split; [|split].
  - apply (Verify_outcomes (signer.New "k" 600 false) 1700000000 url "" "").
    reflexivity.
  - apply (Verify_outcomes s 1700000601 url
             "f3b50f18a76612ac8b7e0735de975f9b7b74dae4bffb0333f9a45988725e9eaa"
             "1700000000"); [reflexivity| |].
    + intros t [= <-]. lia.
    + right. right. right. left. exists 1700000000.
      split; [reflexivity|vm_compute; reflexivity].
  - apply (Verify_outcomes s 1700000000 url
             "ec60951150d0d29619c6c1621735571d8c1631a0ae73a302258b81427d936447"
             "1700000001") with (t := 1700000001);
      [reflexivity | simpl; lia | lia | reflexivity | lia
      | vm_compute; reflexivity].
Defined.

(** Two inputs at which the elapsed-time check does not do what its
    description says.  The subtraction [now - timestamp] is taken in
    [int64]: for the oldest timestamp there is it wraps to a negative
    number, and a request whose timestamp lies [2^63 + now] seconds in the
    past is accepted.  And with a negative [ttlSeconds] a timestamp in the
    near future is rejected as expired. *)
Lemma Verify_elapsed_time_check_gaps :
  let url := "https://cdn.example.com/a.m3u8" in
  (exists t,
     strconv.ParseInt "-9223372036854775808" = Some t
     /\ 1700000000 - t > 600
     /\ signer.Verify (signer.New "k" 600 true) 1700000000 url
          "4b0e44d25a4c79d96f66f61af7d159ce54083ebb2f30fbfeb98a6a31c1fbf348"
          "-9223372036854775808" = None)
  /\ (exists t,
        strconv.ParseInt "103" = Some t /\ 100 < t
        /\ signer.Verify (signer.New "k" (-5) true) 100 url
             "f3b50f18a76612ac8b7e0735de975f9b7b74dae4bffb0333f9a45988725e9eaa"
             "103" = Some "signature expired").
Proof.
  intro url. split.
  - exists (- 2 ^ 63).
    split; [reflexivity|]. split; [simpl; lia|]. vm_compute. reflexivity.
  - exists 103. split; [reflexivity|]. split; [lia|]. vm_compute. reflexivity.
Qed.

(** C6: at a signature that differs from the expected one in its first
    character and at one that differs in its last character, [Verify]
    answers "signature mismatch"; the decision is Go's built-in string
    inequality [sign != expectedSign]. *)
Theorem Verify_mismatch_first_or_last_char :
  let url := "https://cdn.example.com/a.m3u8" in
  let s := signer.New "k" 600 true in
  hex.EncodeToString (hmac.Sum "k" (url ++ "|" ++ "1700000000"))
  = "f3b50f18a76612ac8b7e0735de975f9b7b74dae4bffb0333f9a45988725e9eaa"
  /\ signer.Verify s 1700000100 url
       "03b50f18a76612ac8b7e0735de975f9b7b74dae4bffb0333f9a45988725e9eaa"
       "1700000000" = Some "signature mismatch"
  /\ signer.Verify s 1700000100 url
       "f3b50f18a76612ac8b7e0735de975f9b7b74dae4bffb0333f9a45988725e9ea0"
       "1700000000" = Some "signature mismatch".
Proof. intros url s. repeat split; vm_compute; reflexivity. Qed.

(** The mismatch decision of [Verify] once the timestamp checks have
    passed. *)
Lemma Verify_after_timestamp_checks
  (s : signer.Signer) (now t : Z) (url sign ts : string) :
  signer.enabled s = true -> sign <> "" ->
  strconv.ParseInt ts = Some t ->
  int64_wrap (now - t) <= signer.ttlSeconds s ->
  signer.Verify s now url sign ts
  = if String.eqb sign
         (hex.EncodeToString (hmac.Sum (signer.secret s) (url ++ "|" ++ ts)))
    then None else Some "signature mismatch".
Proof.
  intros He Hs Ht Hx. unfold signer.Verify. rewrite He, Ht. cbn [negb].
  destruct (String.eqb_spec sign ""); [contradiction|].
  rewrite (ParseInt_nonempty ts t Ht). cbn [orb].
  destruct (Z.gtb_spec (int64_wrap (now - t)) (signer.ttlSeconds s)); [lia|].
  destruct (String.eqb sign _); reflexivity.
Qed.

End SignerClaims.

(* ================================================================= *)
(** ** The playlist rewriter and the host allow-list: examples *)

Example Hostname_ex :
  url.splitHostPort "cdn.example.com:8443" = ("cdn.example.com", "8443")
  /\ url.splitHostPort "cdn.example.com" = ("cdn.example.com", "")
  /\ url.splitHostPort "[::1]:80" = ("::1", "80")
  /\ url.splitHostPort "[::1]" = ("::1", "")
  /\ url.splitHostPort "evil.org:.example.com:80"
     = ("evil.org:.example.com", "80")
  /\ url.splitHostPort "example.com:x" = ("example.com:x", "").
Proof. repeat split; reflexivity. Qed.

Example QueryEscape_ex :
  url.QueryEscape "https://cdn.example.com/path/seg 1.ts?a=b&c"
  = "https%3A%2F%2Fcdn.example.com%2Fpath%2Fseg+1.ts%3Fa%3Db%26c".
Proof. reflexivity. Qed.

Example IsAllowedHost_ex :
  let allow := ["example.com"] in
  util.IsAllowedHost simpleurl.lib "https://example.com/a.m3u8" allow = true
  /\ util.IsAllowedHost simpleurl.lib "https://cdn.example.com:8443/a" allow = true
  /\ util.IsAllowedHost simpleurl.lib "https://badexample.com/a" allow = false
  /\ util.IsAllowedHost simpleurl.lib "https://example.com.evil.org/a" allow = false
  /\ util.IsAllowedHost simpleurl.lib "https://example.com/a.m3u8" [] = false
  /\ util.IsAllowedHost simpleurl.lib "http://example.com:x:80/a" allow = false
  /\ util.IsAllowedHost simpleurl.lib "http://evil.org:.example.com:80/a" allow
     = true.
Proof. repeat split; reflexivity. Qed.

Example Rewrite_ex :
  let r := rewrite.NewM3U8Rewriter "" "/seg" "/key" "sign=ab&ts=17" in
  rewrite.Rewrite simpleurl.lib r
    (lines [ "#EXTM3U";
             "#EXT-X-KEY:METHOD=AES-128,URI=" ++ q "key.bin" ++ ",IV=0x01";
             "https://other.example.com/abs.ts";
             "  seg1.ts ";
             "" ])
    "https://cdn.example.com/path/a.m3u8"
  = lines
      [ "#EXTM3U";
        "#EXT-X-KEY:METHOD=AES-128,URI="
          ++ q "/key?u=https%3A%2F%2Fcdn.example.com%2Fpath%2Fkey.bin&sign=ab&ts=17"
          ++ ",IV=0x01";
        "/seg?u=https%3A%2F%2Fother.example.com%2Fabs.ts&sign=ab&ts=17";
        "/seg?u=https%3A%2F%2Fcdn.example.com%2Fpath%2Fseg1.ts&sign=ab&ts=17";
        "" ].
Proof. vm_compute. reflexivity. Qed.

Example Rewrite_no_sign_ex :
  let r := rewrite.NewM3U8Rewriter "" "/seg" "/key" "" in
  rewrite.Rewrite simpleurl.lib r (lines ["#EXTM3U"; "seg1.ts"])
    "https://cdn.example.com/path/a.m3u8"
  = lines ["#EXTM3U"; "/seg?u=https%3A%2F%2Fcdn.example.com%2Fpath%2Fseg1.ts"].
Proof. vm_compute. reflexivity. Qed.

(* ================================================================= *)
(** ** More facts about strings: occurrences, last byte, [Join] *)

Lemma count_app (c : ascii) (a b : string) :
  count c (a ++ b) = (count c a + count c b)%nat.
Proof. induction a as [|d a IH]; simpl; [reflexivity|]. rewrite IH. lia. Qed.

Lemma count_zero (c : ascii) (s : string) : ~ In_str c s -> count c s = O.
Proof.
  induction s as [|d s IH]; simpl; intro H; [reflexivity|].
  destruct (Ascii.eqb_spec d c); [tauto|]. apply IH. tauto.
Qed.

Lemma count_pos (c : ascii) (s : string) : In_str c s -> (1 <= count c s)%nat.
Proof.
  induction s as [|d s IH]; simpl; [tauto|].
  intros [->|H]; [rewrite Ascii.eqb_refl; lia|].
  specialize (IH H). lia.
Qed.

Lemma In_str_split (c : ascii) (s : string) :
  In_str c s -> exists a b, s = a ++ String c b.
Proof.
  induction s as [|d s IH]; simpl; [tauto|].
  intros [->|H]; [now exists "", s|].
  destruct (IH H) as (a & b & ->). now exists (String d a), b.
Qed.

Lemma Split_part_count (c sep : ascii) (s p : string) :
  In p (strings.Split s sep) -> (count c p <= count c s)%nat.
Proof.
  revert p; induction s as [|d s IH]; simpl; intros p Hp.
  - destruct Hp as [<-|[]]. simpl. lia.
  - destruct (Ascii.eqb d sep).
    + destruct Hp as [<-|Hp]; [simpl; lia|]. specialize (IH p Hp). lia.
    + destruct (strings.Split s sep) as [|x xs] eqn:E;
        [now apply Split_not_nil in E|].
      destruct Hp as [<-|Hp].
      * simpl. specialize (IH x (or_introl eq_refl)). lia.
      * specialize (IH p (or_intror Hp)). lia.
Qed.

Lemma TrimSpace_count (c : ascii) (s : string) :
  (count c (strings.TrimSpace s) <= count c s)%nat.
Proof.
  destruct (TrimSpace_substring s) as (a & b & E).
  rewrite E at 2. rewrite !count_app. lia.
Qed.

Lemma last_char (s : string) :
  s <> "" -> exists w c, s = w ++ String c "".
Proof.
  induction s as [|d s IH]; [congruence|]. intros _.
  destruct s as [|e s].
  - now exists "", d.
  - destruct IH as (w & c & E); [discriminate|].
    exists (String d w), c. simpl. now rewrite <- E.
Qed.

Lemma get_last (w : string) (c : ascii) :
  String.get (String.length (w ++ String c "") - 1) (w ++ String c "") = Some c.
Proof.
  induction w as [|d w IH]; [reflexivity|].
  simpl. rewrite Nat.sub_0_r.
  destruct (String.length (w ++ String c "")) as [|n] eqn:E.
  - rewrite append_length in E. simpl in E. lia.
  - simpl in IH. rewrite Nat.sub_0_r in IH. exact IH.
Qed.

Lemma substring_prefix_exact (w rest : string) :
  String.substring 0 (String.length w) (w ++ rest) = w.
Proof. induction w as [|d w IH]; simpl; [now destruct rest|now rewrite IH]. Qed.

Lemma Join_single (p sep : string) : strings.Join [p] sep = p.
Proof. reflexivity. Qed.

Lemma Join_app (l1 l2 : list string) (sep : string) :
  l1 <> [] -> l2 <> [] ->
  strings.Join (l1 ++ l2) sep = strings.Join l1 sep ++ sep ++ strings.Join l2 sep.
Proof.
  intros H1 H2. induction l1 as [|p l1 IH]; [congruence|].
  destruct l1 as [|q l1].
  - destruct l2 as [|r l2]; [congruence|]. reflexivity.
  - change (strings.Join ((p :: q :: l1) ++ l2) sep)
      with (p ++ sep ++ strings.Join ((q :: l1) ++ l2) sep).
    rewrite IH by discriminate. rewrite Join_cons, !append_assoc. reflexivity.
Qed.

Lemma Join_map_id (f : string -> string) (l : list string) (sep : string) :
  (forall p, In p l -> f p = p) -> strings.Join (map f l) sep = strings.Join l sep.
Proof.
  intro H. f_equal. rewrite <- (map_id l) at 2. apply map_ext_in. exact H.
Qed.

(* ================================================================= *)
(** ** The playlist rewriter *)

Section RewriteFacts.
Variable L : url.Lib.
Variable r : rewrite.M3U8Rewriter.
Variable baseURL : string.

(** [quoted] recognises exactly the strings of the shape ["w"]. *)
Lemma quoted_spec (u : string) :
  rewrite.quoted u = true <-> exists w, u = q w.
Proof.
  unfold rewrite.quoted, q. split.
  - intro H. apply andb_true_iff in H. destruct H as [H H2].
    apply andb_true_iff in H. destruct H as [Hlen H0].
    apply Nat.leb_le in Hlen.
    destruct u as [|c u]; [discriminate|]. simpl in H0.
    apply Ascii.eqb_eq in H0. subst c.
    destruct (last_char u) as (w & d & ->).
    { intros ->. simpl in Hlen. lia. }
    exists w. f_equal. f_equal.
    cbn [String.length] in H2. rewrite Nat.sub_succ, Nat.sub_0_r in H2.
    pose proof (get_last w d) as G.
    destruct (String.length (w ++ String d "")) as [|n] eqn:E.
    { rewrite append_length in E. simpl in E. lia. }
    cbn [String.get] in H2. simpl in G. rewrite Nat.sub_0_r in G.
    rewrite G in H2. apply Ascii.eqb_eq in H2. now subst d.
  - intros [w ->]. apply andb_true_iff. split; [apply andb_true_iff; split|].
    + apply Nat.leb_le. cbn [String.length]. rewrite append_length. simpl. lia.
    + reflexivity.
    + change (String dquote (w ++ String dquote ""))
        with (String dquote w ++ String dquote "").
      rewrite get_last. apply Ascii.eqb_refl.
Qed.

Lemma quoted_inner (w : string) :
  String.substring 1 (String.length (q w) - 2) (q w) = w.
Proof.
  unfold q. cbn [String.length String.substring].
  rewrite append_length. cbn [String.length].
  replace (S (String.length w + 1) - 2)%nat with (String.length w) by lia.
  apply substring_prefix_exact.
Qed.

(** What the loop body of [rewriteKeyLine] does with one element. *)
Lemma rewriteKeyPart_cases (part : string) :
  (rewrite.rewriteKeyPart L r baseURL part = part
   /\ forall w, strings.TrimSpace part <> "URI=" ++ q w)
  \/ exists w,
       strings.TrimSpace part = "URI=" ++ q w
       /\ rewrite.rewriteKeyPart L r baseURL part
          = "URI=" ++ q (rewrite.buildKeyURL r (rewrite.resolveURL L w baseURL)).
Proof.
  unfold rewrite.rewriteKeyPart.
  destruct (strings.HasPrefix (strings.TrimSpace part) "URI=") eqn:Hp.
  - apply prefix_drop in Hp. cbn [String.length] in Hp.
    set (u := drop 4 (strings.TrimSpace part)) in *.
    destruct (rewrite.quoted u) eqn:Hq.
    + right. apply quoted_spec in Hq. destruct Hq as [w Hw].
      exists w. rewrite Hp, Hw, quoted_inner. split; reflexivity.
    + left. split; [reflexivity|]. intros w E. rewrite Hp in E.
      cbn [append] in E. injection E as E.
      assert (rewrite.quoted u = true) by (apply quoted_spec; eauto).
      congruence.
  - left. split; [reflexivity|]. intros w E.
    assert (strings.HasPrefix (strings.TrimSpace part) "URI=" = true)
      by (apply HasPrefix_spec; eauto).
    congruence.
Qed.

Lemma rewriteKeyPart_needs_two_quotes (part : string) :
  (count dquote part < 2)%nat ->
  rewrite.rewriteKeyPart L r baseURL part = part.
Proof.
  intro H. destruct (rewriteKeyPart_cases part) as [[E _]|(w & E & _)];
    [exact E|].
  pose proof (TrimSpace_count dquote part) as Hc. rewrite E in Hc.
  unfold q in Hc. cbn [append count] in Hc. rewrite count_app in Hc.
  cbn [count] in Hc. rewrite Ascii.eqb_refl in Hc.
  simpl in Hc. lia.
Qed.

(** [rewriteKeyLine] works on the comma-separated pieces one by one. *)
Lemma rewriteKeyLine_comma (a b : string) :
  rewrite.rewriteKeyLine L r (a ++ "," ++ b) baseURL
  = rewrite.rewriteKeyLine L r a baseURL ++ ","
      ++ rewrite.rewriteKeyLine L r b baseURL.
Proof.
  unfold rewrite.rewriteKeyLine. cbn [append].
  rewrite Split_app_sep, map_app, Join_app; [reflexivity| |].
  - intro E. apply map_eq_nil in E. now apply Split_not_nil in E.
  - intro E. apply map_eq_nil in E. now apply Split_not_nil in E.
Qed.

Lemma rewriteKeyLine_no_comma (part : string) :
  ~ In_str "," part ->
  rewrite.rewriteKeyLine L r part baseURL
  = rewrite.rewriteKeyPart L r baseURL part.
Proof.
  intro H. unfold rewrite.rewriteKeyLine. now rewrite Split_no_sep.
Qed.

Lemma rewriteKeyLine_few_quotes (s : string) :
  (count dquote s < 2)%nat -> rewrite.rewriteKeyLine L r s baseURL = s.
Proof.
  intro H. unfold rewrite.rewriteKeyLine.
  rewrite Join_map_id; [apply Join_Split|].
  intros p Hp. apply rewriteKeyPart_needs_two_quotes.
  pose proof (Split_part_count dquote "," s p Hp). lia.
Qed.

(** A quoted value with a comma inside: both halves hold one quote. *)
Lemma rewriteKeyLine_comma_in_value (v : string) :
  ~ In_str dquote v -> In_str "," v ->
  rewrite.rewriteKeyLine L r ("URI=" ++ q v) baseURL = "URI=" ++ q v.
Proof.
  intros Hq Hc. apply In_str_split in Hc. destruct Hc as (v1 & v2 & ->).
  rewrite In_str_app in Hq. simpl in Hq.
  replace ("URI=" ++ q (v1 ++ String "," v2))
    with (("URI=" ++ String dquote v1) ++ "," ++ (v2 ++ String dquote ""))
    by (unfold q; cbn [append]; now rewrite !append_assoc).
  rewrite rewriteKeyLine_comma, !rewriteKeyLine_few_quotes; [reflexivity| |].
  - rewrite count_app, count_zero by tauto. simpl. lia.
  - cbn [append count]. rewrite count_zero by tauto. simpl. lia.
Qed.

End RewriteFacts.

Section RewriteClaims.

(** C10: [rewriteKeyLine] splits the line on every comma and treats the
    pieces one by one.  A [URI] attribute whose quoted value holds a comma
    is cut in two pieces with one quote each and comes out unchanged; a
    comma-free piece whose trimmed text is [URI=] followed by something
    that is not enclosed in double quotes comes out unchanged; and a
    comma-free piece that does change is, once trimmed, [URI="u"] with [u]
    free of commas, and becomes [URI="<key endpoint URL of u>"]. *)
Theorem rewriteKeyLine_split_on_commas
  (L : url.Lib) (r : rewrite.M3U8Rewriter) (baseURL : string)
  (pre post v part : string) :
  ~ In_str dquote v -> In_str "," v -> ~ In_str "," part ->
  rewrite.rewriteKeyLine L r (pre ++ "," ++ post) baseURL
  = rewrite.rewriteKeyLine L r pre baseURL ++ ","
      ++ rewrite.rewriteKeyLine L r post baseURL
  /\ rewrite.rewriteKeyLine L r ("URI=" ++ q v) baseURL = "URI=" ++ q v
  /\ (forall u, strings.TrimSpace part = "URI=" ++ u ->
                (forall w, u <> q w) ->
                rewrite.rewriteKeyLine L r part baseURL = part)
  /\ (rewrite.rewriteKeyLine L r part baseURL = part
      \/ exists u,
           strings.TrimSpace part = "URI=" ++ q u
           /\ ~ In_str "," u
           /\ rewrite.rewriteKeyLine L r part baseURL
              = "URI=" ++ q (rewrite.buildKeyURL r
                               (rewrite.resolveURL L u baseURL))).
Proof.
  intros Hq Hc Hp. split; [apply rewriteKeyLine_comma|].
  split; [now apply rewriteKeyLine_comma_in_value|].
  rewrite (rewriteKeyLine_no_comma L r baseURL part Hp). split.
  - intros u Hu Hn.
    destruct (rewriteKeyPart_cases L r baseURL part) as [[E _]|(w & E & _)];
      [exact E|].
    rewrite Hu in E. cbn [append] in E. injection E as E.
    now apply Hn in E.
  - destruct (rewriteKeyPart_cases L r baseURL part) as [[E _]|(w & E & E')];
      [now left|].
    right. exists w. repeat split; try assumption.
    intro Hw. apply Hp, TrimSpace_In_str. rewrite E.
    unfold q. cbn [append In_str]. do 5 right.
    rewrite In_str_app. now left.
Qed.

Lemma rewriteKeyLine_split_on_commas_witness :
  let r := rewrite.NewM3U8Rewriter "" "/seg" "/key" "" in
  let base := "https://cdn.example.com/path/a.m3u8" in
  rewrite.rewriteKeyLine simpleurl.lib r
    ("#EXT-X-KEY:METHOD=AES-128" ++ "," ++ "URI=" ++ q "a,b.key") base
  = "#EXT-X-KEY:METHOD=AES-128,URI=" ++ q "a,b.key"
  /\ rewrite.rewriteKeyLine simpleurl.lib r " URI=key.bin" base = " URI=key.bin"
  /\ rewrite.rewriteKeyLine simpleurl.lib r
       ("#EXT-X-KEY:METHOD=AES-128" ++ "," ++ "URI=" ++ q "key.bin") base
     = "#EXT-X-KEY:METHOD=AES-128,URI="
         ++ q "/key?u=https%3A%2F%2Fcdn.example.com%2Fpath%2Fkey.bin".
Proof.
  intros r base.
  assert (~ In_str dquote "a,b.key") as Hq
    by (simpl; intuition discriminate).
  assert (In_str "," "a,b.key") as Hc by (simpl; auto).
  assert (~ In_str "," " URI=key.bin") as Hp
    by (simpl; intuition discriminate).
  destruct (rewriteKeyLine_split_on_commas simpleurl.lib r base
              "#EXT-X-KEY:METHOD=AES-128" ("URI=" ++ q "a,b.key")
              "a,b.key" " URI=key.bin" Hq Hc Hp) as (E1 & E2 & E3 & _).
  assert (~ In_str "," ("URI=" ++ q "key.bin")) as Hp'
    by (simpl; intuition discriminate).
  destruct (rewriteKeyLine_split_on_commas simpleurl.lib r base
              "#EXT-X-KEY:METHOD=AES-128" ("URI=" ++ q "key.bin")
              "a,b.key" ("URI=" ++ q "key.bin") Hq Hc Hp') as (F1 & _ & _ & _).
  split; [|split].
  - rewrite E1, E2. vm_compute. reflexivity.
  - apply (E3 "key.bin"); [vm_compute; reflexivity|].
    intros w Hw. discriminate Hw.
  - rewrite F1. vm_compute. reflexivity.
Defined.

(** C1: a key directive whose [URI] attribute comes first:
    [rewriteKeyLine] splits the whole line, tag included, on commas, so the
    first piece is [#EXT-X-KEY:URI="key.bin"], which does not start with
    [URI=]; the line leaves [Rewrite] as it came in, with the relative key
    reference untouched. *)
Theorem Rewrite_key_uri_first_attribute
  (L : url.Lib) (r : rewrite.M3U8Rewriter) (originalURL : string) :
  rewrite.Rewrite L r
    (lines [ "#EXTM3U";
             "#EXT-X-KEY:URI=" ++ q "key.bin" ++ ",METHOD=AES-128" ])
    originalURL
  = lines [ "#EXTM3U";
            "#EXT-X-KEY:URI=" ++ q "key.bin" ++ ",METHOD=AES-128" ].
Proof. vm_compute. reflexivity. Qed.

(** The same attribute in second position is rewritten. *)
Example Rewrite_key_uri_second_attribute :
  rewrite.Rewrite simpleurl.lib (rewrite.NewM3U8Rewriter "" "/seg" "/key" "")
    ("#EXT-X-KEY:METHOD=AES-128,URI=" ++ q "key.bin")
    "https://cdn.example.com/path/a.m3u8"
  = "#EXT-X-KEY:METHOD=AES-128,URI="
      ++ q "/key?u=https%3A%2F%2Fcdn.example.com%2Fpath%2Fkey.bin".
Proof. vm_compute. reflexivity. Qed.

End RewriteClaims.

Section RewriteLines.
Variable L : url.Lib.
Variable r : rewrite.M3U8Rewriter.
Variable originalURL : string.

Lemma resolveURL_absolute (urlStr : string) :
  strings.HasPrefix urlStr "http://" = true
  \/ strings.HasPrefix urlStr "https://" = true ->
  rewrite.resolveURL L urlStr originalURL = urlStr.
Proof.
  intro H. unfold rewrite.resolveURL.
  destruct H as [-> | ->]; [reflexivity|now rewrite orb_true_r].
Qed.

Lemma resolveURL_relative (urlStr : string) (base resolved : url.URL L) :
  strings.HasPrefix urlStr "http://" = false ->
  strings.HasPrefix urlStr "https://" = false ->
  url.Parse L originalURL = Some base ->
  url.URL_Parse L base urlStr = Some resolved ->
  rewrite.resolveURL L urlStr originalURL = url.URL_String L resolved.
Proof.
  intros H1 H2 Hb Hr. unfold rewrite.resolveURL. now rewrite H1, H2, Hb, Hr.
Qed.

(** The endpoint URLs: [base + prefix + "?u=" + QueryEscape(url)], followed
    by [&signParams] when [signParams] is not empty. *)
Lemma buildSegmentURL_shape (segmentURL : string) :
  rewrite.buildSegmentURL r segmentURL
  = rewrite.baseURL r ++ rewrite.segPrefix r ++ "?u="
      ++ url.QueryEscape segmentURL
      ++ (if String.eqb (rewrite.signParams r) "" then ""
          else "&" ++ rewrite.signParams r).
Proof.
  unfold rewrite.buildSegmentURL.
  destruct (String.eqb (rewrite.signParams r) ""); cbn [negb].
  - now rewrite append_nil_r.
  - now rewrite !append_assoc.
Qed.

Lemma buildKeyURL_shape (keyURL : string) :
  rewrite.buildKeyURL r keyURL
  = rewrite.baseURL r ++ rewrite.keyPrefix r ++ "?u="
      ++ url.QueryEscape keyURL
      ++ (if String.eqb (rewrite.signParams r) "" then ""
          else "&" ++ rewrite.signParams r).
Proof.
  unfold rewrite.buildKeyURL.
  destruct (String.eqb (rewrite.signParams r) ""); cbn [negb].
  - now rewrite append_nil_r.
  - now rewrite !append_assoc.
Qed.

(** What [Rewrite] does with one line, by the shape of the trimmed line. *)
Lemma rewriteLine_cases (line0 : string) :
  let line := strings.TrimSpace line0 in
  (line = "" -> rewrite.rewriteLine L r originalURL line0 = "")
  /\ (strings.HasPrefix line "#" = true ->
      strings.HasPrefix line "#EXT-X-KEY:" = false ->
      rewrite.rewriteLine L r originalURL line0 = line)
  /\ (strings.HasPrefix line "#EXT-X-KEY:" = true ->
      rewrite.rewriteLine L r originalURL line0
      = rewrite.rewriteKeyLine L r line originalURL)
  /\ (line <> "" -> strings.HasPrefix line "#" = false ->
      rewrite.rewriteLine L r originalURL line0
      = rewrite.buildSegmentURL r (rewrite.resolveURL L line originalURL)).
Proof.
  intro line. unfold rewrite.rewriteLine. fold line. repeat split.
  - intros ->. reflexivity.
  - intros H1 H2. now rewrite H1, H2, orb_true_r.
  - intro H. rewrite H.
    assert (strings.HasPrefix line "#" = true) as ->.
    { apply HasPrefix_spec in H. destruct H as [x ->].
      apply HasPrefix_spec. now exists ("EXT-X-KEY:" ++ x). }
    now rewrite orb_true_r.
  - intros Hn Hh. rewrite Hh.
    destruct (String.eqb_spec line ""); [contradiction|reflexivity].
Qed.

(** The sign parameters handed to the rewriter by [handlePlay] are not
    empty once [Verify] has accepted the request with signing enabled. *)
Lemma BuildSignParams_after_Verify
  (s : signer.Signer) (now : Z) (target sign ts : string) :
  signer.enabled s = true ->
  signer.Verify s now target sign ts = None ->
  util.BuildSignParams sign ts
  = "sign=" ++ url.QueryEscape sign ++ "&ts=" ++ url.QueryEscape ts.
Proof.
  intros He Hv. unfold signer.Verify in Hv. rewrite He in Hv. cbn [negb] in Hv.
  unfold util.BuildSignParams.
  destruct (String.eqb sign "" || String.eqb ts ""); [discriminate|reflexivity].
Qed.

End RewriteLines.

(* ================================================================= *)
(** ** The host allow-list *)

Section AllowList.



Lemma LastIndexByte_None (s : string) (c : ascii) :
  ~ In_str c s -> url.LastIndexByte s c = None.
Proof.
  induction s as [|d s IH]; simpl; intro H; [reflexivity|].
  rewrite IH by tauto. destruct (Ascii.eqb_spec d c); [tauto|reflexivity].
Qed.

Lemma LastIndexByte_last (a b : string) (c : ascii) :
  ~ In_str c b ->
  url.LastIndexByte (a ++ String c b) c = Some (String.length a).
Proof.
  intro H. induction a as [|d a IH]; simpl.
  - rewrite LastIndexByte_None by exact H. now rewrite Ascii.eqb_refl.
  - now rewrite IH.
Qed.

Lemma digits_no_colon (port : string) :
  all_chars strconv.isDigit port = true -> ~ In_str ":" port.
Proof.
  induction port as [|c port IH]; simpl; [tauto|].
  intro H. apply andb_true_iff in H. destruct H as [Hc Hp].
  intros [->|Hin]; [discriminate Hc|now apply IH].
Qed.

Lemma drop_append (a b : string) : drop (String.length a) (a ++ b) = b.
Proof. induction a as [|c a IH]; [now destruct b|exact IH]. Qed.

(** [Hostname] drops the port: for a host followed by a colon and decimal
    digits, what is left is the host, without the brackets of an IPv6
    literal. *)
Lemma splitHostPort_host_port (h port : string) :
  all_chars strconv.isDigit port = true ->
  url.splitHostPort (h ++ ":" ++ port)
  = (if strings.HasPrefix h "[" && strings.HasSuffix h "]"
     then String.substring 1 (String.length h - 2) h else h,
     port).
Proof.
  intro Hp. unfold url.splitHostPort. cbn [append].
  rewrite LastIndexByte_last by now apply digits_no_colon.
  rewrite drop_append. cbn [url.validOptionalPort Ascii.eqb Bool.eqb andb].
  rewrite Hp. cbn [fst snd].
  rewrite substring_prefix_exact. f_equal.
  clear Hp. induction h as [|c h IH]; [reflexivity|exact IH].
Qed.

Lemma splitHostPort_no_port (h : string) :
  ~ In_str ":" h ->
  url.splitHostPort h
  = (if strings.HasPrefix h "[" && strings.HasSuffix h "]"
     then String.substring 1 (String.length h - 2) h else h,
     "").
Proof.
  intro H. unfold url.splitHostPort. now rewrite LastIndexByte_None.
Qed.

(** C3: [IsAllowedHost] answers true exactly when the URL parses and its
    host name is an entry of the allow list or ends with a dot followed by
    an entry; the empty allow list denies every URL, and so does a URL that
    does not parse.  The host name is the host without its port: without
    what follows the last colon when that is made of decimal digits, and
    the whole host when it has no colon (an IPv6 literal apart, which loses
    its brackets). *)
Theorem IsAllowedHost_iff
  (L : url.Lib) (targetURL : string) (allowHosts : list string) :
  (util.IsAllowedHost L targetURL allowHosts = true <->
     exists parsed allowed,
       url.Parse L targetURL = Some parsed
       /\ In allowed allowHosts
       /\ (url.Hostname L parsed = allowed
           \/ exists sub, url.Hostname L parsed = sub ++ "." ++ allowed))
  /\ util.IsAllowedHost L targetURL [] = false
  /\ (url.Parse L targetURL = None ->
      util.IsAllowedHost L targetURL allowHosts = false)
  /\ (forall parsed h port,
        url.Host L parsed = h ++ ":" ++ port ->
        all_chars strconv.isDigit port = true ->
        strings.HasPrefix h "[" && strings.HasSuffix h "]" = false ->
        url.Hostname L parsed = h)
  /\ (forall parsed,
        ~ In_str ":" (url.Host L parsed) ->
        strings.HasPrefix (url.Host L parsed) "["
        && strings.HasSuffix (url.Host L parsed) "]" = false ->
        url.Hostname L parsed = url.Host L parsed).
Proof.
  split; [|split; [|split; [|split]]].
  - unfold util.IsAllowedHost. destruct allowHosts as [|a0 rest].
    { simpl. split; [discriminate|]. intros (p & a & _ & [] & _). }
    cbn [List.length Nat.eqb].
    destruct (url.Parse L targetURL) as [parsed|].
    2:{ split; [discriminate|]. intros (p & a & H & _). discriminate. }
    rewrite existsb_exists. split.
    + intros (a & Ha & H). exists parsed, a. split; [reflexivity|].
      split; [exact Ha|]. apply orb_true_iff in H. destruct H as [H|H].
      * left. now apply String.eqb_eq.
      * right. now apply HasSuffix_spec.
    + intros (p & a & [= <-] & Ha & H). exists a. split; [exact Ha|].
      apply orb_true_iff. destruct H as [H|H].
      * left. now apply String.eqb_eq.
      * right. now apply HasSuffix_spec.
  - reflexivity.
  - unfold util.IsAllowedHost. intros ->.
    now destruct (List.length allowHosts =? 0)%nat.
  - intros parsed h port Hh Hp Hb. unfold url.Hostname.
    rewrite Hh, splitHostPort_host_port by exact Hp. now rewrite Hb.
  - intros parsed Hc Hb. unfold url.Hostname.
    rewrite splitHostPort_no_port by exact Hc. now rewrite Hb.
Qed.

Lemma IsAllowedHost_iff_witness :
  util.IsAllowedHost simpleurl.lib "https://cdn.example.com:8443/a.m3u8"
    ["example.com"] = true
  /\ util.IsAllowedHost simpleurl.lib
       ("https://example.com/" ++ String (ascii_of_nat 7) "")
       ["example.com"] = false.
Proof.
  split.
  - apply (IsAllowedHost_iff simpleurl.lib
             "https://cdn.example.com:8443/a.m3u8" ["example.com"]).
    exists (simpleurl.mkURL "https" "cdn.example.com:8443" "/a.m3u8"),
           "example.com".
    split; [reflexivity|]. split; [simpl; auto|].
    right. exists "cdn". reflexivity.
  - apply (IsAllowedHost_iff simpleurl.lib
             ("https://example.com/" ++ String (ascii_of_nat 7) "")
             ["example.com"]).
    reflexivity.
Defined.

End AllowList.

(* ================================================================= *)
(** ** The resource cache *)

Example cache_lru_order_ex :
  let c0 := cache.New 2 60 true in
  let c := cache.run [ cache.OpSet 0 "a" (bytes_of "A");
                       cache.OpSet 1 "b" (bytes_of "B");
                       cache.OpGet 2 "a";
                       cache.OpSet 3 "c" (bytes_of "C") ] c0 in
  fst (cache.Get c 4 "a") = Some (bytes_of "A")
  /\ fst (cache.Get c 4 "b") = None
  /\ fst (cache.Get c 4 "c") = Some (bytes_of "C")
  /\ cache.Len c = 2%nat.
Proof. repeat split; reflexivity. Qed.

Example cache_ttl_ex :
  let c := cache.Set_ (cache.New 2 60 true) 0 "a" (bytes_of "A") in
  fst (cache.Get c 60000000000 "a") = Some (bytes_of "A")
  /\ fst (cache.Get c 60000000001 "a") = None
  /\ cache.Len (snd (cache.Get c 60000000001 "a")) = 0%nat.
Proof. repeat split; reflexivity. Qed.

Section LruFacts.
Context {V : Type}.
Implicit Types (l : list (string * V)) (c : lru.Cache V).

Lemma remove_length_le (key : string) l :
  (List.length (lru.remove key l) <= List.length l)%nat.
Proof.
  induction l as [|[k v] l IH]; simpl; [lia|].
  destruct (String.eqb k key); simpl; lia.
Qed.

Lemma remove_length_lt (key : string) l (v : V) :
  lru.lookup key l = Some v ->
  (List.length (lru.remove key l) < List.length l)%nat.
Proof.
  induction l as [|[k w] l IH]; simpl; [discriminate|].
  destruct (String.eqb k key).
  - intros _. pose proof (remove_length_le key l). lia.
  - intro H. specialize (IH H). simpl. lia.
Qed.

Lemma lookup_None (key : string) l :
  ~ In key (map fst l) -> lru.lookup key l = None.
Proof.
  induction l as [|[k v] l IH]; simpl; intro H; [reflexivity|].
  destruct (String.eqb_spec k key); [tauto|]. apply IH. tauto.
Qed.

Lemma lookup_NoDup (key : string) (v : V) l :
  NoDup (map fst l) -> In (key, v) l -> lru.lookup key l = Some v.
Proof.
  induction l as [|[k w] l IH]; simpl; intros Hnd Hin; [contradiction|].
  inversion Hnd as [|? ? Hk Hnd']; subst.
  destruct Hin as [[= -> ->]|Hin].
  - now rewrite String.eqb_refl.
  - destruct (String.eqb_spec k key) as [->|_]; [|now apply IH].
    exfalso. apply Hk. change key with (fst (key, v)). now apply in_map.
Qed.

Lemma removelast_firstn_length {A : Type} (x : A) (xs : list A) :
  removelast (x :: xs) = firstn (List.length xs) (x :: xs).
Proof.
  revert x; induction xs as [|y xs IH]; intro x; [reflexivity|].
  change (removelast (x :: y :: xs)) with (x :: removelast (y :: xs)).
  rewrite IH. reflexivity.
Qed.

(** Adding a key that is not in the store: the new entry goes to the
    front and the store is cut back to its capacity. *)
Lemma Add_fresh c (key : string) (v : V) :
  lru.lookup key (lru.items c) = None ->
  (List.length (lru.items c) <= lru.size c)%nat ->
  lru.Add c key v
  = lru.mkCache (lru.size c) (firstn (lru.size c) ((key, v) :: lru.items c)).
Proof.
  intros Hl Hlen. unfold lru.Add. rewrite Hl. cbn zeta.
  destruct (Nat.ltb_spec (lru.size c) (List.length ((key, v) :: lru.items c)))
    as [Hlt|Hge]; f_equal.
  - simpl in Hlt. rewrite removelast_firstn_length. f_equal. lia.
  - symmetry. apply firstn_all2. exact Hge.
Qed.

(** On a full store a new key pushes out exactly the last entry, the one
    used least recently. *)
Lemma Add_fresh_full c (key : string) (v : V) :
  lru.lookup key (lru.items c) = None ->
  List.length (lru.items c) = lru.size c -> (1 <= lru.size c)%nat ->
  lru.Add c key v
  = lru.mkCache (lru.size c) ((key, v) :: removelast (lru.items c)).
Proof.
  intros Hl Hlen Hpos. unfold lru.Add. rewrite Hl. cbn zeta.
  destruct (Nat.ltb_spec (lru.size c) (List.length ((key, v) :: lru.items c)))
    as [Hlt|Hge]; [|simpl in Hge; lia].
  f_equal. destruct (lru.items c) as [|x xs]; [simpl in Hlen; lia|reflexivity].
Qed.

Lemma Add_size c (key : string) (v : V) : lru.size (lru.Add c key v) = lru.size c.
Proof.
  unfold lru.Add. destruct (lru.lookup key (lru.items c)); [reflexivity|].
  cbn zeta. now destruct (_ <? _)%nat.
Qed.

Lemma Add_length c (key : string) (v : V) :
  (List.length (lru.items c) <= lru.size c)%nat ->
  (List.length (lru.items (lru.Add c key v)) <= lru.size c)%nat.
Proof.
  intro H. unfold lru.Add.
  destruct (lru.lookup key (lru.items c)) as [w|] eqn:E.
  - simpl. pose proof (remove_length_lt key _ w E). lia.
  - cbn zeta.
    destruct (Nat.ltb_spec (lru.size c) (List.length ((key, v) :: lru.items c)))
      as [Hlt|Hge]; cbn [lru.items].
    + rewrite removelast_firstn_length, length_firstn. simpl. lia.
    + exact Hge.
Qed.

Lemma Get_size c (key : string) : lru.size (snd (lru.Get c key)) = lru.size c.
Proof. unfold lru.Get. now destruct (lru.lookup key (lru.items c)). Qed.

Lemma Get_length c (key : string) :
  (List.length (lru.items (snd (lru.Get c key))) <= List.length (lru.items c))%nat.
Proof.
  unfold lru.Get. destruct (lru.lookup key (lru.items c)) as [w|] eqn:E;
    simpl; [|lia].
  pose proof (remove_length_lt key _ w E). lia.
Qed.

End LruFacts.

Section CacheFacts.
Local Open Scope Z_scope.

Lemma New_enabled (N ttlSeconds : Z) :
  1 <= N ->
  cache.New N ttlSeconds true
  = cache.mkCache (Some (lru.mkCache (Z.to_nat N) []))
      (int64_wrap (ttlSeconds * cache.Second)) true.
Proof.
  intro H. unfold cache.New. cbn [negb orb].
  destruct (Z.leb_spec N 0); [lia|reflexivity].
Qed.

Lemma step_inv (n : nat) (ttl : Z) (c : cache.Cache) (o : cache.op) :
  cache_inv n ttl c -> cache_inv n ttl (cache.step c o).
Proof.
  intros (l & Hl & Hs & Hlen & Ht & He). destruct o as [now key data|now key].
  - unfold cache.step, cache.Set_. rewrite He, Hl. cbn [negb].
    eexists. split; [reflexivity|]. rewrite Add_size.
    repeat split; try assumption.
    rewrite <- Hs. apply Add_length. now rewrite Hs.
  - unfold cache.step, cache.Get. rewrite He, Hl. cbn [negb].
    pose proof (Get_size l key) as Gs. pose proof (Get_length l key) as Gl.
    destruct (lru.Get l key) as [[entry|] l']; cbn [snd] in *.
    + destruct (now >? cache.ExpiresAt entry); cbn [snd].
      * eexists. split; [reflexivity|]. cbn [lru.Remove lru.size lru.items].
        repeat split; try assumption; try congruence.
        pose proof (remove_length_le key (lru.items l')). lia.
      * exists l'. repeat split; try assumption; try congruence; lia.
    + exists l'. repeat split; try assumption; try congruence; lia.
Qed.

Lemma run_inv (n : nat) (ttl : Z) (ops : list cache.op) (c : cache.Cache) :
  cache_inv n ttl c -> cache_inv n ttl (cache.run ops c).
Proof.
  revert c; induction ops as [|o ops IH]; intros c H; [exact H|].
  apply IH, step_inv, H.
Qed.

Lemma firstn_cons_firstn {A : Type} (n : nat) (x : A) (xs : list A) :
  firstn n (x :: firstn n xs) = firstn n (x :: xs).
Proof.
  destruct n as [|m]; [reflexivity|]. rewrite !firstn_cons. f_equal.
  rewrite firstn_firstn. f_equal. lia.
Qed.

Lemma firstn_In {A : Type} (n : nat) (l : list A) (x : A) :
  In x (firstn n l) -> In x l.
Proof.
  revert l; induction n as [|n IH]; intros [|y l]; simpl; try tauto.
  intros [H|H]; [now left|right; now apply IH].
Qed.

Lemma ins_entry_keys (ttl : Z) (es : list insertion) :
  map fst (map (ins_entry ttl) es) = map ins_key es.
Proof. rewrite map_map. reflexivity. Qed.

(** Distinct keys set one after the other into an empty cache: the store
    holds the latest [n] of them, the last one set first. *)
Lemma run_insertions (n : nat) (ttl : Z) (es : list insertion) :
  NoDup (map ins_key es) ->
  cache.run (map ins_op es) (cache.mkCache (Some (lru.mkCache n [])) ttl true)
  = cache.mkCache
      (Some (lru.mkCache n (firstn n (List.rev (map (ins_entry ttl) es)))))
      ttl true.
Proof.
  induction es as [|e es IH] using rev_ind; intro Hnd.
  - simpl. now rewrite firstn_nil.
  - rewrite map_app in Hnd. apply NoDup_remove in Hnd.
    rewrite app_nil_r in Hnd. destruct Hnd as [Hnd Hfresh].
    unfold cache.run in *. rewrite map_app, fold_left_app, IH by exact Hnd.
    cbn [map fold_left cache.step ins_op cache.Set_ cache.enabled negb
         cache.lru cache.ttl].
    rewrite Add_fresh; cbn [lru.items lru.size].
    + rewrite firstn_cons_firstn, map_app, rev_app_distr. reflexivity.
    + apply lookup_None. intro Hin. apply Hfresh.
      rewrite <- (ins_entry_keys ttl es). rewrite in_rev, <- map_rev.
      rewrite in_map_iff in Hin |- *.
      destruct Hin as (x & Hx & Hin). exists x. split; [exact Hx|].
      eapply firstn_In; exact Hin.
    + rewrite length_firstn. lia.
Qed.

Lemma Get_hit (l : lru.Cache cache.CacheEntry) (ttl now : Z)
    (key : string) (entry : cache.CacheEntry) :
  lru.lookup key (lru.items l) = Some entry ->
  now <= cache.ExpiresAt entry ->
  fst (cache.Get (cache.mkCache (Some l) ttl true) now key)
  = Some (cache.Data entry).
Proof.
  intros Hl Hn. unfold cache.Get, lru.Get. cbn [cache.enabled negb cache.lru].
  rewrite Hl. destruct (Z.gtb_spec now (cache.ExpiresAt entry)); [lia|].
  reflexivity.
Qed.

Lemma Get_miss (l : lru.Cache cache.CacheEntry) (ttl now : Z) (key : string) :
  lru.lookup key (lru.items l) = None ->
  cache.Get (cache.mkCache (Some l) ttl true) now key
  = (None, cache.mkCache (Some l) ttl true).
Proof.
  intros Hl. unfold cache.Get, lru.Get. cbn [cache.enabled negb cache.lru].
  now rewrite Hl.
Qed.

End CacheFacts.

Section CacheClaims.
Local Open Scope Z_scope.

(** Overflow of a new cache: after [N + 1] distinct keys have been set
    into the new cache, the first key is gone, and each of the [N] others
    is returned with its bytes by a [Get] that runs before its expiry. *)
Lemma new_cache_overflow_evicts_first
  (N ttlSeconds : Z) (ops : list cache.op)
  (e0 : insertion) (rest : list insertion) (now : Z) :
  1 <= N ->
  Z.of_nat (List.length rest) = N ->
  NoDup (map ins_key (e0 :: rest)) ->
  (forall e, In e rest ->
     now <= ins_now e + cache.ttl (cache.New N ttlSeconds true)) ->
  let c0 := cache.New N ttlSeconds true in
  let c := cache.run (map ins_op (e0 :: rest)) c0 in
  Z.of_nat (cache.Len (cache.run ops c0)) <= N
  /\ Z.of_nat (cache.Len c) = N
  /\ fst (cache.Get c now (ins_key e0)) = None
  /\ forall e, In e rest -> fst (cache.Get c now (ins_key e)) = Some (ins_data e).
Proof.
  intros HN Hlen Hnd Hfresh c0 c. subst c c0.
  rewrite New_enabled in * by exact HN. cbn [cache.ttl] in Hfresh.
  set (ttl := int64_wrap (ttlSeconds * cache.Second)) in *.
  set (n := Z.to_nat N).
  assert (List.length rest = n) as Hn by lia.
  split.
  { destruct (run_inv n ttl ops (cache.mkCache (Some (lru.mkCache n [])) ttl true))
      as (l & Hl & _ & Hle & _).
    - eexists. repeat split; simpl; lia.
    - unfold cache.Len, lru.Len. rewrite Hl. lia. }
  rewrite run_insertions by exact Hnd.
  assert (firstn n (List.rev (map (ins_entry ttl) (e0 :: rest)))
          = List.rev (map (ins_entry ttl) rest)) as ->.
  { cbn [map List.rev]. rewrite firstn_app, firstn_all2
      by (rewrite length_rev, length_map; lia).
    rewrite length_rev, length_map, Hn, Nat.sub_diag. cbn [firstn].
    apply app_nil_r. }
  inversion Hnd as [|? ? Hk0 Hnd']; subst.
  assert (map fst (List.rev (map (ins_entry ttl) rest))
          = List.rev (map ins_key rest)) as Hkeys
    by (now rewrite map_rev, ins_entry_keys).
  split; [|split].
  - unfold cache.Len, lru.Len. cbn [cache.lru lru.items].
    rewrite length_rev, length_map. lia.
  - rewrite Get_miss; [reflexivity|]. cbn [lru.items].
    apply lookup_None. rewrite Hkeys, <- in_rev. exact Hk0.
  - intros e He.
    rewrite (Get_hit _ ttl now (ins_key e)
               (cache.mkCacheEntry (ins_data e) (ins_now e + ttl))).
    + reflexivity.
    + cbn [lru.items]. apply lookup_NoDup.
      * rewrite Hkeys. now apply NoDup_rev.
      * rewrite <- in_rev. change (In (ins_entry ttl e) (map (ins_entry ttl) rest)).
        now apply in_map.
    + cbn [cache.ExpiresAt]. now apply Hfresh.
Qed.

Example new_cache_overflow_ex :
  let c0 := cache.New 2 60 true in
  let c := cache.run [ cache.OpSet 0 "a" (bytes_of "A");
                       cache.OpSet 1 "b" (bytes_of "B");
                       cache.OpSet 2 "c" (bytes_of "C") ] c0 in
  Z.of_nat (cache.Len (cache.run [cache.OpGet 5 "x"; cache.OpSet 6 "y" []] c0))
    <= 2
  /\ Z.of_nat (cache.Len c) = 2
  /\ fst (cache.Get c 3 "a") = None
  /\ fst (cache.Get c 3 "b") = Some (bytes_of "B")
  /\ fst (cache.Get c 3 "c") = Some (bytes_of "C").
Proof.
  intros c0 c.
  assert (1 <= 2) as H1 by lia.
  assert (Z.of_nat (List.length [(1, "b", bytes_of "B"); (2, "c", bytes_of "C")])
          = 2) as H2 by reflexivity.
  assert (NoDup (map ins_key [(0, "a", bytes_of "A"); (1, "b", bytes_of "B");
                              (2, "c", bytes_of "C")])) as H3.
  { repeat constructor; simpl; intuition discriminate. }
  assert (forall e : insertion,
            In e [(1, "b", bytes_of "B"); (2, "c", bytes_of "C")] ->
            3 <= ins_now e + cache.ttl (cache.New 2 60 true)) as H4.
  { intros e [<-|[<-|[]]]; vm_compute; discriminate. }
  destruct (new_cache_overflow_evicts_first 2 60
              [cache.OpGet 5 "x"; cache.OpSet 6 "y" []]
              (0, "a", bytes_of "A")
              [(1, "b", bytes_of "B"); (2, "c", bytes_of "C")] 3 H1 H2 H3 H4)
    as (E1 & E2 & E3 & E4).
  split; [exact E1|]. split; [exact E2|]. split; [exact E3|]. split.
  - apply (E4 (1, "b", bytes_of "B")). simpl. auto.
  - apply (E4 (2, "c", bytes_of "C")). simpl. auto.
Qed.

(** C8: [New] with [maxEntries <= 0] builds a disabled cache whatever the
    [enabled] argument is: no store is allocated, [Get] misses on every key
    and [Set] leaves the cache as it is. *)
Theorem New_nonpositive_capacity_disabled
  (maxEntries ttlSeconds : Z) (enabled : bool)
  (ops : list cache.op) (now : Z) (key : string) (data : list byte) :
  maxEntries <= 0 ->
  let c := cache.New maxEntries ttlSeconds enabled in
  c = cache.mkCache None 0 false
  /\ cache.IsEnabled c = false
  /\ cache.Get c now key = (None, c)
  /\ cache.Set_ c now key data = c
  /\ cache.run ops c = c.
Proof.
  intros H c.
  assert (c = cache.mkCache None 0 false) as ->.
  { subst c. unfold cache.New. destruct (Z.leb_spec maxEntries 0); [|lia].
    now rewrite orb_true_r. }
  repeat split. induction ops as [|[n k d|n k] ops IH]; [reflexivity| |]; exact IH.
Qed.

Lemma New_nonpositive_capacity_disabled_witness :
  let c := cache.New 0 60 true in
  cache.lru c = None
  /\ cache.Get (cache.Set_ c 0 "a" (bytes_of "A")) 1 "a" = (None, c).
Proof.
  intro c.
  assert (0 <= 0) as H by lia.
  destruct (New_nonpositive_capacity_disabled 0 60 true [] 1 "a" (bytes_of "A") H)
    as (E & _ & G & _).
  destruct (New_nonpositive_capacity_disabled 0 60 true [] 0 "a" (bytes_of "A") H)
    as (_ & _ & _ & S & _).
  fold c in E, G, S. split; [now rewrite E|]. rewrite S. exact G.
Defined.

End CacheClaims.

(* ================================================================= *)
(** ** Query escaping *)

Section QueryEscapeFacts.

Lemma all_chars_app (p : ascii -> bool) (a b : string) :
  all_chars p (a ++ b) = all_chars p a && all_chars p b.
Proof.
  induction a as [|c a IH]; simpl; [reflexivity|].
  now rewrite IH, andb_assoc.
Qed.

Lemma all_chars_In (p : ascii -> bool) (s : string) :
  all_chars p s = true <-> forall c, In_str c s -> p c = true.
Proof.
  induction s as [|d s IH]; simpl.
  - split; [intros _ c []|reflexivity].
  - rewrite andb_true_iff, IH. split.
    + intros [Hd Hs] c [<-|Hc]; auto.
    + intro H. split; [apply H; auto|]. intros c Hc. apply H; auto.
Qed.

Lemma all_chars_weaken (p p' : ascii -> bool) (s : string) :
  (forall c, p c = true -> p' c = true) ->
  all_chars p s = true -> all_chars p' s = true.
Proof. rewrite !all_chars_In. auto. Qed.

Lemma QueryEscape_cons (c : ascii) (s : string) :
  url.QueryEscape (String c s) = escape_char c ++ url.QueryEscape s.
Proof.
  unfold escape_char. cbn [url.QueryEscape].
  destruct (Ascii.eqb c " "); [reflexivity|].
  destruct (url.shouldEscape c); reflexivity.
Qed.

(** One byte through [QueryEscape] and back. *)
Lemma escape_char_spec (c : ascii) (t : string) :
  all_chars query_safe (escape_char c) = true
  /\ url.QueryUnescape (escape_char c ++ t)
     = option_map (String c) (url.QueryUnescape t).
Proof.
  destruct c as [[] [] [] [] [] [] [] []]; split; reflexivity.
Qed.

Lemma QueryEscape_safe (s : string) :
  all_chars query_safe (url.QueryEscape s) = true.
Proof.
  induction s as [|c s IH]; [reflexivity|].
  rewrite QueryEscape_cons, all_chars_app, IH.
  now rewrite (proj1 (escape_char_spec c "")).
Qed.

Lemma QueryUnescape_QueryEscape (s : string) :
  url.QueryUnescape (url.QueryEscape s) = Some s.
Proof.
  induction s as [|c s IH]; [reflexivity|].
  rewrite QueryEscape_cons, (proj2 (escape_char_spec c _)), IH. reflexivity.
Qed.

Lemma QueryEscape_unreserved (s : string) :
  all_chars unreserved s = true -> url.QueryEscape s = s.
Proof.
  induction s as [|c s IH]; [reflexivity|]. simpl.
  intro H. apply andb_true_iff in H. destruct H as [Hc Hs].
  unfold unreserved in Hc. apply negb_true_iff in Hc. rewrite Hc.
  destruct (Ascii.eqb_spec c " ") as [->|_]; [discriminate|].
  now rewrite IH.
Qed.

End QueryEscapeFacts.

Section EndpointURLs.

Lemma query_safe_excludes (v : string) (c : ascii) :
  all_chars query_safe v = true -> query_safe c = false -> ~ In_str c v.
Proof.
  intros Hv Hc Hin. rewrite all_chars_In in Hv. apply Hv in Hin. congruence.
Qed.

(** X1: the value that [buildSegmentURL] and [buildKeyURL] write after
    [?u=] holds no byte other than letters, digits, [-_.~], [%] and [+] (so
    no [&], [=], [#] or space that would end or split the parameter), and
    [url.QueryUnescape] gives the resolved URL back from it. *)
Theorem endpoint_url_parameter_round_trip
  (r : rewrite.M3U8Rewriter) (target : string) :
  exists v,
    rewrite.buildSegmentURL r target
    = rewrite.baseURL r ++ rewrite.segPrefix r ++ "?u=" ++ v
        ++ (if String.eqb (rewrite.signParams r) "" then ""
            else "&" ++ rewrite.signParams r)
    /\ rewrite.buildKeyURL r target
       = rewrite.baseURL r ++ rewrite.keyPrefix r ++ "?u=" ++ v
           ++ (if String.eqb (rewrite.signParams r) "" then ""
               else "&" ++ rewrite.signParams r)
    /\ url.QueryUnescape v = Some target
    /\ all_chars query_safe v = true
    /\ ~ In_str "&" v /\ ~ In_str "=" v /\ ~ In_str "#" v /\ ~ In_str " " v.
Proof.
  exists (url.QueryEscape target).
  split; [apply buildSegmentURL_shape|]. split; [apply buildKeyURL_shape|].
  split; [apply QueryUnescape_QueryEscape|].
  pose proof (QueryEscape_safe target) as H. split; [exact H|].
  repeat split; apply (query_safe_excludes _ _ H); reflexivity.
Qed.

End EndpointURLs.

(* ================================================================= *)
(** ** More on the signer *)

Section SignerMore.
Local Open Scope Z_scope.

Lemma hex_digit_lower (n : nat) : (n < 16)%nat -> lower_hex (hex.digit n) = true.
Proof.
  intro H. do 16 (destruct n as [|n]; [reflexivity|]). lia.
Qed.

Lemma EncodeToString_lower_hex (src : string) :
  all_chars lower_hex (hex.EncodeToString src) = true.
Proof.
  induction src as [|c src IH]; [reflexivity|].
  cbn [hex.EncodeToString all_chars]. rewrite IH.
  assert (nat_of_ascii c < 256)%nat as Hc by apply nat_ascii_bounded.
  rewrite !hex_digit_lower; [reflexivity| |].
  - apply Nat.mod_upper_bound. lia.
  - apply Nat.Div0.div_lt_upper_bound. exact Hc.
Qed.

Lemma lower_hex_unreserved (c : ascii) :
  lower_hex c = true -> unreserved c = true.
Proof. destruct c as [[] [] [] [] [] [] [] []]; intro H; try discriminate H; reflexivity. Qed.

Lemma digit_or_minus_unreserved (c : ascii) :
  strconv.isDigit c = true \/ c = "-"%char -> unreserved c = true.
Proof.
  intros [H| ->]; [|reflexivity].
  destruct c as [[] [] [] [] [] [] [] []]; try discriminate H; reflexivity.
Qed.

Lemma FormatInt_chars (n : Z) (c : ascii) :
  In_str c (strconv.FormatInt n) -> strconv.isDigit c = true \/ c = "-"%char.
Proof.
  unfold strconv.FormatInt. destruct (Z.ltb_spec n 0) as [Hn|Hn].
  - intros [<-|H]; [now right|]. left.
    apply digits_chars in H; [|lia]. destruct H as [H|[]]. exact H.
  - intro H. left. apply digits_chars in H; [|lia]. destruct H as [H|[]]. exact H.
Qed.

Lemma FormatInt_unreserved (n : Z) :
  all_chars unreserved (strconv.FormatInt n) = true.
Proof.
  apply all_chars_In. intros c Hc.
  apply digit_or_minus_unreserved, FormatInt_chars with (n := n), Hc.
Qed.

(** X2: with signing enabled, [Generate] returns a signature of 64
    lower-case hex digits and the decimal clock value; neither holds a byte
    that [url.QueryEscape] would change, so the query string that
    [BuildSignParams] makes of them is [sign=<sign>&ts=<ts>] verbatim.  With
    signing disabled, [Generate] returns the error. *)
Theorem Generate_output_shape (s : signer.Signer) (now : Z) (url : string) :
  (signer.enabled s = false ->
   signer.Generate s now url = inr "signing is disabled")
  /\ (signer.enabled s = true ->
      exists sign ts,
        signer.Generate s now url = inl (sign, ts)
        /\ String.length sign = 64%nat
        /\ all_chars lower_hex sign = true
        /\ ts = strconv.FormatInt now
        /\ url.QueryEscape sign = sign /\ url.QueryEscape ts = ts
        /\ util.BuildSignParams sign ts = "sign=" ++ sign ++ "&ts=" ++ ts).
Proof.
  unfold signer.Generate. split; intros ->; [reflexivity|]. cbn [negb].
  eexists _, _. split; [reflexivity|].
  set (sign := hex.EncodeToString _).
  assert (url.QueryEscape sign = sign) as Hs.
  { apply QueryEscape_unreserved.
    apply all_chars_weaken with (p := lower_hex);
      [apply lower_hex_unreserved|apply EncodeToString_lower_hex]. }
  assert (url.QueryEscape (strconv.FormatInt now) = strconv.FormatInt now) as Ht
    by apply QueryEscape_unreserved, FormatInt_unreserved.
  split; [apply signature_length|].
  split; [apply EncodeToString_lower_hex|].
  split; [reflexivity|]. split; [exact Hs|]. split; [exact Ht|].
  unfold util.BuildSignParams. rewrite Hs, Ht.
  unfold sign. rewrite signature_nonempty, eqb_FormatInt_empty. reflexivity.
Qed.

Lemma Generate_output_shape_witness :
  signer.Generate (signer.New "k" 600 false) 1700000000 "https://h/a"
  = inr "signing is disabled"
  /\ exists sign ts,
       signer.Generate (signer.New "k" 600 true) 1700000000 "https://h/a"
       = inl (sign, ts)
       /\ util.BuildSignParams sign ts = "sign=" ++ sign ++ "&ts=" ++ ts.
Proof.
  split.
  - apply (Generate_output_shape (signer.New "k" 600 false) 1700000000
             "https://h/a"). reflexivity.
  - destruct (proj2 (Generate_output_shape (signer.New "k" 600 true) 1700000000
                       "https://h/a") eq_refl)
      as (sign & ts & G & _ & _ & _ & _ & _ & B).
    exists sign, ts. split; assumption.
Defined.

(** X3: the life of a token.  A pair issued by [Generate] at the clock
    value [t0 >= 0] is accepted by [Verify] under the same signer at every
    later clock value [now] with [now - t0 <= ttlSeconds], and is rejected
    as expired at every clock value with [now - t0 > ttlSeconds]. *)
Theorem Verify_Generate_expiry
  (secret : string) (ttl t0 now : Z) (url : string) :
  0 <= t0 <= now -> now < 2 ^ 63 ->
  let s := signer.New secret ttl true in
  exists sign ts,
    signer.Generate s t0 url = inl (sign, ts)
    /\ signer.Verify s now url sign ts
       = if now - t0 >? ttl then Some "signature expired" else None.
Proof.
  intros H0 Hn s. eexists _, _. split; [reflexivity|].
  unfold signer.Verify. cbn [s signer.New signer.enabled negb signer.ttlSeconds
                               signer.secret].
  rewrite signature_nonempty, eqb_FormatInt_empty. cbn [orb].
  rewrite ParseInt_FormatInt by lia. rewrite int64_wrap_small by lia.
  destruct (now - t0 >? ttl); [reflexivity|].
  now rewrite String.eqb_refl.
Qed.

Lemma Verify_Generate_expiry_witness :
  let s := signer.New "k" 600 true in
  exists sign ts,
    signer.Generate s 1700000000 "https://h/a" = inl (sign, ts)
    /\ signer.Verify s 1700000600 "https://h/a" sign ts = None.
Proof.
  intro s.
  assert (0 <= 1700000000 <= 1700000600) as H0 by lia.
  assert (1700000600 < 2 ^ 63) as H1 by lia.
  destruct (Verify_Generate_expiry "k" 600 1700000000 1700000600 "https://h/a"
              H0 H1) as (sign & ts & G & V).
  exists sign, ts. split; [exact G|exact V].
Defined.

End SignerMore.

(* ================================================================= *)
(** ** More on the resource cache *)

Section LruMore.
Context {V : Type}.
Implicit Types (l : list (string * V)).

Lemma lookup_In (key : string) (v : V) l :
  lru.lookup key l = Some v -> In (key, v) l.
Proof.
  induction l as [|[k w] l IH]; simpl; [discriminate|].
  destruct (String.eqb_spec k key) as [->|_].
  - intros [= ->]. now left.
  - intro H. right. now apply IH.
Qed.

Lemma remove_In (key : string) (x : string * V) l :
  In x (lru.remove key l) -> In x l.
Proof.
  induction l as [|[k w] l IH]; simpl; [tauto|].
  destruct (String.eqb k key); simpl; intuition.
Qed.

Lemma lookup_remove_same (key : string) l :
  lru.lookup key (lru.remove key l) = None.
Proof.
  induction l as [|[k w] l IH]; simpl; [reflexivity|].
  destruct (String.eqb k key) eqn:E; [exact IH|]. simpl. now rewrite E.
Qed.

Lemma lookup_remove_other (key key' : string) l :
  key <> key' -> lru.lookup key (lru.remove key' l) = lru.lookup key l.
Proof.
  intro Hne. induction l as [|[k w] l IH]; simpl; [reflexivity|].
  destruct (String.eqb_spec k key') as [->|Hk]; simpl.
  - destruct (String.eqb_spec key' key); [congruence|exact IH].
  - now rewrite IH.
Qed.

Lemma removelast_In {A : Type} (x : A) (xs : list A) :
  In x (removelast xs) -> In x xs.
Proof.
  induction xs as [|y xs IH]; simpl; [tauto|].
  destruct xs as [|z xs]; [simpl; tauto|].
  intros [H|H]; [now left|right; now apply IH].
Qed.

Lemma Add_items_In (c : lru.Cache V) (key : string) (v : V) (x : string * V) :
  In x (lru.items (lru.Add c key v)) -> x = (key, v) \/ In x (lru.items c).
Proof.
  unfold lru.Add. destruct (lru.lookup key (lru.items c)).
  - simpl. intros [H|H]; [now left|right; eapply remove_In; eauto].
  - cbn zeta. destruct (_ <? _)%nat; cbn [lru.items]; intro H.
    + apply removelast_In in H. destruct H as [H|H]; auto.
    + destruct H as [H|H]; auto.
Qed.

(** After [Add] the key is found with the value just added, provided the
    capacity is not zero. *)
Lemma lookup_Add_same (c : lru.Cache V) (key : string) (v : V) :
  (1 <= lru.size c)%nat ->
  lru.lookup key (lru.items (lru.Add c key v)) = Some v.
Proof.
  intro Hs. unfold lru.Add. destruct (lru.lookup key (lru.items c)).
  - simpl. now rewrite String.eqb_refl.
  - cbn zeta.
    destruct (Nat.ltb_spec (lru.size c) (List.length ((key, v) :: lru.items c)));
      cbn [lru.items].
    + destruct (lru.items c) as [|y ys]; [simpl in *; lia|].
      change (removelast ((key, v) :: y :: ys))
        with ((key, v) :: removelast (y :: ys)).
      simpl. now rewrite String.eqb_refl.
    + simpl. now rewrite String.eqb_refl.
Qed.

End LruMore.

Section CacheMore.
Local Open Scope Z_scope.

Lemma New_cases (maxEntries ttlSeconds : Z) (enabled : bool) :
  cache.New maxEntries ttlSeconds enabled = cache.mkCache None 0 false
  \/ (1 <= maxEntries
      /\ cache.New maxEntries ttlSeconds enabled
         = cache.mkCache (Some (lru.mkCache (Z.to_nat maxEntries) []))
             (int64_wrap (ttlSeconds * cache.Second)) true).
Proof.
  unfold cache.New. destruct enabled; cbn [negb orb]; [|now left].
  destruct (Z.leb_spec maxEntries 0); [now left|right]. split; [lia|reflexivity].
Qed.

Lemma step_ttl (c : cache.Cache) (o : cache.op) :
  cache.ttl (cache.step c o) = cache.ttl c.
Proof.
  destruct o as [now key data|now key]; unfold cache.step, cache.Set_, cache.Get.
  - destruct (negb (cache.enabled c)); [reflexivity|].
    destruct (cache.lru c); reflexivity.
  - destruct (negb (cache.enabled c)); [reflexivity|].
    destruct (cache.lru c) as [l|]; [|reflexivity].
    destruct (lru.Get l key) as [[entry|] l']; [|reflexivity].
    destruct (now >? cache.ExpiresAt entry); reflexivity.
Qed.

Lemma step_entries_from (ops : list cache.op) (ttl : Z) (c : cache.Cache)
    (o : cache.op) :
  cache.ttl c = ttl -> entries_from ops ttl c ->
  entries_from (ops ++ [o]) ttl (cache.step c o).
Proof.
  intros Ht H l key entry Hl Hin.
  assert (forall l0 k e, cache.lru c = Some l0 -> In (k, e) (lru.items l0) ->
            exists t, In (cache.OpSet t k (cache.Data e)) (ops ++ [o])
                      /\ cache.ExpiresAt e = t + ttl) as H'.
  { intros l0 k e Hl0 Hi. destruct (H l0 k e Hl0 Hi) as (t & Hop & He).
    exists t. split; [apply in_or_app; now left|exact He]. }
  destruct o as [now k d|now k]; unfold cache.step, cache.Set_, cache.Get in Hl.
  - destruct (negb (cache.enabled c)); [now apply (H' l)|].
    destruct (cache.lru c) as [l0|] eqn:E; [|congruence].
    cbn [cache.lru] in Hl. injection Hl as <-.
    apply Add_items_In in Hin. destruct Hin as [[= -> ->]|Hin].
    + exists now. split; [apply in_or_app; right; now left|].
      cbn [cache.ExpiresAt]. now rewrite Ht.
    + now apply (H' l0).
  - destruct (negb (cache.enabled c)); [now apply (H' l)|].
    destruct (cache.lru c) as [l0|] eqn:E; [|cbn [snd] in Hl; congruence].
    unfold lru.Get in Hl.
    destruct (lru.lookup k (lru.items l0)) as [e0|] eqn:El.
    + apply lookup_In in El.
      destruct (now >? cache.ExpiresAt e0); cbn [snd cache.lru] in Hl;
        injection Hl as <-; cbn [lru.Remove lru.items] in Hin.
      * apply remove_In in Hin. simpl in Hin.
        destruct Hin as [[= -> ->]|Hin]; apply (H' l0); auto.
        eapply remove_In; eauto.
      * destruct Hin as [[= -> ->]|Hin]; apply (H' l0); auto.
        eapply remove_In; eauto.
    + cbn [snd cache.lru] in Hl. injection Hl as <-. now apply (H' l0).
Qed.

Lemma run_app (ops1 ops2 : list cache.op) (c : cache.Cache) :
  cache.run (ops1 ++ ops2) c = cache.run ops2 (cache.run ops1 c).
Proof. apply fold_left_app. Qed.

Lemma run_ttl (ops : list cache.op) (c : cache.Cache) :
  cache.ttl (cache.run ops c) = cache.ttl c.
Proof.
  revert c; induction ops as [|o ops IH]; intro c; [reflexivity|].
  simpl. unfold cache.run in IH. now rewrite IH, step_ttl.
Qed.

Lemma run_entries_from (ops : list cache.op) (c0 : cache.Cache) :
  (forall l, cache.lru c0 = Some l -> lru.items l = []) ->
  entries_from ops (cache.ttl c0) (cache.run ops c0).
Proof.
  intro H0. induction ops as [|o ops IH] using rev_ind.
  - intros l key entry Hl Hin. simpl in Hl. rewrite (H0 l Hl) in Hin.
    destruct Hin.
  - rewrite run_app. apply step_entries_from; [apply run_ttl|exact IH].
Qed.

(** X4: whatever the history of [Set] and [Get] calls on a cache built by
    [New], a [Get] that returns bytes returns the bytes of a [Set] made for
    that very key, and runs no later than [ttl] after that [Set]: nothing is
    served for another key or past its expiry. *)
Theorem Get_serves_only_fresh_stored_data
  (maxEntries ttlSeconds : Z) (enabled : bool) (ops : list cache.op)
  (now : Z) (key : string) (data : list byte) :
  let c0 := cache.New maxEntries ttlSeconds enabled in
  fst (cache.Get (cache.run ops c0) now key) = Some data ->
  exists t, In (cache.OpSet t key data) ops /\ now <= t + cache.ttl c0.
Proof.
  intros c0 Hget.
  assert (entries_from ops (cache.ttl c0) (cache.run ops c0)) as Hinv.
  { apply run_entries_from. subst c0.
    destruct (New_cases maxEntries ttlSeconds enabled) as [-> | [_ ->]];
      cbn [cache.lru]; [discriminate|]. now intros l [= <-]. }
  set (c := cache.run ops c0) in *. unfold cache.Get in Hget.
  destruct (negb (cache.enabled c)); [discriminate|].
  destruct (cache.lru c) as [l|] eqn:El; [|discriminate].
  unfold lru.Get in Hget.
  destruct (lru.lookup key (lru.items l)) as [e|] eqn:Ek; [|discriminate].
  destruct (Z.gtb_spec now (cache.ExpiresAt e)) as [Hx|Hx]; [discriminate|].
  cbn [fst] in Hget. injection Hget as <-.
  apply lookup_In in Ek. destruct (Hinv l key e El Ek) as (t & Hop & He).
  exists t. split; [exact Hop|lia].
Qed.

Lemma Get_serves_only_fresh_stored_data_witness :
  exists t,
    In (cache.OpSet t "a" (bytes_of "A"))
       [cache.OpSet 5 "a" (bytes_of "A"); cache.OpGet 6 "b"]
    /\ 7 <= t + cache.ttl (cache.New 2 60 true).
Proof.
  apply (Get_serves_only_fresh_stored_data 2 60 true
           [cache.OpSet 5 "a" (bytes_of "A"); cache.OpGet 6 "b"] 7 "a"
           (bytes_of "A")).
  reflexivity.
Defined.

End CacheMore.

Section CacheRoundTrips.
Local Open Scope Z_scope.

Lemma reachable_inv (N ttlSeconds : Z) (ops : list cache.op) :
  1 <= N ->
  cache_inv (Z.to_nat N) (int64_wrap (ttlSeconds * cache.Second))
    (cache.run ops (cache.New N ttlSeconds true)).
Proof.
  intro HN. apply run_inv. rewrite New_enabled by exact HN.
  eexists. repeat split; simpl; lia.
Qed.

Lemma Get_expired (l : lru.Cache cache.CacheEntry) (ttl now : Z)
    (key : string) (entry : cache.CacheEntry) :
  lru.lookup key (lru.items l) = Some entry ->
  now > cache.ExpiresAt entry ->
  fst (cache.Get (cache.mkCache (Some l) ttl true) now key) = None.
Proof.
  intros Hl Hn. unfold cache.Get, lru.Get. cbn [cache.enabled negb cache.lru].
  rewrite Hl. destruct (Z.gtb_spec now (cache.ExpiresAt entry)); [|lia].
  reflexivity.
Qed.

(** X5: on an enabled cache of capacity at least 1, in any state reached by
    [Set] and [Get] calls, a [Set] followed by a [Get] of the same key
    returns the bytes just stored when the [Get] runs at most [ttl] after
    the [Set], and nothing when it runs later; an earlier value under the
    key is overwritten. *)
Theorem Set_then_Get
  (N ttlSeconds : Z) (ops : list cache.op)
  (t now : Z) (key : string) (data : list byte) :
  1 <= N ->
  let c := cache.run ops (cache.New N ttlSeconds true) in
  fst (cache.Get (cache.Set_ c t key data) now key)
  = if now >? t + cache.ttl c then None else Some data.
Proof.
  intros HN c.
  destruct (reachable_inv N ttlSeconds ops HN) as (l & Hl & Hs & Hlen & Ht & He).
  fold c in Hl, Ht, He.
  unfold cache.Set_. rewrite He, Hl. cbn [negb].
  pose proof (lookup_Add_same l key (cache.mkCacheEntry data (t + cache.ttl c))
                ltac:(lia)) as Hk.
  destruct (Z.gtb_spec now (t + cache.ttl c)).
  - eapply Get_expired; [exact Hk|]. cbn [cache.ExpiresAt]. lia.
  - rewrite (Get_hit _ _ now key
               (cache.mkCacheEntry data (t + cache.ttl c)));
      [reflexivity|exact Hk|]. cbn [cache.ExpiresAt]. lia.
Qed.

Lemma Set_then_Get_witness :
  let c := cache.run [cache.OpSet 0 "a" (bytes_of "old")] (cache.New 1 60 true) in
  fst (cache.Get (cache.Set_ c 10 "a" (bytes_of "new")) 60000000010 "a")
  = Some (bytes_of "new")
  /\ fst (cache.Get (cache.Set_ c 10 "a" (bytes_of "new")) 60000000011 "a")
     = None.
Proof.
  intro c.
  assert (1 <= 1) as H by lia.
  split.
  - apply (Set_then_Get 1 60 [cache.OpSet 0 "a" (bytes_of "old")] 10
             60000000010 "a" (bytes_of "new") H).
  - apply (Set_then_Get 1 60 [cache.OpSet 0 "a" (bytes_of "old")] 10
             60000000011 "a" (bytes_of "new") H).
Defined.

Lemma Get_Len_le (c : cache.Cache) (now : Z) (key : string) :
  (cache.Len (snd (cache.Get c now key)) <= cache.Len c)%nat.
Proof.
  unfold cache.Get, cache.Len.
  destruct (negb (cache.enabled c)); [cbn [snd]; lia|].
  destruct (cache.lru c) as [l|] eqn:El; [|cbn [snd]; rewrite El; lia].
  pose proof (Get_length l key) as Hg.
  destruct (lru.Get l key) as [[e|] l']; cbn [snd] in Hg |- *.
  - destruct (now >? cache.ExpiresAt e); cbn [snd cache.lru];
      unfold lru.Len, lru.Remove in *; cbn [lru.items]; [|exact Hg].
    pose proof (remove_length_le key (lru.items l')). lia.
  - exact Hg.
Qed.

Lemma Get_miss_absent (c : cache.Cache) (now now' : Z) (key : string) :
  fst (cache.Get c now key) = None ->
  fst (cache.Get (snd (cache.Get c now key)) now' key) = None.
Proof.
  intro H. unfold cache.Get in H |- *.
  destruct (negb (cache.enabled c)) eqn:En; cbn [snd]; [now rewrite En|].
  destruct (cache.lru c) as [l|] eqn:El; cbn [snd]; [|now rewrite En, El].
  unfold lru.Get in H |- *.
  destruct (lru.lookup key (lru.items l)) as [e|] eqn:Ek.
  - destruct (now >? cache.ExpiresAt e); [|discriminate H].
    cbn [snd cache.enabled cache.lru]. rewrite En.
    unfold lru.Remove. cbn [lru.items].
    now rewrite lookup_remove_same.
  - cbn [snd cache.enabled cache.lru]. rewrite En, Ek. reflexivity.
Qed.

(** X6: a [Get] that misses, because the key is absent or because its
    entry has expired, leaves a cache in which the key is absent: the
    expired entry is removed, the cache does not grow, and every later [Get]
    of the key misses, whatever the clock says, until the key is set
    again. *)
Theorem Get_miss_removes_entry
  (c : cache.Cache) (now now' : Z) (key : string) :
  fst (cache.Get c now key) = None ->
  fst (cache.Get (snd (cache.Get c now key)) now' key) = None
  /\ (cache.Len (snd (cache.Get c now key)) <= cache.Len c)%nat.
Proof.
  unfold cache.Get at 1 3 4.
  destruct (negb (cache.enabled c)) eqn:En.
  { intros _. cbn [snd]. unfold cache.Get. rewrite En. split; [reflexivity|lia]. }
  destruct (cache.lru c) as [l|] eqn:El.
  2:{ intros _. cbn [snd]. unfold cache.Get. rewrite En, El.
      split; [reflexivity|lia]. }
  unfold lru.Get. destruct (lru.lookup key (lru.items l)) as [e|] eqn:Ek.
  - destruct (now >? cache.ExpiresAt e); [|discriminate]. intros _.
    cbn [snd]. unfold cache.Get, cache.Len. cbn [cache.enabled cache.lru].
    rewrite En, El. unfold lru.Get, lru.Remove, lru.Len. cbn [lru.items].
    assert (lru.lookup key (lru.remove key ((key, e) :: lru.remove key (lru.items l)))
            = None) as -> by apply lookup_remove_same.
    split; [reflexivity|].
    cbn [lru.remove]. rewrite String.eqb_refl.
    pose proof (remove_length_le key (lru.remove key (lru.items l))).
    pose proof (remove_length_le key (lru.items l)). lia.
  - intros _. cbn [snd]. unfold cache.Get, cache.Len.
    cbn [cache.enabled cache.lru]. rewrite En, El. unfold lru.Get.
    rewrite Ek. split; [reflexivity|lia].
Qed.

Lemma Get_miss_removes_entry_witness :
  let c := cache.Set_ (cache.New 2 60 true) 0 "a" (bytes_of "A") in
  fst (cache.Get (snd (cache.Get c 60000000001 "a")) 1 "a") = None
  /\ (cache.Len (snd (cache.Get c 60000000001 "a")) <= cache.Len c)%nat.
Proof.
  intro c. apply (Get_miss_removes_entry c 60000000001 1 "a"). reflexivity.
Defined.

End CacheRoundTrips.

Section CacheRecency.
Local Open Scope Z_scope.

Lemma lookup_Add_front (l : lru.Cache cache.CacheEntry)
    (key key' : string) (e e' : cache.CacheEntry)
    (rest : list (string * cache.CacheEntry)) :
  key <> key' -> (2 <= lru.size l)%nat ->
  lru.items l = (key, e) :: rest ->
  lru.lookup key (lru.items (lru.Add l key' e')) = Some e.
Proof.
  intros Hne Hs Hl. unfold lru.Add. rewrite Hl.
  assert (String.eqb key key' = false) as Hkk by now apply String.eqb_neq.
  assert (String.eqb key' key = false) as Hkk'
    by (apply String.eqb_neq; congruence).
  cbn [lru.lookup]. rewrite Hkk.
  destruct (lru.lookup key' rest).
  - cbn [lru.items lru.remove lru.lookup]. rewrite Hkk, Hkk'.
    cbn [lru.lookup]. now rewrite String.eqb_refl.
  - cbn zeta.
    destruct (Nat.ltb_spec (lru.size l)
                (List.length ((key', e') :: (key, e) :: rest)));
      cbn [lru.items].
    + destruct rest as [|y ys]; [simpl in *; lia|].
      change (removelast ((key', e') :: (key, e) :: y :: ys))
        with ((key', e') :: (key, e) :: removelast (y :: ys)).
      cbn [lru.lookup]. now rewrite Hkk', String.eqb_refl.
    + cbn [lru.lookup]. now rewrite Hkk', String.eqb_refl.
Qed.

(** X7: reading refreshes an entry.  On an enabled cache of capacity at
    least 2, in any reachable state, a key that a [Get] has just returned is
    not the one that the next [Set] of another key pushes out: the same
    [Get] after that [Set] still returns its bytes. *)
Theorem Get_hit_survives_next_Set
  (N ttlSeconds : Z) (ops : list cache.op)
  (now t : Z) (key key' : string) (data data' : list byte) :
  2 <= N -> key <> key' ->
  let c := cache.run ops (cache.New N ttlSeconds true) in
  fst (cache.Get c now key) = Some data ->
  fst (cache.Get (cache.Set_ (snd (cache.Get c now key)) t key' data') now key)
  = Some data.
Proof.
  intros HN Hne c.
  destruct (reachable_inv N ttlSeconds ops ltac:(lia))
    as (l & Hl & Hs & Hlen & Ht & He).
  fold c in Hl, Ht, He.
  unfold cache.Get at 1 3. rewrite He, Hl. cbn [negb]. unfold lru.Get.
  destruct (lru.lookup key (lru.items l)) as [e|] eqn:Ek; [|discriminate].
  destruct (Z.gtb_spec now (cache.ExpiresAt e)) as [Hx|Hx]; [discriminate|].
  cbn [fst snd]. intros [= <-].
  unfold cache.Set_. cbn [cache.enabled cache.lru cache.ttl negb].
  apply Get_hit; [|exact Hx].
  apply (lookup_Add_front _ key key' e _ (lru.remove key (lru.items l)));
    [exact Hne|cbn [lru.size]; lia|reflexivity].
Qed.

Lemma Get_hit_survives_next_Set_witness :
  let c := cache.run [ cache.OpSet 0 "a" (bytes_of "A");
                       cache.OpSet 1 "b" (bytes_of "B") ]
             (cache.New 2 60 true) in
  fst (cache.Get (cache.Set_ (snd (cache.Get c 2 "a")) 3 "c" (bytes_of "C")) 2 "a")
  = Some (bytes_of "A").
Proof.
  intro c.
  assert (2 <= 2) as H by lia.
  assert ("a" <> "c") as Hne by discriminate.
  apply (Get_hit_survives_next_Set 2 60
           [cache.OpSet 0 "a" (bytes_of "A"); cache.OpSet 1 "b" (bytes_of "B")]
           2 3 "a" "c" (bytes_of "A") (bytes_of "C") H Hne).
  reflexivity.
Defined.

End CacheRecency.

(* ================================================================= *)
(** ** Eviction follows the order of use *)

Section Recency.
Local Open Scope Z_scope.









Context {V : Type}.






End Recency.

Section LruOrder.
Local Open Scope Z_scope.








End LruOrder.

Section CacheEviction.
Local Open Scope Z_scope.



End CacheEviction.

(* ================================================================= *)
(** ** [TrimSpace] is idempotent; [SanitizeURL] *)

Section TrimFacts.

Lemma strip_one_None_iff (encs : list string) (s : string) :
  strings.strip_one encs s = None
  <-> forall e, In e encs -> String.prefix e s = false.
Proof.
  induction encs as [|e encs IH]; simpl.
  - split; [intros _ e []|reflexivity].
  - destruct (String.prefix e s) eqn:E.
    + split; [discriminate|]. intro H. specialize (H e (or_introl eq_refl)).
      congruence.
    + rewrite IH. split.
      * intros H e' [<-|H']; auto.
      * intros H e' H'. apply H. now right.
Qed.

Lemma strip_one_shorter (encs : list string) (s s' : string) :
  Forall (fun e => e <> "") encs ->
  strings.strip_one encs s = Some s' ->
  (String.length s' < String.length s)%nat.
Proof.
  induction encs as [|e encs IH]; simpl; intros Hne H; [discriminate|].
  inversion Hne as [|? ? He Hne']; subst.
  destruct (String.prefix e s) eqn:E; [|now apply IH].
  injection H as <-. apply prefix_drop in E.
  rewrite E at 2. rewrite append_length.
  destruct e; [congruence|]. simpl. lia.
Qed.

Lemma strip_all_done (fuel : nat) (encs : list string) (s : string) :
  Forall (fun e => e <> "") encs ->
  (String.length s <= fuel)%nat ->
  strings.strip_one encs (strings.strip_all fuel encs s) = None.
Proof.
  intro Hne. revert s; induction fuel as [|fuel IH]; intros s Hlen; simpl.
  - destruct s; [|simpl in Hlen; lia].
    apply strip_one_None_iff. intros e He.
    rewrite Forall_forall in Hne. specialize (Hne e He).
    destruct e; [congruence|reflexivity].
  - destruct (strings.strip_one encs s) as [s'|] eqn:E; [|exact E].
    apply IH. pose proof (strip_one_shorter encs s s' Hne E). lia.
Qed.

Lemma strip_all_fixed (fuel : nat) (encs : list string) (s : string) :
  strings.strip_one encs s = None -> strings.strip_all fuel encs s = s.
Proof. intro H. destruct fuel; simpl; [reflexivity|now rewrite H]. Qed.

Lemma space_encodings_nonempty :
  Forall (fun e => e <> "") strings.space_encodings
  /\ Forall (fun e => e <> "") (map rev strings.space_encodings).
Proof. split; repeat constructor; discriminate. Qed.

Lemma TrimLeftSpace_done (s : string) :
  strings.strip_one strings.space_encodings (strings.TrimLeftSpace s) = None.
Proof.
  apply strip_all_done; [apply space_encodings_nonempty|lia].
Qed.

Lemma TrimRightSpace_prefix (s : string) :
  exists b, s = strings.TrimRightSpace s ++ b.
Proof.
  unfold strings.TrimRightSpace.
  destruct (strip_all_suffix (String.length s)
              (map rev strings.space_encodings) (rev s)) as [a Ha].
  exists (rev a). rewrite <- rev_app, <- Ha. symmetry. apply rev_involutive.
Qed.

Lemma TrimRightSpace_done (s : string) :
  strings.strip_one (map rev strings.space_encodings)
    (rev (strings.TrimRightSpace s)) = None.
Proof.
  unfold strings.TrimRightSpace. rewrite rev_involutive.
  apply strip_all_done; [apply space_encodings_nonempty|].
  assert (forall x acc, String.length (rev_append x acc)
                        = (String.length x + String.length acc)%nat) as H.
  { induction x as [|c x IH]; intro acc; simpl; [reflexivity|].
    rewrite IH. simpl. lia. }
  unfold rev. rewrite H. simpl. lia.
Qed.

(** Trimming what has been trimmed changes nothing. *)
Lemma TrimSpace_idempotent (s : string) :
  strings.TrimSpace (strings.TrimSpace s) = strings.TrimSpace s.
Proof.
  unfold strings.TrimSpace.
  set (a := strings.TrimLeftSpace s).
  set (b := strings.TrimRightSpace a).
  assert (strings.TrimLeftSpace b = b) as ->.
  { apply strip_all_fixed. apply strip_one_None_iff. intros e He.
    pose proof (TrimLeftSpace_done s) as Ha. fold a in Ha.
    rewrite strip_one_None_iff in Ha. specialize (Ha e He).
    destruct (String.prefix e b) eqn:E; [|reflexivity].
    apply prefix_app in E. destruct E as [x Ex].
    destruct (TrimRightSpace_prefix a) as [t Ht]. fold b in Ht.
    assert (String.prefix e a = true) as Hp.
    { apply prefix_app. exists (x ++ t). now rewrite Ht, Ex, append_assoc. }
    congruence. }
  unfold strings.TrimRightSpace at 1.
  rewrite strip_all_fixed by apply TrimRightSpace_done.
  apply rev_involutive.
Qed.

Lemma SanitizeURL_cases (input : string) :
  let t := strings.TrimSpace input in
  util.SanitizeURL input = ""
  \/ (util.SanitizeURL input = t /\ t <> ""
      /\ (strings.HasPrefix t "http://" = true
          \/ strings.HasPrefix t "https://" = true)).
Proof.
  intro t. unfold util.SanitizeURL. fold t.
  destruct (String.eqb_spec t ""); [now left|].
  destruct (strings.HasPrefix t "http://") eqn:H1; cbn [negb andb]; [right; auto|].
  destruct (strings.HasPrefix t "https://") eqn:H2; cbn [negb]; [right; auto|].
  now left.
Qed.

Lemma SanitizeURL_fixed (t : string) :
  strings.TrimSpace t = t -> t <> "" ->
  strings.HasPrefix t "http://" = true \/ strings.HasPrefix t "https://" = true ->
  util.SanitizeURL t = t.
Proof.
  intros Ht Hne Hp. unfold util.SanitizeURL. rewrite Ht.
  destruct (String.eqb_spec t ""); [contradiction|].
  destruct Hp as [-> | ->]; [reflexivity|]. now rewrite andb_false_r.
Qed.

(** X8: [SanitizeURL] returns either the empty string or its trimmed
    argument, and the latter only when that starts with [http://] or
    [https://]; the result has no white space at either end, and
    sanitising it again changes nothing. *)
Theorem SanitizeURL_result (input : string) :
  (util.SanitizeURL input = ""
   \/ (util.SanitizeURL input = strings.TrimSpace input
       /\ (strings.HasPrefix (util.SanitizeURL input) "http://" = true
           \/ strings.HasPrefix (util.SanitizeURL input) "https://" = true)))
  /\ strings.TrimSpace (util.SanitizeURL input) = util.SanitizeURL input
  /\ util.SanitizeURL (util.SanitizeURL input) = util.SanitizeURL input.
Proof.
  destruct (SanitizeURL_cases input) as [E|(E & Hne & Hp)]; rewrite E.
  - split; [now left|]. split; reflexivity.
  - split; [right; auto|]. split; [apply TrimSpace_idempotent|].
    apply SanitizeURL_fixed; [apply TrimSpace_idempotent|exact Hne|exact Hp].
Qed.

End TrimFacts.

(* ================================================================= *)
(** ** Recognising a playlist; content types *)

Example IsM3U8Content_ex :
  rewrite.IsM3U8Content (lines ["#EXTM3U"; "#EXT-X-VERSION:3"; "seg1.ts"]) = true
  /\ rewrite.IsM3U8Content (lines [""; "  "; "# comment"; " #EXTM3U"]) = true
  /\ rewrite.IsM3U8Content (lines ["seg1.ts"; "#EXTM3U"]) = false
  /\ rewrite.IsM3U8Content "" = false
  /\ rewrite.IsM3U8Content (lines ["# only comments"; ""]) = false.
Proof. repeat split; vm_compute; reflexivity. Qed.

Example bufio_Lines_ex :
  bufio.Lines ("a" ++ String (ascii_of_nat 13) (String newline ("" ++ String newline "b")))
  = ["a"; ""; "b"]
  /\ bufio.Lines (String "a" (String newline "")) = ["a"].
Proof. split; vm_compute; reflexivity. Qed.

Example GetContentType_ex :
  util.GetContentType (fun s => s) "https://h/a/INDEX.M3U8?x=1"
  = "application/vnd.apple.mpegurl"
  /\ util.GetContentType (fun s => s) "https://h/seg1.ts" = "video/mp2t"
  /\ util.GetContentType (fun s => s) "https://h/v.mp4?next=.ts" = "video/mp2t"
  /\ util.GetContentType (fun s => s) "https://h/k.key" = "application/octet-stream"
  /\ util.GetContentType (fun s => s) "https://h.tsx/blob" = "video/mp2t".
Proof. repeat split; vm_compute; reflexivity. Qed.

Section ScannerFacts.
Local Open Scope Z_scope.









End ScannerFacts.

(* ================================================================= *)
(** ** The header rules *)

Section HeaderFacts.

Lemma Header_Get_Set (h : http.Header) (key value key' : string) :
  http.Header_Get (http.Header_Set h key value) key'
  = if String.eqb key key' then value else http.Header_Get h key'.
Proof.
  induction h as [|[k v] h IH]; simpl.
  - reflexivity.
  - destruct (String.eqb_spec k key) as [->|Hk]; simpl.
    + destruct (String.eqb key key'); reflexivity.
    + rewrite IH. destruct (String.eqb_spec key key') as [E|Hk'];
        [|reflexivity].
      destruct (String.eqb_spec k key'); [congruence|reflexivity].
Qed.

Lemma Header_Get_fold_Set (l : list (string * string)) (h : http.Header)
    (key : string) :
  http.Header_Get
    (fold_left (fun res kv => http.Header_Set res (fst kv) (snd kv)) l h) key
  = match lastSet l key with
    | Some v => v
    | None => http.Header_Get h key
    end.
Proof.
  unfold lastSet. revert h. induction l as [|[k v] l IH] using rev_ind; intro h.
  - reflexivity.
  - rewrite fold_left_app, rev_app_distr. cbn [fold_left List.rev app find fst snd].
    rewrite Header_Get_Set.
    destruct (String.eqb k key); [reflexivity|]. apply IH.
Qed.

Lemma Header_Get_applyRule (re : string -> string -> option bool)
    (hostname : string) (h : http.Header) (rule : config.HeaderRule)
    (key : string) :
  http.Header_Get (headers.applyRule re hostname h rule) key
  = if headers.matchesRule re hostname rule then
      match ruleValue hostname rule key with
      | Some v => v
      | None => http.Header_Get h key
      end
    else http.Header_Get h key.
Proof.
  unfold headers.applyRule, ruleValue.
  destruct (headers.matchesRule re hostname rule); [|reflexivity].
  destruct (config.HostRewrite rule); cbn [andb].
  - rewrite Header_Get_Set, String.eqb_sym.
    destruct (String.eqb key "Host"); [reflexivity|].
    apply Header_Get_fold_Set.
  - apply Header_Get_fold_Set.
Qed.

Lemma Header_Get_fold_rules (re : string -> string -> option bool)
    (hostname : string) (rules : list config.HeaderRule) (h : http.Header)
    (key : string) :
  http.Header_Get (fold_left (headers.applyRule re hostname) rules h) key
  = match lastRuleValue re hostname (List.rev rules) key with
    | Some v => v
    | None => http.Header_Get h key
    end.
Proof.
  revert h. induction rules as [|rule rules IH] using rev_ind; intro h.
  - reflexivity.
  - rewrite fold_left_app, rev_app_distr. cbn [fold_left List.rev app lastRuleValue].
    rewrite Header_Get_applyRule.
    destruct (headers.matchesRule re hostname rule); [|apply IH].
    destruct (ruleValue hostname rule key); [reflexivity|apply IH].
Qed.

(** X10: the header map that [ProcessHeaders] returns, read key by key.
    For a URL that does not parse it is the original map.  Otherwise the
    value of a key is given by the last rule, in list order, that matches
    the host name and assigns the key (its [hostRewrite] assigns [Host] the
    host name and prevails over a [Host] entry of its own [set] map, else
    its [set] map assigns its keys); a key that no matching rule assigns
    keeps its original value. *)
Theorem ProcessHeaders_value
  (L : url.Lib) (re : string -> string -> option bool)
  (hm : headers.HeaderManager) (targetURL : string)
  (originalHeaders : http.Header) (key : string) :
  http.Header_Get (headers.ProcessHeaders L re hm targetURL originalHeaders) key
  = match url.Parse L targetURL with
    | None => http.Header_Get originalHeaders key
    | Some parsed =>
        match lastRuleValue re (url.Hostname L parsed)
                (List.rev (headers.rules hm)) key with
        | Some v => v
        | None => http.Header_Get originalHeaders key
        end
    end.
Proof.
  unfold headers.ProcessHeaders.
  destruct (url.Parse L targetURL); [apply Header_Get_fold_rules|reflexivity].
Qed.

Example ProcessHeaders_ex :
  let rules :=
    [ config.mkHeaderRule "example.com" false
        [("Referer", "https://example.com/"); ("Host", "from-set")] true;
      config.mkHeaderRule "cdn" false [("Referer", "https://cdn/")] false;
      config.mkHeaderRule "other" false [("Cookie", "x=1")] false ] in
  let h := headers.ProcessHeaders simpleurl.lib (fun _ _ => None)
             (headers.New rules) "https://cdn.example.com:8443/a.m3u8"
             [("User-Agent", "UA")] in
  http.Header_Get h "User-Agent" = "UA"
  /\ http.Header_Get h "Referer" = "https://cdn/"
  /\ http.Header_Get h "Host" = "cdn.example.com"
  /\ http.Header_Get h "Cookie" = "".
Proof. repeat split; reflexivity. Qed.

End HeaderFacts.

(* ================================================================= *)
(** ** Streaming a payload *)

Section WriterFacts.
Local Open Scope Z_scope.

Lemma SetHeader_fresh (h : http.Header) (b : list byte) (k v : string) :
  http.SetHeader (http.mkW h None b) k v = http.mkW (http.Header_Set h k v) None b.
Proof. reflexivity. Qed.

Lemma WriteHeader_fresh (h : http.Header) (b : list byte) (c : Z) :
  http.WriteHeader (http.mkW h None b) c = http.mkW h (Some c) b.
Proof. reflexivity. Qed.

Lemma Write_fresh (h : http.Header) (b x : list byte) :
  http.Write (http.mkW h None b) x = http.mkW h (Some 200) (b ++ x).
Proof. reflexivity. Qed.

Lemma Write_written (h : http.Header) (c : Z) (b x : list byte) :
  http.Write (http.mkW h (Some c) b) x = http.mkW h (Some c) (b ++ x).
Proof. reflexivity. Qed.

Lemma Error_fresh (h : http.Header) (msg : string) (code : Z) :
  http.Error (http.newW h) msg code
  = http.mkW
      (http.Header_Set
         (http.Header_Set h "Content-Type" "text/plain; charset=utf-8")
         "X-Content-Type-Options" "nosniff")
      (Some code) (list_byte_of_string (msg ++ String newline "")).
Proof. reflexivity. Qed.

End WriterFacts.

Ltac writer :=
  repeat first [ rewrite SetHeader_fresh | rewrite WriteHeader_fresh
               | rewrite Write_fresh | rewrite Write_written ].

Section StreamFacts.
Local Open Scope Z_scope.

(** X11: what [streamContent] writes on a fresh response writer.  The
    content type is the one given and [Accept-Ranges] is [bytes].  Without
    a [Range] header the status is 200 and the body the whole payload, with
    its length in [Content-Length].  With a [Range] header the response is
    either 206 with a body of [end - start + 1] bytes, that number in
    [Content-Length] and [bytes start-end/length] in [Content-Range], or 416
    with an empty body while [Content-Length] still announces the length of
    the whole payload. *)
Theorem streamContent_response
  (h : http.Header) (r : http.Request) (content : list byte)
  (contentType : string) :
  let w := main.streamContent (http.newW h) r content contentType in
  let len := Z.of_nat (List.length content) in
  let range := http.Header_Get (http.ReqHeader r) "Range" in
  http.Header_Get (http.W_Header w) "Content-Type" = contentType
  /\ http.Header_Get (http.W_Header w) "Accept-Ranges" = "bytes"
  /\ ((range = "" /\ http.W_Status w = Some 200 /\ http.W_Body w = content
       /\ http.Header_Get (http.W_Header w) "Content-Length" = strconv.Itoa len)
      \/ (range <> "" /\ http.W_Status w = Some 206
          /\ exists start end_,
               0 <= start <= end_ /\ end_ < len
               /\ http.W_Body w = server.slice content start (end_ + 1)
               /\ Z.of_nat (List.length (http.W_Body w)) = end_ - start + 1
               /\ http.Header_Get (http.W_Header w) "Content-Length"
                  = strconv.Itoa (end_ - start + 1)
               /\ http.Header_Get (http.W_Header w) "Content-Range"
                  = "bytes " ++ strconv.Itoa start ++ "-" ++ strconv.Itoa end_
                      ++ "/" ++ strconv.Itoa len)
      \/ (range <> "" /\ http.W_Status w = Some 416 /\ http.W_Body w = []
          /\ http.Header_Get (http.W_Header w) "Content-Length"
             = strconv.Itoa len)).
Proof.
  intros w len range. subst w. unfold main.streamContent. fold range. fold len.
  unfold http.newW. writer.
  destruct (String.eqb_spec range "") as [E|E]; cbn [negb].
  - writer. cbn [http.W_Status http.W_Header http.W_Body app].
    rewrite !Header_Get_Set. cbn [String.eqb Ascii.eqb Bool.eqb].
    repeat split; try reflexivity. left. repeat split; auto.
  - unfold main.writeRange.
    destruct (handleRangeRequest_inv content range)
      as [H|(p0 & p1 & st & en & _ & _ & _ & H1 & H2 & H)]; rewrite H.
    + cbn [server.notSatisfiable server.Header server.StatusCode server.Body
           fold_left].
      writer.
      change (server.StatusRequestedRangeNotSatisfiable
              =? server.StatusPartialContent) with false. cbn iota.
      cbn [http.W_Status http.W_Header http.W_Body].
      rewrite !Header_Get_Set. cbn [String.eqb Ascii.eqb Bool.eqb].
      repeat split; try reflexivity. right. right. repeat split; auto.
    + unfold server.partialContent.
      cbn [server.Header server.StatusCode server.Body fold_left fst snd].
      writer.
      change (server.StatusPartialContent =? server.StatusPartialContent)
        with true. cbn iota. writer.
      cbn [http.W_Status http.W_Header http.W_Body app].
      rewrite !Header_Get_Set. cbn [String.eqb Ascii.eqb Bool.eqb].
      repeat split; try reflexivity. right. left.
      split; [exact E|]. split; [reflexivity|].
      exists st, en. fold len. repeat split; try lia; try reflexivity.
      rewrite slice_length; lia.
Qed.

End StreamFacts.

(* ================================================================= *)
(** ** The handlers *)

Section HandlerFacts.
Local Open Scope Z_scope.

Lemma fetchContent_trace (E : main.Env) (s : main.Server) (t u : string) :
  In u (snd (main.fetchContent E s t)) -> u = t.
Proof.
  unfold main.fetchContent.
  repeat match goal with
         | |- context [match ?x with _ => _ end] => destruct x
         end; cbn [snd]; simpl; intuition.
Qed.

(** Splits on the tests of a handler, outermost first. *)
Ltac handler_cases :=
  repeat match goal with
         | H : context [match ?x with _ => _ end] |- _ =>
             let E := fresh "E" in destruct x eqn:E
         end.

Lemma SanitizeURL_nonempty_shape (raw : string) :
  util.SanitizeURL raw <> "" ->
  strings.TrimSpace (util.SanitizeURL raw) = util.SanitizeURL raw
  /\ (strings.HasPrefix (util.SanitizeURL raw) "http://" = true
      \/ strings.HasPrefix (util.SanitizeURL raw) "https://" = true).
Proof.
  intro H. destruct (SanitizeURL_cases raw) as [E|(E & _ & Hp)];
    [contradiction|]. rewrite E. split; [apply TrimSpace_idempotent|exact Hp].
Qed.

(** X12: the handlers call the upstream only for a URL they have admitted.
    Whatever the request, a URL for which [httpClient.Do] is called by
    [handlePlay], [handleSegment], [handleKey] or [handleRaw] is the
    sanitised value of the request's [url] (or [u]) parameter: it is not
    empty, starts with [http://] or [https://], and its host passes
    [IsAllowedHost] for the configured allow list; for the first three it
    has also passed [Verify] with the request's [sign] and [ts].
    [handleSign] and [handleHealth] never call the upstream.  This is
    about the argument of [httpClient.Do]: the redirects that the client
    follows on its own are not in view. *)
Theorem handlers_fetch_only_admitted
  (E : main.Env) (s : main.Server) (clock : main.Clock)
  (r : http.Request) (w : http.ResponseWriter) (u : string) :
  let q := http.Query r in
  let admitted (param : string) :=
    u = util.SanitizeURL (main.Query_Get q param) /\ u <> ""
    /\ (strings.HasPrefix u "http://" = true
        \/ strings.HasPrefix u "https://" = true)
    /\ util.IsAllowedHost (main.L E) u
         (config.AllowHosts (main.config s)) = true in
  let verified :=
    signer.Verify (main.signer s) (main.unix clock) u
      (main.Query_Get q "sign") (main.Query_Get q "ts") = None in
  (In u (main.Fetched (main.handlePlay E s clock r w)) ->
   admitted "url" /\ verified)
  /\ (In u (main.Fetched (main.handleSegment E s clock r w)) ->
      admitted "u" /\ verified)
  /\ (In u (main.Fetched (main.handleKey E s clock r w)) ->
      admitted "u" /\ verified)
  /\ (In u (main.Fetched (main.handleRaw E s clock r w)) -> admitted "url")
  /\ main.Fetched (main.handleSign E s clock r w) = []
  /\ main.Fetched (main.handleHealth E s clock r w) = [].
Proof.
  intros q admitted verified. subst admitted verified. cbv beta.
  assert (forall param t,
            t = util.SanitizeURL (main.Query_Get q param) ->
            String.eqb t "" = false ->
            negb (util.IsAllowedHost (main.L E) t
                    (config.AllowHosts (main.config s))) = false ->
            u = t ->
            u = util.SanitizeURL (main.Query_Get q param) /\ u <> ""
            /\ (strings.HasPrefix u "http://" = true
                \/ strings.HasPrefix u "https://" = true)
            /\ util.IsAllowedHost (main.L E) u
                 (config.AllowHosts (main.config s)) = true) as Hadm.
  { intros param t Ht Hne Hal ->. apply String.eqb_neq in Hne.
    apply negb_false_iff in Hal. subst t.
    destruct (SanitizeURL_nonempty_shape _ Hne) as [_ Hp]. auto. }
  split; [|split; [|split; [|split; [|split]]]].
  - unfold main.handlePlay. fold q. intro H. handler_cases;
      cbn [main.Fetched] in H; try contradiction.
    all: match goal with
         | Ef : main.fetchContent _ _ _ = _ |- _ =>
             apply (f_equal snd) in Ef; cbn [snd] in Ef; rewrite <- Ef in H;
             apply fetchContent_trace in H
         end.
    all: subst u; split; [eapply Hadm; eauto|assumption].
  - unfold main.handleSegment. fold q. intro H. handler_cases;
      cbn [main.Fetched] in H; try contradiction.
    all: match goal with
         | Ef : main.fetchContent _ _ _ = _ |- _ =>
             apply (f_equal snd) in Ef; cbn [snd] in Ef; rewrite <- Ef in H;
             apply fetchContent_trace in H
         end.
    all: subst u; split; [eapply Hadm; eauto|assumption].
  - unfold main.handleKey. fold q. intro H. handler_cases;
      cbn [main.Fetched] in H; try contradiction.
    all: match goal with
         | Ef : main.fetchContent _ _ _ = _ |- _ =>
             apply (f_equal snd) in Ef; cbn [snd] in Ef; rewrite <- Ef in H;
             apply fetchContent_trace in H
         end.
    all: subst u; split; [eapply Hadm; eauto|assumption].
  - unfold main.handleRaw. fold q. intro H. handler_cases;
      cbn [main.Fetched] in H; try contradiction.
    all: match goal with
         | Ef : main.fetchContent _ _ _ = _ |- _ =>
             apply (f_equal snd) in Ef; cbn [snd] in Ef; rewrite <- Ef in H;
             apply fetchContent_trace in H
         end.
    all: subst u; eapply Hadm; eauto.
  - unfold main.handleSign.
    repeat match goal with
           | |- context [match ?x with _ => _ end] => destruct x
           end; reflexivity.
  - reflexivity.
Qed.

End HandlerFacts.

Example handlers_ex :
  let E := demo.env "0123456789" in
  let s := demo.server false in
  let r := demo.get [("u", " https://cdn.example.com/seg1.ts ")]
             [("Range", "bytes=2-5")] in
  let res := main.handleSegment E s (demo.clock 100) r (http.newW []) in
  http.W_Status (main.W res) = Some 206%Z
  /\ http.W_Body (main.W res) = bytes_of "2345"
  /\ main.Fetched res = ["https://cdn.example.com/seg1.ts"]
  /\ http.W_Status
       (main.W (main.handleSegment E (main.S res) (demo.clock 101) r (http.newW [])))
     = Some 200%Z
  /\ http.W_Body
       (main.W (main.handleSegment E (main.S res) (demo.clock 101) r (http.newW [])))
     = bytes_of "0123456789"
  /\ http.W_Status
       (main.W (main.handleSegment E s (demo.clock 100)
                  (demo.get [("u", "https://evil.org/seg1.ts")] []) (http.newW [])))
     = Some 403%Z.
Proof. repeat split; vm_compute; reflexivity. Qed.

Example handlePlay_ex :
  let E := demo.env (lines ["#EXTM3U"; "seg1.ts"]) in
  let s := demo.server false in
  let r := demo.get [("url", "https://cdn.example.com/path/a.m3u8")] [] in
  let res := main.handlePlay E s (demo.clock 100) r (http.newW []) in
  http.W_Status (main.W res) = Some 200%Z
  /\ http.W_Body (main.W res)
     = bytes_of
         (lines ["#EXTM3U";
                 "/seg?u=https%3A%2F%2Fcdn.example.com%2Fpath%2Fseg1.ts"])
  /\ http.Header_Get (http.W_Header (main.W res)) "Content-Type"
     = "application/vnd.apple.mpegurl".
Proof. repeat split; vm_compute; reflexivity. Qed.

Section HandlerRejections.
Local Open Scope Z_scope.

Lemma handlers_fetch_only_admitted_witness :
  let E := demo.env "0123456789" in
  let s := demo.server false in
  let r := demo.get [("url", "https://cdn.example.com/v.mp4")] [] in
  In "https://cdn.example.com/v.mp4"
     (main.Fetched (main.handleRaw E s (demo.clock 100) r (http.newW [])))
  /\ util.IsAllowedHost (main.L E) "https://cdn.example.com/v.mp4"
       (config.AllowHosts (main.config s)) = true.
Proof.
  intros E s r.
  assert (In "https://cdn.example.com/v.mp4"
            (main.Fetched (main.handleRaw E s (demo.clock 100) r (http.newW []))))
    as H by (vm_compute; auto).
  split; [exact H|].
  destruct (handlers_fetch_only_admitted E s (demo.clock 100) r (http.newW [])
              "https://cdn.example.com/v.mp4") as (_ & _ & _ & Hraw & _).
  apply Hraw in H. apply H.
Defined.

Lemma SanitizeURL_empty : util.SanitizeURL "" = "".
Proof. reflexivity. Qed.

(** X13: the order of the checks of [handlePlay] and what a failed check
    answers.  A missing [url] parameter is 400; a value that
    [SanitizeURL] rejects is 400; a URL longer than [maxURLLength] is 400; a
    host outside the allow list is 403, whatever the signature; and only
    then a failed [Verify] is 401, with the signer's message.  In each case
    the body is the message followed by a newline, the server and its
    caches are unchanged, and the upstream is not called. *)
Theorem handlePlay_rejections
  (E : main.Env) (s : main.Server) (clock : main.Clock)
  (r : http.Request) (h : http.Header) :
  let raw := main.Query_Get (http.Query r) "url" in
  let t := util.SanitizeURL raw in
  let res := main.handlePlay E s clock r (http.newW h) in
  let rejected (msg : string) (code : Z) :=
    http.W_Status (main.W res) = Some code
    /\ http.W_Body (main.W res) = list_byte_of_string (msg ++ String newline "")
    /\ main.S res = s /\ main.Fetched res = [] in
  let tooLong :=
    Z.of_nat (String.length t)
    > config.MaxURLLength (config.Limits (main.config s)) in
  let allowed :=
    util.IsAllowedHost (main.L E) t (config.AllowHosts (main.config s)) in
  (raw = "" -> rejected "Missing 'url' parameter" 400)
  /\ (raw <> "" -> t = "" -> rejected "Invalid URL" 400)
  /\ (t <> "" -> tooLong -> rejected "URL too long" 400)
  /\ (t <> "" -> ~ tooLong -> allowed = false ->
      rejected "Host not allowed" 403)
  /\ (t <> "" -> ~ tooLong -> allowed = true ->
      forall err,
        signer.Verify (main.signer s) (main.unix clock) t
          (main.Query_Get (http.Query r) "sign")
          (main.Query_Get (http.Query r) "ts") = Some err ->
        rejected ("Signature verification failed: " ++ err) 401).
Proof.
  intros raw t res rejected tooLong allowed.
  subst rejected res tooLong allowed. cbv beta. unfold main.handlePlay.
  fold raw. fold t.
  assert (t <> "" -> raw <> "") as Hraw.
  { intros Ht Hr. apply Ht. unfold t. rewrite Hr. reflexivity. }
  split; [|split; [|split; [|split]]].
  - intros ->. repeat split.
  - intros Hr Ht. apply String.eqb_neq in Hr. rewrite Hr, Ht. repeat split.
  - intros Ht Hl. pose proof (Hraw Ht) as Hr.
    apply String.eqb_neq in Hr, Ht. rewrite Hr, Ht.
    destruct (Z.gtb_spec (Z.of_nat (String.length t))
                (config.MaxURLLength (config.Limits (main.config s))));
      [|lia]. repeat split.
  - intros Ht Hl Ha. pose proof (Hraw Ht) as Hr.
    apply String.eqb_neq in Hr, Ht. rewrite Hr, Ht, Ha.
    destruct (Z.gtb_spec (Z.of_nat (String.length t))
                (config.MaxURLLength (config.Limits (main.config s))));
      [lia|]. repeat split.
  - intros Ht Hl Ha err Hv. pose proof (Hraw Ht) as Hr.
    apply String.eqb_neq in Hr, Ht. rewrite Hr, Ht, Ha, Hv.
    destruct (Z.gtb_spec (Z.of_nat (String.length t))
                (config.MaxURLLength (config.Limits (main.config s))));
      [lia|]. repeat split.
Qed.

Lemma handlePlay_rejections_witness :
  let E := demo.env "x" in
  let s := demo.server true in
  let res q := main.handlePlay E s (demo.clock 100) (demo.get q []) (http.newW []) in
  http.W_Status (main.W (res [])) = Some 400
  /\ http.W_Status (main.W (res [("url", "ftp://example.com/a")])) = Some 400
  /\ http.W_Status (main.W (res [("url", "https://evil.org/a")])) = Some 403
  /\ http.W_Status (main.W (res [("url", "https://example.com/a")]))
     = Some 401.
Proof.
  intros E s res. subst res. cbv beta.
  split; [|split; [|split]].
  - rewrite (proj1 (proj1 (handlePlay_rejections E s (demo.clock 100)
                             (demo.get [] []) []) eq_refl)).
    reflexivity.
  - destruct (handlePlay_rejections E s (demo.clock 100)
                (demo.get [("url", "ftp://example.com/a")] []) [])
      as (_ & H & _).
    rewrite (proj1 (H ltac:(discriminate) eq_refl)). reflexivity.
  - destruct (handlePlay_rejections E s (demo.clock 100)
                (demo.get [("url", "https://evil.org/a")] []) [])
      as (_ & _ & _ & H & _).
    rewrite (proj1 (H ltac:(discriminate) ltac:(vm_compute; discriminate)
                      eq_refl)). reflexivity.
  - destruct (handlePlay_rejections E s (demo.clock 100)
                (demo.get [("url", "https://example.com/a")] []) [])
      as (_ & _ & _ & _ & H).
    apply (H ltac:(discriminate) ltac:(vm_compute; discriminate) eq_refl
             "missing signature parameters" eq_refl).
Defined.

End HandlerRejections.

(* ================================================================= *)
(** ** Routing: what a request leaves of the server *)

Section Routing.
Local Open Scope Z_scope.

(** Splits on the tests of a handler in the goal, outermost first. *)
Ltac goal_cases :=
  repeat match goal with
         | |- context [match ?x with _ => _ end] => destruct x
         end.

Lemma handlers_keep_settings (E : main.Env) (s : main.Server)
    (clock : main.Clock) (r : http.Request) (w : http.ResponseWriter)
    (e : main.Endpoint) :
  let s' := main.S (main.route e E s clock r w) in
  main.config s' = main.config s /\ main.signer s' = main.signer s
  /\ main.headerManager s' = main.headerManager s.
Proof.
  destruct e; cbn [main.route];
    unfold main.handleHealth, main.handlePlay, main.handleSegment,
      main.handleKey, main.handleRaw, main.handleSign, main.notFound;
    goal_cases; repeat split.
Qed.

Lemma handlers_keep_other_caches (E : main.Env) (s : main.Server)
    (clock : main.Clock) (r : http.Request) (w : http.ResponseWriter)
    (e : main.Endpoint) :
  let s' := main.S (main.route e E s clock r w) in
  (e <> main.Play -> main.m3u8Cache s' = main.m3u8Cache s)
  /\ (e <> main.Key -> main.keyCache s' = main.keyCache s)
  /\ (e <> main.Seg -> main.tsCache s' = main.tsCache s).
Proof.
  destruct e; cbn [main.route];
    unfold main.handleHealth, main.handlePlay, main.handleSegment,
      main.handleKey, main.handleRaw, main.handleSign, main.notFound;
    goal_cases; repeat split; intros; try reflexivity; congruence.
Qed.

Lemma serve_S (E : main.Env) (s : main.Server) (q : main.Call) :
  main.S (main.serve E s q) = s
  \/ exists w,
       main.S (main.serve E s q)
       = main.S (main.route (main.endpoint q) E s (main.clock q)
                   (main.request q) w).
Proof.
  unfold main.serve, main.corsMiddleware.
  destruct (String.eqb (http.Method (main.request q)) "OPTIONS");
    [now left|right]. eexists. reflexivity.
Qed.

Lemma serveAll_keeps (E : main.Env) (qs : list main.Call) (s : main.Server) :
  let s' := main.serveAll E s qs in
  main.config s' = main.config s /\ main.signer s' = main.signer s
  /\ (Forall (fun q => main.endpoint q <> main.Play) qs ->
      main.m3u8Cache s' = main.m3u8Cache s)
  /\ (Forall (fun q => main.endpoint q <> main.Key) qs ->
      main.keyCache s' = main.keyCache s)
  /\ (Forall (fun q => main.endpoint q <> main.Seg) qs ->
      main.tsCache s' = main.tsCache s).
Proof.
  revert s. induction qs as [|q qs IH]; intro s; cbn [main.serveAll].
  { repeat split. }
  destruct (IH (main.S (main.serve E s q))) as (I1 & I2 & I3 & I4 & I5).
  assert (main.config (main.S (main.serve E s q)) = main.config s
          /\ main.signer (main.S (main.serve E s q)) = main.signer s
          /\ (main.endpoint q <> main.Play ->
              main.m3u8Cache (main.S (main.serve E s q)) = main.m3u8Cache s)
          /\ (main.endpoint q <> main.Key ->
              main.keyCache (main.S (main.serve E s q)) = main.keyCache s)
          /\ (main.endpoint q <> main.Seg ->
              main.tsCache (main.S (main.serve E s q)) = main.tsCache s))
    as (J1 & J2 & J3 & J4 & J5).
  { destruct (serve_S E s q) as [->|(w & ->)]; [repeat split|].
    destruct (handlers_keep_settings E s (main.clock q) (main.request q) w
                (main.endpoint q)) as (K1 & K2 & _).
    destruct (handlers_keep_other_caches E s (main.clock q) (main.request q)
                w (main.endpoint q)) as (K3 & K4 & K5).
    repeat split; assumption. }
  split; [congruence|]. split; [congruence|].
  split; [|split]; intro F; inversion F as [|? ? Fq Fqs]; subst.
  - rewrite I3 by exact Fqs. now apply J3.
  - rewrite I4 by exact Fqs. now apply J4.
  - rewrite I5 by exact Fqs. now apply J5.
Qed.

End Routing.

(* ================================================================= *)
(** ** The handlers and their caches *)

Section HandlerCaches.
Local Open Scope Z_scope.

Lemma Set_Get_fresh (n : nat) (ttl : Z) (c : cache.Cache) (t now : Z)
    (key : string) (data : list byte) :
  (1 <= n)%nat -> cache_inv n ttl c -> now <= t + ttl ->
  fst (cache.Get (cache.Set_ c t key data) now key) = Some data.
Proof.
  intros Hn (l & Hl & Hs & Hlen & Ht & He) Hnow.
  unfold cache.Set_. rewrite He, Hl. cbn [negb].
  rewrite (Get_hit _ _ now key (cache.mkCacheEntry data (t + cache.ttl c)));
    [reflexivity| |cbn [cache.ExpiresAt]; lia].
  apply lookup_Add_same. lia.
Qed.

Lemma Get_inv (n : nat) (ttl : Z) (c : cache.Cache) (now : Z) (key : string) :
  cache_inv n ttl c -> cache_inv n ttl (snd (cache.Get c now key)).
Proof. intro H. exact (step_inv n ttl c (cache.OpGet now key) H). Qed.

(** X14: a key is fetched once per TTL, as long as no other [/key]
    request comes in between.  When a [/key] request has called the
    upstream and answered 200, the key cache being enabled, and the server
    has then handled any sequence of requests on its other routes, a [/key]
    request for the same sanitized URL that passes the signature check and
    arrives no later than the cache's TTL after the first is answered with
    the same bytes as [application/octet-stream], and the upstream is not
    called. *)
Theorem handleKey_repeat_served_from_cache
  (E : main.Env) (s : main.Server) (clock1 clock2 : main.Clock)
  (r1 r2 : http.Request) (h1 h2 : http.Header)
  (N ttlSeconds : Z) (ops : list cache.op)
  (between : list main.Call) :
  1 <= N ->
  main.keyCache s = cache.run ops (cache.New N ttlSeconds true) ->
  let t := util.SanitizeURL (main.Query_Get (http.Query r1) "u") in
  let res1 := main.handleKey E s clock1 r1 (http.newW h1) in
  main.Fetched res1 <> [] ->
  http.W_Status (main.W res1) = Some 200 ->
  util.SanitizeURL (main.Query_Get (http.Query r2) "u") = t ->
  signer.Verify (main.signer s) (main.unix clock2) t
    (main.Query_Get (http.Query r2) "sign")
    (main.Query_Get (http.Query r2) "ts") = None ->
  main.getAt clock2 <= main.setAt clock1 + cache.ttl (main.keyCache s) ->
  Forall (fun q => main.endpoint q <> main.Key) between ->
  let res2 :=
    main.handleKey E (main.serveAll E (main.S res1) between) clock2 r2
      (http.newW h2) in
  main.Fetched res2 = []
  /\ http.W_Status (main.W res2) = Some 200
  /\ http.W_Body (main.W res2) = http.W_Body (main.W res1)
  /\ http.Header_Get (http.W_Header (main.W res2)) "Content-Type"
     = "application/octet-stream".
Proof.
  intros HN Hc t res1 Hf Hst Ht2 Hv2 Httl Hbetween res2.
  destruct (serveAll_keeps E between (main.S res1)) as (Kc & Ks & _ & Kx & _).
  specialize (Kx Hbetween).
  pose proof (reachable_inv N ttlSeconds ops HN) as Hinv. rewrite <- Hc in Hinv.
  assert (cache.ttl (main.keyCache s)
          = int64_wrap (ttlSeconds * cache.Second)) as Httl'
    by (destruct Hinv as (l & _ & _ & _ & H & _); exact H).
  subst res2. unfold main.handleKey at 1 2 3 4. rewrite Ht2.
  rewrite ?Kc, ?Ks, ?Kx.
  subst res1. unfold main.handleKey in Hf, Hst |- *. fold t in Hf, Hst |- *.
  destruct (String.eqb (main.Query_Get (http.Query r1) "u") "");
    [now elim Hf|].
  destruct (String.eqb_spec t "") as [Et|Et]; [now elim Hf|].
  destruct (util.IsAllowedHost (main.L E) t (config.AllowHosts (main.config s)))
    eqn:Ha; cbn [negb] in *; [|now elim Hf].
  destruct (signer.Verify (main.signer s) (main.unix clock1) t
              (main.Query_Get (http.Query r1) "sign")
              (main.Query_Get (http.Query r1) "ts")); [now elim Hf|].
  pose proof (Get_inv _ _ _ (main.getAt clock1) t Hinv) as Hinv1.
  destruct (cache.Get (main.keyCache s) (main.getAt clock1) t)
    as [[cached|] c'] eqn:G1; [now elim Hf|]. cbn [snd] in Hinv1.
  change (main.fetchContent E (main.withKeyCache s c') t)
    with (main.fetchContent E s t) in *.
  destruct (main.fetchContent E s t) as [[[content ct]|] fetched];
    [|discriminate Hst].
  cbn [main.S main.W main.withKeyCache main.config main.signer main.keyCache].
  assert (String.eqb (main.Query_Get (http.Query r2) "u") "" = false) as ->.
  { apply String.eqb_neq. intro H. apply Et. rewrite <- Ht2, H. reflexivity. }
  destruct (String.eqb_spec t ""); [contradiction|].
  rewrite Ha, Hv2. cbn [negb].
  assert (fst (cache.Get (cache.Set_ c' (main.setAt clock1) t content)
                 (main.getAt clock2) t) = Some content) as G2.
  { eapply Set_Get_fresh; [|exact Hinv1|rewrite <- Httl'; exact Httl]. lia. }
  destruct (cache.Get (cache.Set_ c' (main.setAt clock1) t content)
              (main.getAt clock2) t) as [[d|] c''];
    cbn [fst] in G2; [|discriminate G2].
  injection G2 as ->. repeat split.
  cbn [main.W]. unfold http.newW. writer. cbn [http.W_Header].
  rewrite Header_Get_Set. now rewrite String.eqb_refl.
Qed.

Lemma handleKey_repeat_served_from_cache_witness :
  let E := demo.env "0123456789abcdef" in
  let r := demo.get [("u", "https://example.com/k.key")] [] in
  let res1 := main.handleKey E (demo.server false) (demo.clock 100) r
                (http.newW []) in
  let between :=
    [ main.mkCall main.Seg (demo.clock 110)
        (demo.get [("u", "https://example.com/s.ts")] []);
      main.mkCall main.Play (demo.clock 120)
        (demo.get [("url", "https://example.com/p.m3u8")] []) ] in
  let res2 := main.handleKey E (main.serveAll E (main.S res1) between)
                (demo.clock 130) r (http.newW []) in
  main.Fetched res2 = []
  /\ http.W_Status (main.W res2) = Some 200
  /\ http.W_Body (main.W res2) = http.W_Body (main.W res1)
  /\ http.Header_Get (http.W_Header (main.W res2)) "Content-Type"
     = "application/octet-stream".
Proof.
  intros E r res1 between res2.
  assert (1 <= 8) as HN by lia.
  assert (main.Fetched res1 <> []) as Hf by (vm_compute; discriminate).
  assert (main.getAt (demo.clock 130)
          <= main.setAt (demo.clock 100)
             + cache.ttl (main.keyCache (demo.server false))) as Httl
    by (vm_compute; discriminate).
  assert (Forall (fun q => main.endpoint q <> main.Key) between) as Hb
    by (repeat constructor; discriminate).
  exact (handleKey_repeat_served_from_cache E (demo.server false)
           (demo.clock 100) (demo.clock 130) r r [] [] 8 60 [] between
           HN eq_refl Hf eq_refl eq_refl eq_refl Httl Hb).
Defined.

(** X15: a playlist served from the cache carries the signature of the
    request that filled it.  When a [/play] request has called the upstream
    and got a playlist, its answer is the playlist rewritten with the sign
    parameters built from the [sign] and [ts] of that request; after any
    sequence of requests on the other routes of the server (none on
    [/play]), a [/play] request for the same sanitized URL within the TTL,
    whatever valid [sign] and [ts] it presents itself, is answered with
    that very playlist, and the upstream is not called. *)
Theorem handlePlay_cached_playlist_keeps_first_signature
  (E : main.Env) (s : main.Server) (clock1 clock2 : main.Clock)
  (r1 r2 : http.Request) (h1 h2 : http.Header)
  (N ttlSeconds : Z) (ops : list cache.op)
  (between : list main.Call)
  (content : list byte) (ct : string) (f : list string) :
  1 <= N ->
  main.m3u8Cache s = cache.run ops (cache.New N ttlSeconds true) ->
  let t := util.SanitizeURL (main.Query_Get (http.Query r1) "url") in
  let res1 := main.handlePlay E s clock1 r1 (http.newW h1) in
  main.Fetched res1 <> [] ->
  main.fetchContent E s t = (Some (content, ct), f) ->
  config.EnableM3U8 (config.Rewrite (main.config s)) = true ->
  rewrite.IsM3U8Content (string_of_list_byte content) = true ->
  util.SanitizeURL (main.Query_Get (http.Query r2) "url") = t ->
  signer.Verify (main.signer s) (main.unix clock2) t
    (main.Query_Get (http.Query r2) "sign")
    (main.Query_Get (http.Query r2) "ts") = None ->
  main.getAt clock2 <= main.setAt clock1 + cache.ttl (main.m3u8Cache s) ->
  Forall (fun q => main.endpoint q <> main.Play) between ->
  let res2 :=
    main.handlePlay E (main.serveAll E (main.S res1) between) clock2 r2
      (http.newW h2) in
  let playlist :=
    list_byte_of_string
      (rewrite.Rewrite (main.L E)
         (rewrite.NewM3U8Rewriter "" "/seg" "/key"
            (util.BuildSignParams (main.Query_Get (http.Query r1) "sign")
               (main.Query_Get (http.Query r1) "ts")))
         (string_of_list_byte content) t) in
  http.W_Body (main.W res1) = playlist
  /\ main.Fetched res2 = []
  /\ http.W_Status (main.W res2) = Some 200
  /\ http.W_Body (main.W res2) = playlist.
Proof.
  intros HN Hc t res1 Hf Hfetch Hen Hm Ht2 Hv2 Httl Hbetween res2 playlist.
  destruct (serveAll_keeps E between (main.S res1)) as (Kc & Ks & Kx & _ & _).
  specialize (Kx Hbetween).
  pose proof (reachable_inv N ttlSeconds ops HN) as Hinv. rewrite <- Hc in Hinv.
  assert (cache.ttl (main.m3u8Cache s)
          = int64_wrap (ttlSeconds * cache.Second)) as Httl'
    by (destruct Hinv as (l & _ & _ & _ & H & _); exact H).
  subst res2. unfold main.handlePlay at 1 2 3. rewrite Ht2.
  rewrite ?Kc, ?Ks, ?Kx.
  subst res1. unfold main.handlePlay in Hf |- *. fold t in Hf |- *.
  destruct (String.eqb (main.Query_Get (http.Query r1) "url") "");
    [now elim Hf|].
  destruct (String.eqb_spec t "") as [Et|Et]; [now elim Hf|].
  destruct (Z.of_nat (String.length t)
            >? config.MaxURLLength (config.Limits (main.config s))) eqn:Hlen;
    [now elim Hf|].
  destruct (util.IsAllowedHost (main.L E) t (config.AllowHosts (main.config s)))
    eqn:Ha; cbn [negb] in *; [|now elim Hf].
  destruct (signer.Verify (main.signer s) (main.unix clock1) t
              (main.Query_Get (http.Query r1) "sign")
              (main.Query_Get (http.Query r1) "ts")); [now elim Hf|].
  pose proof (Get_inv _ _ _ (main.getAt clock1) t Hinv) as Hinv1.
  destruct (cache.Get (main.m3u8Cache s) (main.getAt clock1) t)
    as [[cached|] c'] eqn:G1; [now elim Hf|]. cbn [snd] in Hinv1.
  change (main.fetchContent E (main.withM3U8Cache s c') t)
    with (main.fetchContent E s t) in *.
  rewrite Hfetch in Hf |- *.
  cbn [main.withM3U8Cache main.config main.m3u8Cache] in Hf |- *.
  rewrite Hen, Hm in Hf |- *. cbn [andb] in Hf |- *.
  cbn [main.S main.W main.withM3U8Cache main.config main.signer main.m3u8Cache].
  fold playlist.
  assert (String.eqb (main.Query_Get (http.Query r2) "url") "" = false) as ->.
  { apply String.eqb_neq. intro H. apply Et. rewrite <- Ht2, H. reflexivity. }
  destruct (String.eqb_spec t ""); [contradiction|].
  rewrite Hlen, Ha, Hv2. cbn [negb].
  assert (fst (cache.Get (cache.Set_ c' (main.setAt clock1) t playlist)
                 (main.getAt clock2) t) = Some playlist) as G2.
  { eapply Set_Get_fresh; [|exact Hinv1|rewrite <- Httl'; exact Httl]. lia. }
  destruct (cache.Get (cache.Set_ c' (main.setAt clock1) t playlist)
              (main.getAt clock2) t) as [[d|] c''];
    cbn [fst] in G2; [|discriminate G2].
  injection G2 as ->. repeat split.
Qed.

Lemma handlePlay_cached_playlist_keeps_first_signature_witness :
  let E := demo.env (lines ["#EXTM3U"; "seg1.ts"]) in
  let s := demo.server true in
  let u := "https://example.com/a/index.m3u8" in
  let sign1 :=
    "36a735c4e172d196c0f1d59b5d2aaf07136d2892fa2128db5cb7a4a605a7b22a" in
  let sign2 :=
    "150e4a8c87d73bad8ceb01253baa264df558f7120bdb53a6f5fb1dadf353128c" in
  let r1 := demo.get [("url", u); ("sign", sign1); ("ts", "100")] [] in
  let r2 := demo.get [("url", u); ("sign", sign2); ("ts", "120")] [] in
  let res1 := main.handlePlay E s (demo.clock 100) r1 (http.newW []) in
  let between :=
    [ main.mkCall main.Raw (demo.clock 110)
        (demo.get [("url", "https://example.com/a/seg1.ts")] []) ] in
  let res2 := main.handlePlay E (main.serveAll E (main.S res1) between)
                (demo.clock 130) r2 (http.newW []) in
  let playlist :=
    list_byte_of_string
      (rewrite.Rewrite (main.L E)
         (rewrite.NewM3U8Rewriter "" "/seg" "/key"
            (util.BuildSignParams sign1 "100"))
         (lines ["#EXTM3U"; "seg1.ts"]) u) in
  http.W_Body (main.W res1) = playlist
  /\ main.Fetched res2 = []
  /\ http.W_Status (main.W res2) = Some 200
  /\ http.W_Body (main.W res2) = playlist.
Proof.
  intros E s u sign1 sign2 r1 r2 res1 between res2 playlist.
  assert (Forall (fun q => main.endpoint q <> main.Play) between) as Hb
    by (repeat constructor; discriminate).
  assert (1 <= 8) as HN by lia.
  assert (main.Fetched res1 <> []) as Hf by (vm_compute; discriminate).
  assert (signer.Verify (main.signer s) (main.unix (demo.clock 130)) u
            sign2 "120" = None) as Hv by (vm_compute; reflexivity).
  assert (main.getAt (demo.clock 130)
          <= main.setAt (demo.clock 100) + cache.ttl (main.m3u8Cache s))
    as Httl by (vm_compute; discriminate).
  exact (handlePlay_cached_playlist_keeps_first_signature E s
           (demo.clock 100) (demo.clock 130) r1 r2 [] [] 8 60 [] between
           (list_byte_of_string (lines ["#EXTM3U"; "seg1.ts"]))
           "application/vnd.apple.mpegurl" [u]
           HN eq_refl Hf eq_refl eq_refl eq_refl eq_refl Hv Httl Hb).
Defined.

Lemma fetchContent_calls (E : main.Env) (s : main.Server) (t : string)
    (x : list byte * string) (f : list string) :
  main.fetchContent E s t = (Some x, f) -> f = [t].
Proof.
  unfold main.fetchContent.
  repeat match goal with
         | |- context [match ?x with _ => _ end] => destruct x
         end; congruence.
Qed.

(** X16: a segment served from the cache ignores [Range].  When a [/seg]
    request has called the upstream and got a payload of less than 1 MiB,
    the segment cache being enabled, and the server has then handled any
    sequence of requests on its other routes (none on [/seg]), a [/seg]
    request for the same sanitized URL that passes the signature check
    within the TTL is answered without calling the upstream, with status
    200 and the whole payload, whatever its [Range] header says; the type is
    the one [GetContentType] derives from the URL, not the one the upstream
    sent, and the handler sets no other header than [Content-Type] and
    [Accept-Ranges].  The first request was answered by [streamContent],
    which honours [Range]. *)
Theorem handleSegment_cached_ignores_Range
  (E : main.Env) (s : main.Server) (clock1 clock2 : main.Clock)
  (r1 r2 : http.Request) (h1 h2 : http.Header)
  (N ttlSeconds : Z) (ops : list cache.op)
  (between : list main.Call)
  (content : list byte) (ct : string) (f : list string) :
  1 <= N ->
  main.tsCache s = cache.run ops (cache.New N ttlSeconds true) ->
  let t := util.SanitizeURL (main.Query_Get (http.Query r1) "u") in
  let res1 := main.handleSegment E s clock1 r1 (http.newW h1) in
  main.Fetched res1 <> [] ->
  main.fetchContent E s t = (Some (content, ct), f) ->
  Z.of_nat (List.length content) < 1024 * 1024 ->
  util.SanitizeURL (main.Query_Get (http.Query r2) "u") = t ->
  signer.Verify (main.signer s) (main.unix clock2) t
    (main.Query_Get (http.Query r2) "sign")
    (main.Query_Get (http.Query r2) "ts") = None ->
  main.getAt clock2 <= main.setAt clock1 + cache.ttl (main.tsCache s) ->
  Forall (fun q => main.endpoint q <> main.Seg) between ->
  let res2 :=
    main.handleSegment E (main.serveAll E (main.S res1) between) clock2 r2
      (http.newW h2) in
  main.W res1 = main.streamContent (http.newW h1) r1 content ct
  /\ main.Fetched res2 = []
  /\ http.W_Status (main.W res2) = Some 200
  /\ http.W_Body (main.W res2) = content
  /\ http.W_Header (main.W res2)
     = http.Header_Set
         (http.Header_Set h2 "Content-Type"
            (util.GetContentType (main.mapLower E) t))
         "Accept-Ranges" "bytes".
Proof.
  intros HN Hc t res1 Hf Hfetch Hsize Ht2 Hv2 Httl Hbetween res2.
  destruct (serveAll_keeps E between (main.S res1)) as (Kc & Ks & _ & _ & Kx).
  specialize (Kx Hbetween).
  pose proof (reachable_inv N ttlSeconds ops HN) as Hinv. rewrite <- Hc in Hinv.
  destruct Hinv as (l & Hl & Hs & Hlen & Httl' & Hen).
  assert (cache_inv (Z.to_nat N) (int64_wrap (ttlSeconds * cache.Second))
            (main.tsCache s)) as Hinv by (exists l; auto).
  subst res2. unfold main.handleSegment at 1 2 3 4. rewrite Ht2.
  rewrite ?Kc, ?Ks, ?Kx.
  subst res1. unfold main.handleSegment in Hf |- *. fold t in Hf |- *.
  destruct (String.eqb (main.Query_Get (http.Query r1) "u") "");
    [now elim Hf|].
  destruct (String.eqb_spec t "") as [Et|Et]; [now elim Hf|].
  destruct (util.IsAllowedHost (main.L E) t (config.AllowHosts (main.config s)))
    eqn:Ha; cbn [negb] in *; [|now elim Hf].
  destruct (signer.Verify (main.signer s) (main.unix clock1) t
              (main.Query_Get (http.Query r1) "sign")
              (main.Query_Get (http.Query r1) "ts")); [now elim Hf|].
  pose proof (Get_inv _ _ _ (main.getAt clock1) t Hinv) as Hinv1.
  destruct (cache.Get (main.tsCache s) (main.getAt clock1) t)
    as [[cached|] c'] eqn:G1; [now elim Hf|]. cbn [snd] in Hinv1.
  change (main.fetchContent E (main.withTsCache s c') t)
    with (main.fetchContent E s t) in *.
  rewrite Hfetch in Hf |- *.
  cbn [main.withTsCache main.tsCache] in Hf |- *.
  assert (cache.IsEnabled c' = true) as Hen'
    by (destruct Hinv1 as (l' & _ & _ & _ & _ & H); exact H).
  rewrite Hen' in Hf |- *.
  destruct (Z.ltb_spec (Z.of_nat (List.length content)) (1024 * 1024));
    [|lia]. cbn [andb] in Hf |- *.
  cbn [main.S main.W main.withTsCache main.config main.signer main.tsCache].
  assert (String.eqb (main.Query_Get (http.Query r2) "u") "" = false) as ->.
  { apply String.eqb_neq. intro Hq. apply Et. rewrite <- Ht2, Hq. reflexivity. }
  destruct (String.eqb_spec t ""); [contradiction|].
  rewrite Ha, Hv2. cbn [negb].
  assert (fst (cache.Get (cache.Set_ c' (main.setAt clock1) t content)
                 (main.getAt clock2) t) = Some content) as G2.
  { eapply Set_Get_fresh; [|exact Hinv1|rewrite <- Httl'; exact Httl]. lia. }
  destruct (cache.Get (cache.Set_ c' (main.setAt clock1) t content)
              (main.getAt clock2) t) as [[d|] c''];
    cbn [fst] in G2; [|discriminate G2].
  injection G2 as ->. repeat split.
Qed.

Lemma handleSegment_cached_ignores_Range_witness :
  let E := demo.env "0123456789" in
  let s := demo.server false in
  let u := "https://example.com/a/seg1.ts" in
  let r := demo.get [("u", u)] [("Range", "bytes=2-5")] in
  let res1 := main.handleSegment E s (demo.clock 100) r (http.newW []) in
  let between :=
    [ main.mkCall main.Key (demo.clock 110)
        (demo.get [("u", "https://example.com/a/k.key")] []) ] in
  let res2 := main.handleSegment E (main.serveAll E (main.S res1) between)
                (demo.clock 130) r (http.newW []) in
  http.W_Status (main.W res1) = Some 206
  /\ http.W_Body (main.W res1) = bytes_of "2345"
  /\ http.W_Status (main.W res2) = Some 200
  /\ http.W_Body (main.W res2) = bytes_of "0123456789".
Proof.
  intros E s u r res1 between res2.
  assert (Forall (fun q => main.endpoint q <> main.Seg) between) as Hb
    by (repeat constructor; discriminate).
  assert (1 <= 8) as HN by lia.
  assert (main.Fetched res1 <> []) as Hf by (vm_compute; discriminate).
  assert (Z.of_nat (List.length (bytes_of "0123456789")) < 1024 * 1024)
    as Hsize by (vm_compute; reflexivity).
  assert (main.getAt (demo.clock 130)
          <= main.setAt (demo.clock 100) + cache.ttl (main.tsCache s))
    as Httl by (vm_compute; discriminate).
  destruct (handleSegment_cached_ignores_Range E s
              (demo.clock 100) (demo.clock 130) r r [] [] 8 60 [] between
              (bytes_of "0123456789") "video/mp2t" [u]
              HN eq_refl Hf eq_refl Hsize eq_refl eq_refl Httl Hb)
    as (H1 & _ & H2 & H3 & _).
  split; [|split; [|split]].
  - fold res1 in H1. rewrite H1. reflexivity.
  - fold res1 in H1. rewrite H1. reflexivity.
  - exact H2.
  - exact H3.
Defined.

(** X17: a segment of 1 MiB or more is never cached.  When a [/seg]
    request has called the upstream and got such a payload, the next
    request for the same sanitized URL that passes the signature check
    calls the upstream again, whenever it arrives, and the segment cache
    holds no more entries than before the two requests. *)
Theorem handleSegment_large_payload_fetched_again
  (E : main.Env) (s : main.Server) (clock1 clock2 : main.Clock)
  (r1 r2 : http.Request) (w1 w2 : http.ResponseWriter)
  (content : list byte) (ct : string) (f : list string) :
  let t := util.SanitizeURL (main.Query_Get (http.Query r1) "u") in
  let res1 := main.handleSegment E s clock1 r1 w1 in
  main.Fetched res1 <> [] ->
  main.fetchContent E s t = (Some (content, ct), f) ->
  1024 * 1024 <= Z.of_nat (List.length content) ->
  util.SanitizeURL (main.Query_Get (http.Query r2) "u") = t ->
  signer.Verify (main.signer s) (main.unix clock2) t
    (main.Query_Get (http.Query r2) "sign")
    (main.Query_Get (http.Query r2) "ts") = None ->
  let res2 := main.handleSegment E (main.S res1) clock2 r2 w2 in
  main.Fetched res2 = [t]
  /\ (cache.Len (main.tsCache (main.S res2)) <= cache.Len (main.tsCache s))%nat.
Proof.
  intros t res1 Hf Hfetch Hsize Ht2 Hv2 res2.
  pose proof (fetchContent_calls _ _ _ _ _ Hfetch) as ->.
  subst res2. unfold main.handleSegment at 1 2. rewrite Ht2.
  subst res1. unfold main.handleSegment in Hf |- *. fold t in Hf |- *.
  destruct (String.eqb (main.Query_Get (http.Query r1) "u") "");
    [now elim Hf|].
  destruct (String.eqb_spec t "") as [Et|Et]; [now elim Hf|].
  destruct (util.IsAllowedHost (main.L E) t (config.AllowHosts (main.config s)))
    eqn:Ha; cbn [negb] in *; [|now elim Hf].
  destruct (signer.Verify (main.signer s) (main.unix clock1) t
              (main.Query_Get (http.Query r1) "sign")
              (main.Query_Get (http.Query r1) "ts")); [now elim Hf|].
  pose proof (Get_miss_absent (main.tsCache s) (main.getAt clock1)
                (main.getAt clock2) t) as Hm1.
  pose proof (Get_Len_le (main.tsCache s) (main.getAt clock1) t) as Hl1.
  destruct (cache.Get (main.tsCache s) (main.getAt clock1) t)
    as [[cached|] c'] eqn:G1; [now elim Hf|]. cbn [fst snd] in Hm1, Hl1.
  specialize (Hm1 eq_refl).
  change (main.fetchContent E (main.withTsCache s c') t)
    with (main.fetchContent E s t) in *.
  rewrite Hfetch in Hf |- *.
  destruct (Z.ltb_spec (Z.of_nat (List.length content)) (1024 * 1024));
    [lia|]. rewrite andb_false_r in Hf |- *.
  cbn [main.S main.W main.withTsCache main.config main.signer main.tsCache].
  assert (String.eqb (main.Query_Get (http.Query r2) "u") "" = false) as ->.
  { apply String.eqb_neq. intro Hq. apply Et. rewrite <- Ht2, Hq. reflexivity. }
  destruct (String.eqb_spec t ""); [contradiction|].
  rewrite Ha, Hv2. cbn [negb].
  pose proof (Get_Len_le c' (main.getAt clock2) t) as Hl2.
  destruct (cache.Get c' (main.getAt clock2) t) as [[d|] c''];
    cbn [fst snd] in Hm1, Hl2; [discriminate Hm1|].
  change (main.fetchContent E (main.withTsCache (main.withTsCache s c') c'') t)
    with (main.fetchContent E s t).
  rewrite Hfetch.
  cbn [main.withTsCache main.tsCache].
  destruct (Z.ltb_spec (Z.of_nat (List.length content)) (1024 * 1024));
    [lia|]. rewrite andb_false_r.
  cbn [main.S main.Fetched main.tsCache main.withTsCache].
  split; [reflexivity|lia].
Qed.

Lemma handleSegment_large_payload_fetched_again_witness :
  let content := List.repeat "a"%byte (Z.to_nat (1024 * 1024)) in
  let E := main.mkEnv simpleurl.lib (fun s => s) (fun _ _ => None)
             (fun _ _ => Some (http.mkResponse 200 [] (Some content)))
             (fun _ => []) in
  let s := demo.server false in
  let u := "https://example.com/a/seg1.ts" in
  let r := demo.get [("u", u)] [] in
  let res1 := main.handleSegment E s (demo.clock 100) r (http.newW []) in
  let res2 := main.handleSegment E (main.S res1) (demo.clock 101) r
                (http.newW []) in
  main.Fetched res2 = [u]
  /\ (cache.Len (main.tsCache (main.S res2)) <= cache.Len (main.tsCache s))%nat.
Proof.
  intro content.
  assert (1024 * 1024 <= Z.of_nat (List.length content)) as Hsize.
  { unfold content. rewrite repeat_length, Z2Nat.id; lia. }
  clearbody content. intros E s u r res1 res2.
  assert (main.Fetched res1 <> []) as Hf by (vm_compute; discriminate).
  exact (handleSegment_large_payload_fetched_again E s
           (demo.clock 100) (demo.clock 101) r r (http.newW []) (http.newW [])
           content "video/mp2t" [u] Hf eq_refl Hsize eq_refl eq_refl).
Defined.

End HandlerCaches.

(* ================================================================= *)
(** ** From [/sign] to [/play] *)

Section SignThenPlay.
Local Open Scope Z_scope.

Lemma streamContent_status (h : http.Header) (r : http.Request)
    (content : list byte) (contentType : string) :
  exists code,
    http.W_Status (main.streamContent (http.newW h) r content contentType)
    = Some code
    /\ In code [200; 206; 416].
Proof.
  unfold main.streamContent, http.newW. writer.
  destruct (String.eqb _ ""); cbn [negb].
  - writer. exists 200. split; [reflexivity|simpl; auto].
  - unfold main.writeRange.
    destruct (handleRangeRequest_inv content
                (http.Header_Get (http.ReqHeader r) "Range"))
      as [H|(p0 & p1 & st & en & _ & _ & _ & _ & _ & H)]; rewrite H.
    + cbn [server.notSatisfiable server.Header server.StatusCode server.Body
           fold_left]. writer.
      change (server.StatusRequestedRangeNotSatisfiable
              =? server.StatusPartialContent) with false. cbn iota.
      exists 416. split; [reflexivity|simpl; auto].
    + unfold server.partialContent.
      cbn [server.Header server.StatusCode server.Body fold_left fst snd].
      writer.
      change (server.StatusPartialContent =? server.StatusPartialContent)
        with true. cbn iota. writer.
      exists 206. split; [reflexivity|simpl; auto].
Qed.

Lemma QueryUnescape_unreserved (s : string) :
  all_chars unreserved s = true -> url.QueryUnescape s = Some s.
Proof.
  intro H. rewrite <- (QueryEscape_unreserved s H) at 1.
  apply QueryUnescape_QueryEscape.
Qed.

(** X18: a proxy URL issued by [/sign] is accepted by [/play].  When
    [handleSign] answers 200 for a [raw] URL, the pair it generated being
    [(sign, ts)], a [/play] request whose [url], [sign] and [ts] values
    decode from the three values of the proxy URL passes the URL, host and
    signature checks at every clock value up to [ttlSeconds] later: it is
    answered 200, 206 or 416, or 502 when the upstream fails.  The one
    exception is a URL longer than [maxURLLength], which [handleSign] does
    not check and [handlePlay] refuses with 400. *)
Theorem signed_proxy_url_passes_play
  (E : main.Env) (s : main.Server) (clock0 clock : main.Clock)
  (rs rp : http.Request) (h0 h : http.Header) (sign ts : string) :
  let t := util.SanitizeURL (main.Query_Get (http.Query rs) "raw") in
  http.W_Status (main.W (main.handleSign E s clock0 rs (http.newW h0)))
  = Some 200 ->
  signer.Generate (main.signer s) (main.unix clock0) t = inl (sign, ts) ->
  url.QueryUnescape (url.QueryEscape t)
  = Some (main.Query_Get (http.Query rp) "url") ->
  url.QueryUnescape sign = Some (main.Query_Get (http.Query rp) "sign") ->
  url.QueryUnescape ts = Some (main.Query_Get (http.Query rp) "ts") ->
  - 2 ^ 63 <= main.unix clock0 < 2 ^ 63 ->
  main.unix clock0 <= main.unix clock ->
  main.unix clock - main.unix clock0 <= signer.ttlSeconds (main.signer s) ->
  signer.ttlSeconds (main.signer s) < 2 ^ 63 ->
  let res := main.handlePlay E s clock rp (http.newW h) in
  let tooLong :=
    Z.of_nat (String.length t)
    > config.MaxURLLength (config.Limits (main.config s)) in
  (tooLong ->
   http.W_Status (main.W res) = Some 400
   /\ http.W_Body (main.W res)
      = list_byte_of_string ("URL too long" ++ String newline ""))
  /\ (~ tooLong ->
      exists code,
        http.W_Status (main.W res) = Some code /\ In code [200; 206; 416; 502]).
Proof.
  intros t H200 HG Hu Hs Hts Ht0 Hle Hfresh Hmax res tooLong.
  (* what the success of [handleSign] tells *)
  unfold main.handleSign in H200. fold t in H200.
  destruct (signer.IsEnabled (main.signer s)) eqn:En; cbn [negb] in H200;
    [|discriminate H200].
  destruct (String.eqb (main.Query_Get (http.Query rs) "raw") "");
    [discriminate H200|].
  destruct (String.eqb_spec t "") as [Et|Et]; [discriminate H200|].
  destruct (util.IsAllowedHost (main.L E) t (config.AllowHosts (main.config s)))
    eqn:Ha; cbn [negb] in H200; [|discriminate H200].
  clear H200.
  (* the pair *)
  unfold signer.Generate in HG. unfold signer.IsEnabled in En.
  rewrite En in HG. cbn [negb] in HG. injection HG as Hsign Hts'.
  (* the request *)
  rewrite QueryUnescape_QueryEscape in Hu. injection Hu as Hu.
  rewrite QueryUnescape_unreserved in Hs.
  2:{ rewrite <- Hsign.
      apply all_chars_weaken with (p := lower_hex);
        [apply lower_hex_unreserved|apply EncodeToString_lower_hex]. }
  rewrite QueryUnescape_unreserved in Hts
    by (rewrite <- Hts'; apply FormatInt_unreserved).
  injection Hs as Hs. injection Hts as Hts.
  assert (util.SanitizeURL t = t) as Hfix.
  { destruct (SanitizeURL_nonempty_shape _ Et) as [H1 H2].
    apply SanitizeURL_fixed; assumption. }
  assert (signer.Verify (main.signer s) (main.unix clock) t sign ts = None)
    as Hv.
  { rewrite (Verify_after_timestamp_checks (main.signer s) (main.unix clock)
               (main.unix clock0) t sign ts En).
    - rewrite <- Hts', <- Hsign.
      rewrite (proj2 (String.eqb_eq _ _)); reflexivity.
    - rewrite <- Hsign. apply String.eqb_neq, signature_nonempty.
    - rewrite <- Hts'. apply ParseInt_FormatInt. exact Ht0.
    - rewrite int64_wrap_small by lia. exact Hfresh. }
  subst res tooLong. unfold main.handlePlay.
  rewrite <- Hu, <- Hs, <- Hts, Hfix.
  destruct (String.eqb_spec t ""); [contradiction|].
  rewrite Ha, Hv. cbn [negb].
  destruct (Z.gtb_spec (Z.of_nat (String.length t))
              (config.MaxURLLength (config.Limits (main.config s))))
    as [Hl|Hl].
  { split; [intros _; split; reflexivity|intro H; lia]. }
  split; [intro H; lia|intros _].
  destruct (cache.Get (main.m3u8Cache s) (main.getAt clock) t)
    as [[cached|] c'].
  { exists 200. split; [reflexivity|simpl; auto]. }
  destruct (main.fetchContent E (main.withM3U8Cache s c') t)
    as [[[content ct]|] fetched].
  2:{ exists 502. split; [reflexivity|simpl; auto]. }
  destruct (config.EnableM3U8 _ && rewrite.IsM3U8Content _).
  { exists 200. split; [reflexivity|simpl; auto]. }
  cbn [main.W].
  destruct (streamContent_status h rp content ct) as (code & Hc & Hin).
  exists code. split; [exact Hc|]. simpl in Hin |- *. intuition.
Qed.

Lemma signed_proxy_url_passes_play_witness :
  let E := demo.env "x" in
  let s := demo.server true in
  let u := "https://example.com/a.mp4" in
  let sign :=
    "4350cf501ba0e93d3b461df7b2344abd8244cec470500f91ee510a1628d96f24" in
  let rp := demo.get [("url", u); ("sign", sign); ("ts", "100")] [] in
  exists code,
    http.W_Status
      (main.W (main.handlePlay E s (demo.clock 700) rp (http.newW [])))
    = Some code
    /\ In code [200; 206; 416; 502].
Proof.
  intros E s u sign rp.
  set (rs := demo.get [("raw", "  https://example.com/a.mp4 ")] []).
  assert (http.W_Status
            (main.W (main.handleSign E s (demo.clock 100) rs (http.newW [])))
          = Some 200) as H200 by (vm_compute; reflexivity).
  assert (signer.Generate (main.signer s) (main.unix (demo.clock 100))
            (util.SanitizeURL (main.Query_Get (http.Query rs) "raw"))
          = inl (sign, "100")) as HG by (vm_compute; reflexivity).
  assert (- 2 ^ 63 <= main.unix (demo.clock 100) < 2 ^ 63) as H0
    by (change (main.unix (demo.clock 100)) with 100; lia).
  assert (main.unix (demo.clock 100) <= main.unix (demo.clock 700)) as H1
    by (vm_compute; discriminate).
  assert (main.unix (demo.clock 700) - main.unix (demo.clock 100)
          <= signer.ttlSeconds (main.signer s)) as H2
    by (vm_compute; discriminate).
  assert (signer.ttlSeconds (main.signer s) < 2 ^ 63) as H3
    by (vm_compute; reflexivity).
  destruct (signed_proxy_url_passes_play E s (demo.clock 100) (demo.clock 700)
              rs rp [] [] sign "100" H200 HG eq_refl eq_refl eq_refl
              H0 H1 H2 H3) as [_ H].
  apply H. vm_compute. discriminate.
Defined.

End SignThenPlay.

(* ================================================================= *)
(** ** The CORS middleware *)

Section Cors.
Local Open Scope Z_scope.

Lemma In_Header_Set (h : http.Header) (k v k' v' : string) :
  In (k, v) (http.Header_Set h k' v') ->
  (k = k' /\ v = v') \/ In (k, v) h.
Proof.
  induction h as [|[a b] h IH]; simpl.
  - intros [[= <- <-]|[]]. now left.
  - destruct (String.eqb a k'); simpl.
    + intros [[= <- <-]|H]; [now left|right; now right].
    + intros [H|H]; [right; now left|].
      destruct (IH H) as [?|?]; [now left|right; now right].
Qed.

Lemma Header_Set_In (h : http.Header) (k v k' v' : string) :
  In (k, v) h -> k <> k' -> In (k, v) (http.Header_Set h k' v').
Proof.
  intros Hin Hne. induction h as [|[a b] h IH]; [destruct Hin|]. simpl.
  destruct Hin as [[= -> ->]|Hin].
  - destruct (String.eqb_spec k k'); [contradiction|now left].
  - destruct (String.eqb a k'); right; [exact Hin|now apply IH].
Qed.

(** X19: what [corsMiddleware] adds to a response.  The three
    [Access-Control-Allow-Methods], [-Allow-Headers] and [-Expose-Headers]
    values are always set.  [Access-Control-Allow-Origin] is set exactly
    when an entry of the configured origins is [*] or equals the request's
    [Origin], and its value is then such an entry: an origin that is not
    configured is never echoed.  An [OPTIONS] request is answered 200 with
    an empty body and does not reach the wrapped handler; any other
    request is passed on with these headers. *)
Theorem corsMiddleware_response
  (next : main.Env -> main.Server -> main.Clock -> http.Request
          -> http.ResponseWriter -> main.Result)
  (E : main.Env) (s : main.Server) (clock : main.Clock) (r : http.Request) :
  let origins := config.Origins (config.CORS (main.config s)) in
  let origin := http.Header_Get (http.ReqHeader r) "Origin" in
  let res := main.corsMiddleware next E s clock r (http.newW []) in
  exists w,
    http.W_Status w = None /\ http.W_Body w = []
    /\ http.Header_Get (http.W_Header w) "Access-Control-Allow-Methods"
       = "GET, POST, OPTIONS"
    /\ http.Header_Get (http.W_Header w) "Access-Control-Allow-Headers"
       = "Content-Type, Range"
    /\ http.Header_Get (http.W_Header w) "Access-Control-Expose-Headers"
       = "Content-Range, Accept-Ranges"
    /\ (forall v, In ("Access-Control-Allow-Origin", v) (http.W_Header w) ->
                  In v origins /\ (v = "*" \/ v = origin))
    /\ ((exists a, In a origins /\ (a = "*" \/ a = origin)) ->
        exists v, In ("Access-Control-Allow-Origin", v) (http.W_Header w))
    /\ (http.Method r = "OPTIONS" ->
        main.W res = http.mkW (http.W_Header w) (Some 200) []
        /\ main.S res = s /\ main.Fetched res = [])
    /\ (http.Method r <> "OPTIONS" -> res = next E s clock r w).
Proof.
  intros origins origin res. subst res. unfold main.corsMiddleware.
  fold origins. fold origin.
  set (w0 := if (0 <? List.length origins)%nat then _ else _).
  assert (exists h0, w0 = http.mkW h0 None []
                     /\ (forall k v, In (k, v) h0 ->
                           k = "Access-Control-Allow-Origin"
                           /\ In v origins /\ (v = "*" \/ v = origin))
                     /\ ((exists a, In a origins /\ (a = "*" \/ a = origin)) ->
                         exists v, In ("Access-Control-Allow-Origin", v) h0))
    as (h0 & -> & Hin & Hex).
  { subst w0. unfold main.allowedOrigin.
    destruct (find (fun allowed => String.eqb allowed "*"
                                   || String.eqb allowed origin) origins)
      as [a|] eqn:F.
    - destruct (find_some _ _ F) as [Ha Hp].
      assert (a = "*" \/ a = origin) as Hp'.
      { apply orb_true_iff in Hp.
        destruct Hp as [Hp|Hp]; apply String.eqb_eq in Hp; auto. }
      destruct origins as [|o os]; [destruct Ha|].
      cbn [List.length Nat.ltb Nat.leb].
      exists [("Access-Control-Allow-Origin", a)].
      split; [reflexivity|]. split.
      + intros k v [[= <- <-]|[]]. auto.
      + intros _. exists a. now left.
    - exists []. split; [now destruct (0 <? List.length origins)%nat|].
      split; [intros k v []|].
      intros (a & Ha & Hp). pose proof (find_none _ _ F a Ha) as Hn.
      cbv beta in Hn. apply orb_false_iff in Hn. destruct Hn as [H1 H2].
      apply String.eqb_neq in H1, H2. tauto. }
  writer.
  exists (http.mkW
            (http.Header_Set
               (http.Header_Set
                  (http.Header_Set h0 "Access-Control-Allow-Methods"
                     "GET, POST, OPTIONS")
                  "Access-Control-Allow-Headers" "Content-Type, Range")
               "Access-Control-Expose-Headers" "Content-Range, Accept-Ranges")
            None []).
  cbn [http.W_Status http.W_Body http.W_Header].
  split; [reflexivity|]. split; [reflexivity|].
  rewrite !Header_Get_Set. cbn [String.eqb Ascii.eqb Bool.eqb].
  split; [reflexivity|]. split; [reflexivity|]. split; [reflexivity|].
  split; [|split; [|split]].
  - intros v Hv.
    repeat (apply In_Header_Set in Hv;
            destruct Hv as [[Hk _]|Hv]; [discriminate Hk|]).
    destruct (Hin _ _ Hv) as (_ & H1 & H2). auto.
  - intro Hm. destruct (Hex Hm) as (v & Hv). exists v.
    repeat (apply Header_Set_In; [|discriminate]). exact Hv.
  - intros ->. cbn [String.eqb Ascii.eqb Bool.eqb]. writer. repeat split.
  - intro Hm. apply String.eqb_neq in Hm. now rewrite Hm.
Qed.

Example corsMiddleware_ex :
  let s := main.NewServer (demo.cfg false ["https://a.example"; "*"]) in
  let hdr (origin : string) :=
    http.Header_Get
      (http.W_Header
         (main.W (main.corsMiddleware main.handleHealth (demo.env "") s
                    (demo.clock 0)
                    (http.mkRequest "OPTIONS" [] [("Origin", origin)])
                    (http.newW []))))
      "Access-Control-Allow-Origin" in
  hdr "https://a.example" = "https://a.example" /\ hdr "https://b.example" = "*".
Proof. split; reflexivity. Qed.

End Cors.

(* ================================================================= *)
(** ** The signature of a playlist and the URLs inside it *)

Section PlaylistSignature.
Local Open Scope Z_scope.

Lemma Verify_accepts_only_expected
  (s : signer.Signer) (now : Z) (url sign ts : string) :
  signer.enabled s = true ->
  signer.Verify s now url sign ts = None ->
  sign = hex.EncodeToString (hmac.Sum (signer.secret s) (url ++ "|" ++ ts)).
Proof.
  intros He Hv.
  destruct (String.eqb_spec sign
              (hex.EncodeToString (hmac.Sum (signer.secret s) (url ++ "|" ++ ts))))
    as [E|E]; [exact E|].
  exfalso. apply (proj2 (Verify_fails_iff s now url sign ts He)); [|exact Hv].
  right. right. right. right. exact E.
Qed.

(** X20: the signature of a [/play] request is of no use for the URLs of
    its playlist.  [handlePlay] hands the [sign] and [ts] of the request to
    the rewriter, which appends them to every segment and key URL, but
    [Verify] expects the signature of the URL it is asked about.  With
    signing enabled, a [/seg] or [/key] request that carries the [sign] and
    [ts] accepted for the playlist URL is therefore refused, without any
    call of the upstream, unless the signatures of the two URLs coincide:
    with 401 when its URL is well-formed and its host allowed. *)
Theorem playlist_signature_refused_for_segments
  (E : main.Env) (s : main.Server) (clock1 clock2 : main.Clock)
  (rp r : http.Request) (h : http.Header) :
  let t := util.SanitizeURL (main.Query_Get (http.Query rp) "url") in
  let sign := main.Query_Get (http.Query rp) "sign" in
  let ts := main.Query_Get (http.Query rp) "ts" in
  let seg := util.SanitizeURL (main.Query_Get (http.Query r) "u") in
  let expected (u : string) :=
    hex.EncodeToString
      (hmac.Sum (signer.secret (main.signer s)) (u ++ "|" ++ ts)) in
  signer.enabled (main.signer s) = true ->
  signer.Verify (main.signer s) (main.unix clock1) t sign ts = None ->
  main.Query_Get (http.Query r) "sign" = sign ->
  main.Query_Get (http.Query r) "ts" = ts ->
  expected seg <> expected t ->
  let refused (res : main.Result) :=
    main.Fetched res = [] /\ main.S res = s
    /\ (seg <> "" ->
        util.IsAllowedHost (main.L E) seg (config.AllowHosts (main.config s))
        = true ->
        http.W_Status (main.W res) = Some 401) in
  refused (main.handleSegment E s clock2 r (http.newW h))
  /\ refused (main.handleKey E s clock2 r (http.newW h)).
Proof.
  intros t sign ts seg expected He Hv Hs Hts Hne refused.
  pose proof (Verify_accepts_only_expected _ _ _ _ _ He Hv) as Hsign.
  fold (expected t) in Hsign.
  assert (exists err,
            signer.Verify (main.signer s) (main.unix clock2) seg sign ts
            = Some err) as (err & Hv2).
  { destruct (signer.Verify (main.signer s) (main.unix clock2) seg sign ts)
      as [err|] eqn:V; [now exists err|].
    pose proof (Verify_accepts_only_expected _ _ _ _ _ He V) as Hsign2.
    fold (expected seg) in Hsign2. congruence. }
  subst refused. cbv beta.
  unfold main.handleSegment, main.handleKey. fold seg. rewrite Hs, Hts, Hv2.
  destruct (String.eqb_spec (main.Query_Get (http.Query r) "u") "") as [Er|Er].
  { assert (seg = "") as Es by (unfold seg; rewrite Er; reflexivity).
    repeat split; intros Hseg; contradiction. }
  destruct (String.eqb_spec seg "") as [Es|Es].
  { repeat split; intros Hseg; contradiction. }
  destruct (util.IsAllowedHost (main.L E) seg
              (config.AllowHosts (main.config s))); cbn [negb].
  - repeat split.
  - repeat split; intros _ Ha; discriminate Ha.
Qed.

Lemma playlist_signature_refused_for_segments_witness :
  let E := demo.env (lines ["#EXTM3U"; "seg1.ts"]) in
  let s := demo.server true in
  let sign :=
    "36a735c4e172d196c0f1d59b5d2aaf07136d2892fa2128db5cb7a4a605a7b22a" in
  let rp := demo.get [("url", "https://example.com/a/index.m3u8");
                      ("sign", sign); ("ts", "100")] [] in
  let r := demo.get [("u", "https://example.com/a/seg1.ts");
                     ("sign", sign); ("ts", "100")] [] in
  http.W_Body (main.W (main.handlePlay E s (demo.clock 100) rp (http.newW [])))
  = list_byte_of_string
      (lines ["#EXTM3U";
              "/seg?u=https%3A%2F%2Fexample.com%2Fa%2Fseg1.ts&sign="
                ++ sign ++ "&ts=100"])
  /\ http.W_Status
       (main.W (main.handleSegment E s (demo.clock 101) r (http.newW [])))
     = Some 401.
Proof.
  intros E s sign rp r. split; [vm_compute; reflexivity|].
  assert (signer.Verify (main.signer s) (main.unix (demo.clock 100))
            (util.SanitizeURL (main.Query_Get (http.Query rp) "url"))
            (main.Query_Get (http.Query rp) "sign")
            (main.Query_Get (http.Query rp) "ts") = None) as Hv
    by (vm_compute; reflexivity).
  assert (hex.EncodeToString
            (hmac.Sum (signer.secret (main.signer s))
               (util.SanitizeURL (main.Query_Get (http.Query r) "u")
                ++ "|" ++ main.Query_Get (http.Query rp) "ts"))
          <> hex.EncodeToString
               (hmac.Sum (signer.secret (main.signer s))
                  (util.SanitizeURL (main.Query_Get (http.Query rp) "url")
                   ++ "|" ++ main.Query_Get (http.Query rp) "ts"))) as Hne
    by (vm_compute; discriminate).
  destruct (playlist_signature_refused_for_segments E s (demo.clock 100)
              (demo.clock 101) rp r [] eq_refl Hv eq_refl eq_refl Hne)
    as [(_ & _ & H) _].
  apply H; [discriminate|reflexivity].
Defined.

End PlaylistSignature.
